(** * The product feed route ([src/app/api/feed/route.js])

    A shallow embedding of the route that turns the paginated product
    catalog into a comma separated feed, and the properties of its
    availability, price, option, escaping, pagination and assembly rules.

    The first module gives the fragment of the ECMAScript semantics the
    route relies on: primitive values, truthiness, [String(v)],
    [parseFloat], [Number.prototype.toFixed], and the string methods the
    route calls.  Strings are byte strings holding UTF-8 text; numbers are
    IEEE 754 binary64 values, as [spec_float] of the Standard Library. *)

From Stdlib Require Import ZArith NArith List String Ascii Bool Lia.
From Stdlib Require Import DecimalString DecimalZ.
From Stdlib Require Import Floats.SpecFloat.
Import ListNotations.
Local Open Scope string_scope.

Module JS.

(** ** Characters and strings *)

Definition dquote : ascii := "034"%char.
Definition comma : ascii := ","%char.
Definition newline : ascii := "010"%char.

Definition str1 (c : ascii) : string := String c EmptyString.

Definition string_eqb (a b : string) : bool := String.eqb a b.

Definition is_empty (s : string) : bool :=
  match s with EmptyString => true | String _ _ => false end.

(** [s.includes(needle)] *)
Fixpoint includes (s needle : string) : bool :=
  prefix needle s
  || match s with
     | EmptyString => false
     | String _ r => includes r needle
     end.

(** [s.replace(/c/g, by)] for a pattern that is one literal character. *)
Fixpoint replaceAll (c : ascii) (by_ : string) (s : string) : string :=
  match s with
  | EmptyString => EmptyString
  | String a r =>
      if Ascii.eqb a c then by_ ++ replaceAll c by_ r
      else String a (replaceAll c by_ r)
  end.

Fixpoint drop (n : nat) (s : string) : string :=
  match n, s with
  | O, _ => s
  | S k, String _ r => drop k r
  | S _, EmptyString => EmptyString
  end.

Fixpoint take (n : nat) (s : string) : string :=
  match n, s with
  | S k, String c r => String c (take k r)
  | _, _ => EmptyString
  end.

Fixpoint repeat_char (c : ascii) (n : nat) : string :=
  match n with
  | O => EmptyString
  | S k => String c (repeat_char c k)
  end.

(** The number of bytes of the white space or line terminator character
    (the class [\s] of regular expressions, the characters [trim] removes)
    that starts [s]; 0 when [s] starts with none.  The characters are
    U+0009..U+000D, U+0020, U+00A0, U+1680, U+2000..U+200A, U+2028, U+2029,
    U+202F, U+205F, U+3000 and U+FEFF, in their UTF-8 encodings. *)
Definition ws_len (s : string) : nat :=
  match s with
  | EmptyString => 0
  | String c r =>
      let b1 := N_of_ascii c in
      if ((9 <=? b1) && (b1 <=? 13) || (b1 =? 32))%N then 1
      else
        match r with
        | String c2 r2 =>
            let b2 := N_of_ascii c2 in
            if ((b1 =? 194) && (b2 =? 160))%N then 2
            else
              match r2 with
              | String c3 _ =>
                  let b3 := N_of_ascii c3 in
                  if ((b1 =? 225) && (b2 =? 154) && (b3 =? 128)
                      || (b1 =? 226) && (b2 =? 128)
                         && ((128 <=? b3) && (b3 <=? 138)
                             || (b3 =? 168) || (b3 =? 169) || (b3 =? 175))
                      || (b1 =? 226) && (b2 =? 129) && (b3 =? 159)
                      || (b1 =? 227) && (b2 =? 128) && (b3 =? 128)
                      || (b1 =? 239) && (b2 =? 187) && (b3 =? 191))%N
                  then 3 else 0
              | EmptyString => 0
              end
        | EmptyString => 0
        end
  end.

(** [s.trimStart()]; [skip] counts the bytes still to drop of the white
    space character being removed. *)
Fixpoint trimStart_from (skip : nat) (s : string) : string :=
  match s with
  | EmptyString => EmptyString
  | String _ r =>
      match skip with
      | S k => trimStart_from k r
      | O =>
          match ws_len s with
          | O => s
          | S k => trimStart_from k r
          end
      end
  end.

Definition trimStart (s : string) : string := trimStart_from 0 s.

(** Whether [s] is white space only. *)
Fixpoint all_ws_from (skip : nat) (s : string) : bool :=
  match s with
  | EmptyString => true
  | String _ r =>
      match skip with
      | S k => all_ws_from k r
      | O =>
          match ws_len s with
          | O => false
          | S k => all_ws_from k r
          end
      end
  end.

Definition all_ws (s : string) : bool := all_ws_from 0 s.

Fixpoint trimEnd (s : string) : string :=
  match s with
  | EmptyString => EmptyString
  | String c r => if all_ws s then EmptyString else String c (trimEnd r)
  end.

(** [s.trim()] *)
Definition trim (s : string) : string := trimEnd (trimStart s).

(** [s.replace(/\s+/g, " ")]: every maximal run of white space becomes one
    space.  [in_run] tells that the run being read has been written. *)
Fixpoint collapse_ws_from (skip : nat) (in_run : bool) (s : string) : string :=
  match s with
  | EmptyString => EmptyString
  | String c r =>
      match skip with
      | S k => collapse_ws_from k in_run r
      | O =>
          match ws_len s with
          | O => String c (collapse_ws_from 0 false r)
          | S k =>
              if in_run then collapse_ws_from k true r
              else String " " (collapse_ws_from k true r)
          end
      end
  end.

Definition collapse_ws (s : string) : string := collapse_ws_from 0 false s.

(** [s.replace(/<[^>]*>/g, "")]: a [<] starts a match when a [>] follows
    somewhere, and the match ends at the first one. *)
Fixpoint remove_tags_from (in_tag : bool) (s : string) : string :=
  match s with
  | EmptyString => EmptyString
  | String c r =>
      if in_tag then
        if Ascii.eqb c ">" then remove_tags_from false r
        else remove_tags_from true r
      else if Ascii.eqb c "<" && includes r ">" then remove_tags_from true r
      else String c (remove_tags_from false r)
  end.

Definition remove_tags (s : string) : string := remove_tags_from false s.

(** ** Numbers *)

Definition number : Type := spec_float.

Definition prec : Z := 53.
Definition emax : Z := 1024.

(** The exponent of the least positive number, [2^emin]. *)
Definition emin : Z := SpecFloat.emin prec emax.

Definition NaN : number := S754_nan.
Definition zero : number := S754_zero false.

(** [a < b] on numbers; false when either is NaN. *)
Definition number_ltb (a b : number) : bool := SFltb a b.
Definition number_eqb (a b : number) : bool := SFeqb a b.

(** The binary64 value nearest to [p / q] (ties to even), negated when
    [neg]. *)
Definition round_ratio (neg : bool) (p q : positive) : number :=
  SFdiv prec emax (S754_finite neg p 0) (S754_finite false q 0).

Definition number_of_Z (z : Z) : number := binary_normalize prec emax z 0 false.

(** Decimal digits. *)
Definition is_digit (c : ascii) : bool :=
  let n := N_of_ascii c in ((48 <=? n) && (n <=? 57))%N.

Definition digit_value (c : ascii) : N := (N_of_ascii c - 48)%N.

Fixpoint span_digits (s : string) : string * string :=
  match s with
  | String c r =>
      if is_digit c then let '(d, rest) := span_digits r in (String c d, rest)
      else (EmptyString, s)
  | EmptyString => (EmptyString, EmptyString)
  end.

Fixpoint digits_value_from (acc : N) (s : string) : N :=
  match s with
  | EmptyString => acc
  | String c r => digits_value_from (acc * 10 + digit_value c)%N r
  end.

Definition digits_value (s : string) : N := digits_value_from 0 s.

Definition string_of_N (n : N) : string := NilZero.string_of_uint (N.to_uint n).
Definition string_of_Z (z : Z) : string := NilZero.string_of_int (Z.to_int z).

(** The binary64 value of the decimal [m * 10^e].  Beyond the range of
    binary64 the result is known without computing the power of ten. *)
Definition decimal_value (neg : bool) (m : N) (e : Z) : number :=
  match m with
  | N0 => S754_zero neg
  | Npos p =>
      let d := Z.of_nat (String.length (string_of_N m)) in
      if (310 <? e + d)%Z then S754_infinity neg
      else if (e + d <? -330)%Z then S754_zero neg
      else if (0 <=? e)%Z then round_ratio neg (p * Z.to_pos (10 ^ e)) 1
      else round_ratio neg p (Z.to_pos (10 ^ (- e)))
  end.

(** The longest prefix of [s] that is a [StrDecimalLiteral], as its value
    and the text left after it. *)
Definition scan_sign (s : string) : bool * string :=
  match s with
  | String "-" r => (true, r)
  | String "+" r => (false, r)
  | _ => (false, s)
  end.

Definition scan_exponent (s : string) : Z * string :=
  match s with
  | String c r =>
      if Ascii.eqb c "e" || Ascii.eqb c "E" then
        let '(eneg, r1) := scan_sign r in
        let '(ed, r2) := span_digits r1 in
        if is_empty ed then (0%Z, s)
        else ((if eneg then - Z.of_N (digits_value ed) else Z.of_N (digits_value ed))%Z, r2)
      else (0%Z, s)
  | EmptyString => (0%Z, s)
  end.

Definition scan_decimal (s : string) : option (number * string) :=
  let '(neg, u) := scan_sign s in
  if prefix "Infinity" u then Some (S754_infinity neg, drop 8 u)
  else
    let '(ip, r1) := span_digits u in
    let '(fp, r2) :=
      match r1 with
      | String "." r => span_digits r
      | _ => (EmptyString, r1)
      end in
    if is_empty ip && is_empty fp then None
    else
      let '(ex, r3) := scan_exponent r2 in
      Some (decimal_value neg (digits_value (ip ++ fp))
              (ex - Z.of_nat (String.length fp)), r3).

(** [parseFloat] of a string. *)
Definition parseFloat_string (s : string) : number :=
  match scan_decimal (trimStart s) with
  | Some (n, _) => n
  | None => NaN
  end.

(** ** [Number::toString] (radix 10) *)

Definition pow10 (n : Z) : Z := (10 ^ n)%Z.

(** The exact value of a positive finite number [m * 2^e] as a fraction. *)
Definition exact_ratio (m : positive) (e : Z) : Z * Z :=
  if (0 <=? e)%Z then (Zpos m * 2 ^ e, 1)%Z else (Zpos m, 2 ^ (- e))%Z.

(** [num / den * 10^t] as a fraction. *)
Definition scale10 (r : Z * Z) (t : Z) : Z * Z :=
  let '(num, den) := r in
  if (0 <=? t)%Z then (num * pow10 t, den)%Z else (num, den * pow10 (- t))%Z.

Definition ratio_floor (r : Z * Z) : Z := (fst r / snd r)%Z.

Definition digits_len (z : Z) : Z := Z.of_nat (String.length (string_of_Z z)).

(** The least [n] with [num / den < 10^n], for a positive fraction. *)
Definition magnitude10 (r : Z * Z) : Z :=
  let '(num, den) := r in
  if (den <=? num)%Z then digits_len (num / den)
  else
    let n := (1 - digits_len (den / num))%Z in
    if (ratio_floor (scale10 r (- n)) <? 1)%Z then n else (n + 1)%Z.

Fixpoint strip_trailing_zeros_rev (s : list ascii) : list ascii :=
  match s with
  | c :: r => if Ascii.eqb c "0" then strip_trailing_zeros_rev r else s
  | [] => []
  end.

Definition strip_trailing_zeros (s : string) : string :=
  match string_of_list_ascii (rev (strip_trailing_zeros_rev (rev (list_ascii_of_string s)))) with
  | EmptyString => "0"
  | t => t
  end.

(** Step 5 of [Number::toString]: the digits [s] (as an integer) and the
    exponent [n] with [k] as small as possible such that [s * 10^(n-k)]
    rounds to [x]; among the integers of [k] digits the one nearest to [x],
    the even one on a tie.  [k] runs from [k] to [k + fuel]; seventeen
    digits always determine a binary64 value. *)
Fixpoint shortest_digits (fuel : nat) (k : Z) (x : number) (r : Z * Z) (n0 : Z)
  : Z * Z :=
  let y := scale10 r (k - n0) in
  let lo := ratio_floor y in
  let hi := (lo + 1)%Z in
  let ok s := number_eqb (decimal_value false (Z.to_N s) (n0 - k)) x in
  let pick :=
    match ok lo, ok hi with
    | true, true =>
        match (2 * fst y ?= (lo + hi) * snd y)%Z with
        | Lt => Some lo
        | Gt => Some hi
        | Eq => Some (if Z.even lo then lo else hi)
        end
    | true, false => Some lo
    | false, true => Some hi
    | false, false => None
    end in
  match pick, fuel with
  | Some s, _ => (s, k)
  | None, O => (lo, k)
  | None, S f => shortest_digits f (k + 1) x r n0
  end.

Definition format_digits (digits : string) (n : Z) : string :=
  let k := Z.of_nat (String.length digits) in
  if ((k <=? n) && (n <=? 21))%Z then
    digits ++ repeat_char "0" (Z.to_nat (n - k))
  else if ((0 <? n) && (n <=? 21))%Z then
    take (Z.to_nat n) digits ++ "." ++ drop (Z.to_nat n) digits
  else if ((-6 <? n) && (n <=? 0))%Z then
    "0." ++ repeat_char "0" (Z.to_nat (- n)) ++ digits
  else
    let e := (n - 1)%Z in
    let es := (if (e <? 0)%Z then "-" else "+") ++ string_of_Z (Z.abs e) in
    if (k =? 1)%Z then digits ++ "e" ++ es
    else take 1 digits ++ "." ++ drop 1 digits ++ "e" ++ es.

Definition number_to_string (x : number) : string :=
  match x with
  | S754_nan => "NaN"
  | S754_zero _ => "0"
  | S754_infinity s => (if s then "-" else "") ++ "Infinity"
  | S754_finite s m e =>
      let r := exact_ratio m e in
      let n0 := magnitude10 r in
      let '(d, k) := shortest_digits 16 1 (S754_finite false m e) r n0 in
      (* [d] has [k] digits, or is [10^k], which shifts the exponent by one *)
      let n := if (pow10 k <=? d)%Z then (n0 + 1)%Z else n0 in
      (if s then "-" else "") ++ format_digits (strip_trailing_zeros (string_of_Z d)) n
  end.

(** ** [Number.prototype.toFixed] *)

(** The integer [n] for which [n / 10^f - x] is nearest to zero, the larger
    one on a tie. *)
Definition round_half_up (r : Z * Z) : Z :=
  let '(num, den) := r in ((2 * num + den) / (2 * den))%Z.

Definition toFixed (f : nat) (x : number) : string :=
  match x with
  | S754_finite s m e =>
      let r := exact_ratio m e in
      if (pow10 21 * snd r <=? fst r)%Z then number_to_string x
      else
        let n := round_half_up (scale10 r (Z.of_nat f)) in
        let ds := string_of_Z n in
        let ds := repeat_char "0" (S f - String.length ds) ++ ds in
        let cut := String.length ds - f in
        (if s then "-" else "")
        ++ take cut ds ++ (if Nat.eqb f 0 then "" else "." ++ drop cut ds)
  | S754_zero _ =>
      "0" ++ (if Nat.eqb f 0 then "" else "." ++ repeat_char "0" f)
  | _ => number_to_string x
  end.

(** ** [StringToNumber] *)

Definition hex_digit (c : ascii) : option N :=
  let n := N_of_ascii c in
  if ((48 <=? n) && (n <=? 57))%N then Some (n - 48)%N
  else if ((97 <=? n) && (n <=? 102))%N then Some (n - 87)%N
  else if ((65 <=? n) && (n <=? 70))%N then Some (n - 55)%N
  else None.

Fixpoint radix_value (radix : N) (acc : N) (s : string) : option N :=
  match s with
  | EmptyString => Some acc
  | String c r =>
      match hex_digit c with
      | Some d => if (d <? radix)%N then radix_value radix (acc * radix + d)%N r else None
      | None => None
      end
  end.

Definition radix_literal (radix : N) (digits : string) : number :=
  if is_empty digits then NaN
  else match radix_value radix 0 digits with
       | Some v => number_of_Z (Z.of_N v)
       | None => NaN
       end.

Definition string_to_number (s : string) : number :=
  let t := trim s in
  match t with
  | EmptyString => zero
  | String "0" (String c r) =>
      if Ascii.eqb c "x" || Ascii.eqb c "X" then radix_literal 16 r
      else if Ascii.eqb c "o" || Ascii.eqb c "O" then radix_literal 8 r
      else if Ascii.eqb c "b" || Ascii.eqb c "B" then radix_literal 2 r
      else match scan_decimal t with
           | Some (n, EmptyString) => n
           | _ => NaN
           end
  | _ => match scan_decimal t with
         | Some (n, EmptyString) => n
         | _ => NaN
         end
  end.

(** ** Primitive values *)

Inductive value : Type :=
  | Undefined
  | Null
  | Bool (b : bool)
  | Num (n : number)
  | Str (s : string).

(** [ToBoolean]: the values [!v] turns into [true] are [undefined], [null],
    [false], [+0], [-0], [NaN] and the empty string. *)
Definition truthy (v : value) : bool :=
  match v with
  | Undefined | Null => false
  | Bool b => b
  | Num (S754_zero _) | Num S754_nan => false
  | Num _ => true
  | Str s => negb (is_empty s)
  end.

(** [String(v)], also what a template literal does to an interpolated
    value. *)
Definition to_string (v : value) : string :=
  match v with
  | Undefined => "undefined"
  | Null => "null"
  | Bool true => "true"
  | Bool false => "false"
  | Num n => number_to_string n
  | Str s => s
  end.

(** [ToNumber] *)
Definition to_number (v : value) : number :=
  match v with
  | Undefined => NaN
  | Null => zero
  | Bool true => number_of_Z 1
  | Bool false => zero
  | Num n => n
  | Str s => string_to_number s
  end.

(** [a === b] *)
Definition strict_eq (a b : value) : bool :=
  match a, b with
  | Undefined, Undefined => true
  | Null, Null => true
  | Bool x, Bool y => Bool.eqb x y
  | Num x, Num y => number_eqb x y
  | Str x, Str y => string_eqb x y
  | _, _ => false
  end.

(** [a || b] *)
Definition or_else (a b : value) : value := if truthy a then a else b.

(** [a > n] for a number [n]: [a] is converted with [ToNumber]. *)
Definition gt_number (a : value) (n : number) : bool :=
  number_ltb n (to_number a).

(** [parseFloat(v)] *)
Definition parseFloat (v : value) : number := parseFloat_string (to_string v).

(** [array.join(sep)]: [undefined] and [null] elements read as empty. *)
Definition join_text (v : value) : string :=
  match v with
  | Undefined | Null => ""
  | _ => to_string v
  end.

Definition join (sep : string) (l : list value) : string :=
  String.concat sep (map join_text l).

(** ** Exceptions *)

Inductive exn : Type :=
  | TypeError (message : string)
  | Error (message : string).

Definition message (e : exn) : string :=
  match e with TypeError m | Error m => m end.

Inductive result (A : Type) : Type :=
  | Ok (a : A)
  | Throw (e : exn).

Arguments Ok {A} a.
Arguments Throw {A} e.

Definition bind {A B : Type} (r : result A) (k : A -> result B) : result B :=
  match r with
  | Ok a => k a
  | Throw e => Throw e
  end.

(** [array.find(f)]: the first element [f] accepts; [f] is not called on
    the elements after it. *)
Fixpoint findM {A : Type} (f : A -> result bool) (l : list A) : result (option A) :=
  match l with
  | [] => Ok None
  | a :: r =>
      bind (f a) (fun b => if b then Ok (Some a) else findM f r)
  end.

(** [array.map(f)] *)
Fixpoint mapM {A B : Type} (f : A -> result B) (l : list A) : result (list B) :=
  match l with
  | [] => Ok []
  | a :: r => bind (f a) (fun b => bind (mapM f r) (fun bs => Ok (b :: bs)))
  end.

(** [array.flatMap(f)] *)
Fixpoint flatMapM {A B : Type} (f : A -> result (list B)) (l : list A)
  : result (list B) :=
  match l with
  | [] => Ok []
  | a :: r => bind (f a) (fun bs => bind (flatMapM f r) (fun cs => Ok (bs ++ cs)%list))
  end.

End JS.

Import JS.

Declare Scope js_scope.
Notation "x <- c1 ;; c2" := (bind c1 (fun x => c2))
  (at level 61, c1 at next level, right associativity) : js_scope.
Local Open Scope js_scope.

(** * The catalog's records

    The fields the route requests from the catalog source
    ([id,title,handle,variants,images,body_html,vendor,product_type,status,options,tags])
    and the fields of a variant it reads.  A scalar field holds any
    primitive value, [Undefined] when the object lacks the property; an
    array field is [None] when the property is missing. *)

Module Image.
Record t : Type := { src : value }.

(** An entry of the [images] array: an image object, or [null] or
    [undefined] in its place. *)
Inductive entry : Type :=
| Object (img : t)
| NullEntry
| UndefinedEntry.
End Image.

Module ProductOption.
Record t : Type := { name : value; position : value }.
End ProductOption.

Module Variant.
Record t : Type := {
  id : value;
  sku : value;
  title : value;
  price : value;
  compare_at_price : value;
  inventory_management : value;
  inventory_quantity : value;
  barcode : value;
  weight : value;
  weight_unit : value;
  option1 : value;
  option2 : value;
  option3 : value
}.

(** [variant[key]] *)
Definition get (v : t) (key : string) : value :=
  if string_eqb key "id" then id v
  else if string_eqb key "sku" then sku v
  else if string_eqb key "title" then title v
  else if string_eqb key "price" then price v
  else if string_eqb key "compare_at_price" then compare_at_price v
  else if string_eqb key "inventory_management" then inventory_management v
  else if string_eqb key "inventory_quantity" then inventory_quantity v
  else if string_eqb key "barcode" then barcode v
  else if string_eqb key "weight" then weight v
  else if string_eqb key "weight_unit" then weight_unit v
  else if string_eqb key "option1" then option1 v
  else if string_eqb key "option2" then option2 v
  else if string_eqb key "option3" then option3 v
  else Undefined.
End Variant.

Module Product.
Record t : Type := {
  id : value;
  title : value;
  handle : value;
  body_html : value;
  vendor : value;
  product_type : value;
  status : value;
  tags : value;
  images : option (list Image.entry);
  options : option (list ProductOption.t);
  variants : option (list Variant.t)
}.
End Product.

(** * The route *)

Definition SHOP_DOMAIN : string := "https://lunaglow.de".
Definition CURRENCY : string := "EUR".

Definition CSV_HEADERS : list string :=
  [ "id";
    "title";
    "description";
    "link";
    "image_link";
    "additional_image_link";
    "availability";
    "price";
    "sale_price";
    "brand";
    "condition";
    "gtin";
    "identifier_exists";
    "product_type";
    "item_group_id";
    "color";
    "size";
    "material";
    "shipping_weight" ].

Definition escapeCsv (str : value) : string :=
  if negb (truthy str) then ""
  else
    let value := to_string str in
    if includes value (str1 dquote) || includes value "," || includes value (str1 newline)
    then str1 dquote ++ replaceAll dquote (String dquote (str1 dquote)) value ++ str1 dquote
    else value.

Definition stripHtml (html : value) : result string :=
  if negb (truthy html) then Ok ""
  else
    match html with
    | Str s => Ok (trim (collapse_ws (remove_tags s)))
    | _ => Throw (TypeError "html.replace is not a function")
    end.

Definition getAvailability (variant : Variant.t) (productStatus : value) : string :=
  if negb (strict_eq productStatus (Str "active")) then "out_of_stock"
  else if strict_eq (Variant.inventory_management variant) Null then "in_stock"
  else if gt_number (Variant.inventory_quantity variant) zero then "in_stock"
  else "out_of_stock".

(** ** The constants of [buildItemRow]

    Each [const] of the function's body, as a function of the product and
    the variant it is computed from. *)

Definition variantId (product : Product.t) (variant : Variant.t) : value :=
  or_else (Variant.sku variant)
    (Str ("shopify_" ++ to_string (Product.id product) ++ "_"
          ++ to_string (Variant.id variant))).

Definition title (product : Product.t) (variant : Variant.t) : value :=
  if negb (strict_eq (Variant.title variant) (Str "Default Title"))
  then Str (to_string (Product.title product) ++ " - "
            ++ to_string (Variant.title variant))
  else Product.title product.

Definition description (product : Product.t) : result string :=
  stripHtml (Product.body_html product).

Definition link (product : Product.t) : string :=
  SHOP_DOMAIN ++ "/products/" ++ to_string (Product.handle product).

(** [product.images?.[0]?.src || ""] *)
Definition imageLink (product : Product.t) : value :=
  or_else match Product.images product with
          | Some (Image.Object img :: _) => Image.src img
          | _ => Undefined
          end (Str "").

(** The callback [(img) => img.src]: reading [src] of [null] or [undefined]
    throws. *)
Definition imageSrc (img : Image.entry) : result value :=
  match img with
  | Image.Object i => Ok (Image.src i)
  | Image.NullEntry =>
      Throw (TypeError "Cannot read properties of null (reading 'src')")
  | Image.UndefinedEntry =>
      Throw (TypeError "Cannot read properties of undefined (reading 'src')")
  end.

(** [(product.images?.slice(1) || []).map((img) => img.src).join(",")] *)
Definition additionalImages (product : Product.t) : result string :=
  srcs <- mapM imageSrc match Product.images product with
                        | Some imgs => tl imgs
                        | None => []
                        end ;;
  Ok (join "," srcs).

Definition availability (product : Product.t) (variant : Variant.t) : string :=
  getAvailability variant (Product.status product).

Definition brand (product : Product.t) : value :=
  or_else (Product.vendor product) (Str "").

Definition barcode (variant : Variant.t) : value :=
  or_else (Variant.barcode variant) (Str "").

Definition productType (product : Product.t) : value :=
  or_else (Product.product_type product) (Str "").

(** [variant.compare_at_price && parseFloat(...) > parseFloat(...)]: the
    compare-at price itself when it counts as false, the comparison's
    outcome otherwise. *)
Definition hasSalePrice (variant : Variant.t) : value :=
  if truthy (Variant.compare_at_price variant)
  then Bool (number_ltb (parseFloat (Variant.price variant))
                        (parseFloat (Variant.compare_at_price variant)))
  else Variant.compare_at_price variant.

Definition salePrice (variant : Variant.t) : string :=
  if truthy (hasSalePrice variant)
  then toFixed 2 (parseFloat (Variant.price variant)) ++ " " ++ CURRENCY
  else "".

Definition regularPrice (variant : Variant.t) : string :=
  if truthy (hasSalePrice variant)
  then toFixed 2 (parseFloat (Variant.compare_at_price variant)) ++ " " ++ CURRENCY
  else toFixed 2 (parseFloat (Variant.price variant)) ++ " " ++ CURRENCY.

Definition weight (variant : Variant.t) : string :=
  if truthy (Variant.weight variant) && gt_number (Variant.weight variant) zero
  then to_string (Variant.weight variant) ++ " "
       ++ to_string (or_else (Variant.weight_unit variant) (Str "kg"))
  else "".

Definition identifierExists (variant : Variant.t) : string :=
  if truthy (barcode variant) then "" else "false".

Section Route.

(** [String.prototype.toLowerCase], the host's Unicode lower-casing. *)
Variable toLowerCase : string -> string.

(** The callback of [find] in [getVariantOptionByName]. *)
Definition optionNamed (optionName : string) (o : ProductOption.t) : result bool :=
  match ProductOption.name o with
  | Str s => Ok (string_eqb (toLowerCase s) (toLowerCase optionName))
  | Undefined =>
      Throw (TypeError "Cannot read properties of undefined (reading 'toLowerCase')")
  | Null =>
      Throw (TypeError "Cannot read properties of null (reading 'toLowerCase')")
  | _ => Throw (TypeError "o.name.toLowerCase is not a function")
  end.

Definition getVariantOptionByName
  (product : Product.t) (variant : Variant.t) (optionName : string) : result value :=
  option <- match Product.options product with
            | Some os => findM (optionNamed optionName) os
            | None => Ok None
            end ;;
  match option with
  | None => Ok Null
  | Some o =>
      Ok (or_else (Variant.get variant ("option" ++ to_string (ProductOption.position o)))
                  Null)
  end.

(** [a || b] where computing [b] may throw: [b] is computed only when [a]
    counts as false. *)
Definition or_elseM (a : value) (b : result value) : result value :=
  if truthy a then Ok a else b.

Definition color (product : Product.t) (variant : Variant.t) : result value :=
  c <- getVariantOptionByName product variant "Color" ;;
  or_elseM c (f <- getVariantOptionByName product variant "Farbe" ;;
              Ok (or_else f (Str ""))).

Definition size (product : Product.t) (variant : Variant.t) : result value :=
  s <- getVariantOptionByName product variant "Size" ;;
  or_elseM s (g <- getVariantOptionByName product variant "Größe" ;;
              Ok (or_else g (Str ""))).

Definition material (product : Product.t) (variant : Variant.t) : result value :=
  m <- getVariantOptionByName product variant "Material" ;;
  Ok (or_else m (Str "")).

(** The array [row] of [buildItemRow], before escaping.  The five constants
    that may throw are computed in the order of the source. *)
Definition buildItemFields (product : Product.t) (variant : Variant.t)
  : result (list value) :=
  description <- description product ;;
  additionalImages <- additionalImages product ;;
  color <- color product variant ;;
  size <- size product variant ;;
  material <- material product variant ;;
  Ok [ variantId product variant;
       title product variant;
       Str description;
       Str (link product);
       imageLink product;
       Str additionalImages;
       Str (availability product variant);
       Str (regularPrice variant);
       Str (salePrice variant);
       brand product;
       Str "new";
       barcode variant;
       Str (identifierExists variant);
       productType product;
       Product.id product;
       color;
       size;
       material;
       Str (weight variant) ].

Definition buildItemRow (product : Product.t) (variant : Variant.t) : result string :=
  row <- buildItemFields product variant ;;
  Ok (String.concat "," (map escapeCsv row)).

(** The [rows] of [GET]. *)
Definition feedRows (products : list Product.t) : result (list string) :=
  flatMapM
    (fun product =>
       match Product.variants product with
       | Some variants => mapM (fun variant => buildItemRow product variant) variants
       | None => Throw (TypeError "Cannot read properties of undefined (reading 'map')")
       end)
    (filter (fun p => strict_eq (Product.status p) (Str "active")) products).

End Route.

(** The [csv] of [GET]. *)
Definition feedCsv (rows : list string) : string :=
  String.concat (str1 newline) (String.concat "," CSV_HEADERS :: rows).

(** ** The page fetcher

    The REST client is the catalog source: [get] answers a request with a
    response or throws, and may change the source's state.  A response
    carries the page's products and, under [pageInfo.nextPage], the query
    of the next page; [nextPage] is [None] when the property is missing or
    null. *)

Definition Query : Type := list (string * string).

Record Params : Type := { path : string; query : Query }.

Record PageInfo : Type := { nextPage : option Params }.

Record RestResponse : Type := {
  body_products : list Product.t;
  pageInfo : option PageInfo
}.

(** [response.pageInfo?.nextPage] *)
Definition nextPageOf (response : RestResponse) : option Params :=
  match pageInfo response with
  | Some info => nextPage info
  | None => None
  end.

Definition firstParams : Params :=
  {| path := "products.json";
     query := [ ("fields",
                 "id,title,handle,variants,images,body_html,vendor,product_type,status,options,tags");
                ("limit", "250") ] |}.

(** What a run of the fetcher leaves: the value returned or the exception
    thrown, the source's state, and the requests issued, oldest first. *)
Record Outcome (St A : Type) : Type := {
  returned : result A;
  source : St;
  requests : list Params
}.

Arguments returned {St A} o.
Arguments source {St A} o.
Arguments requests {St A} o.

Section Fetcher.

Variable St : Type.
Variable get : Params -> St -> result RestResponse * St.

(** The [while] loop of [fetchAllProducts].  [fuel] bounds the number of
    iterations the model follows; [None] tells that the loop was still
    running when the fuel ran out.  The source has no such bound. *)
Fixpoint fetchLoop (fuel : nat) (response : RestResponse)
  (products : list Product.t) (st : St) (sent : list Params)
  : option (Outcome St (list Product.t)) :=
  match nextPageOf response with
  | None => Some {| returned := Ok products; source := st; requests := sent |}
  | Some next =>
      match fuel with
      | O => None
      | S fuel' =>
          let params := {| path := "products.json"; query := query next |} in
          match get params st with
          | (Throw e, st') =>
              Some {| returned := Throw e; source := st';
                      requests := (sent ++ [params])%list |}
          | (Ok response', st') =>
              fetchLoop fuel' response'
                (products ++ body_products response')%list st'
                (sent ++ [params])%list
          end
      end
  end.

Definition fetchAllProducts (fuel : nat) (st : St)
  : option (Outcome St (list Product.t)) :=
  match get firstParams st with
  | (Throw e, st') =>
      Some {| returned := Throw e; source := st'; requests := [firstParams] |}
  | (Ok response, st') =>
      fetchLoop fuel response ([] ++ body_products response)%list st' [firstParams]
  end.

End Fetcher.

(** ** The handler *)

Inductive HttpResponse : Type :=
  | JsonResponse (error : string) (status : Z)
  | TextResponse (body : string) (status : Z) (contentType : string).

Section Handler.

Variable toLowerCase : string -> string.
Variable St : Type.
Variable get : Params -> St -> result RestResponse * St.

(** [GET], given the two settings read from the environment. *)
Definition GET (fuel : nat) (SHOPIFY_HOST_NAME SHOPIFY_ADMIN_ACCESS_TOKEN : value)
  (st : St) : option (HttpResponse * St) :=
  if negb (truthy SHOPIFY_HOST_NAME) || negb (truthy SHOPIFY_ADMIN_ACCESS_TOKEN)
  then Some (JsonResponse "Missing Shopify credentials" 500, st)
  else
    match fetchAllProducts St get fuel st with
    | None => None
    | Some out =>
        let answer :=
          products <- returned out ;;
          rows <- feedRows toLowerCase products ;;
          Ok (feedCsv rows) in
        match answer with
        | Ok csv => Some (TextResponse csv 200 "text/csv; charset=utf-8", source out)
        | Throw error => Some (TextResponse (message error) 500 "text/plain", source out)
        end
    end.

End Handler.

(** * Notions the properties are stated with *)

(** The characters of a text. *)
Definition chars (s : string) : list ascii := list_ascii_of_string s.

(** Whether a text holds one of the three characters that force quoting. *)
Definition reserved (t : string) : Prop :=
  In dquote (chars t) \/ In comma (chars t) \/ In newline (chars t).

(** A text with every double quote written twice. *)
Definition doubled (t : string) : string :=
  string_of_list_ascii
    (flat_map (fun c => if Ascii.eqb c dquote then [dquote; dquote] else [c]) (chars t)).

(** A number strictly above zero: a positive finite number or [+Infinity]. *)
Definition positive_number (n : number) : Prop :=
  match n with
  | S754_finite false _ _ | S754_infinity false => True
  | _ => False
  end.

(** The field of a row under a column of the header. *)
Fixpoint columnIndex (name : string) (headers : list string) : nat :=
  match headers with
  | [] => 0
  | h :: r => if string_eqb h name then 0 else S (columnIndex name r)
  end.

Definition column (name : string) (row : list value) : value :=
  nth (columnIndex name CSV_HEADERS) row Undefined.

(** ** Exact values *)

(** The value of a number other than NaN: a fraction [num / den] with
    [0 < den], or an infinity. *)
Inductive exact : Type :=
| MinusInfinity
| Fraction (num den : Z)
| PlusInfinity.

Definition exactValue (x : number) : option exact :=
  match x with
  | S754_nan => None
  | S754_zero _ => Some (Fraction 0 1)
  | S754_infinity s => Some (if s then MinusInfinity else PlusInfinity)
  | S754_finite s m e =>
      let '(num, den) := exact_ratio m e in
      Some (Fraction (if s then - num else num)%Z den)
  end.

(** The order of the values. *)
Definition exact_lt (a b : exact) : Prop :=
  match a, b with
  | MinusInfinity, MinusInfinity => False
  | MinusInfinity, _ => True
  | Fraction n d, Fraction n' d' => (n * d' < n' * d)%Z
  | Fraction _ _, PlusInfinity => True
  | _, _ => False
  end.

(** [a] and [b] are numbers, none of them NaN, and the value of [a] is
    strictly above the value of [b]. *)
Definition above (a b : number) : Prop :=
  match exactValue a, exactValue b with
  | Some va, Some vb => exact_lt vb va
  | _, _ => False
  end.

(** An amount written with two decimals and the currency code. *)
Definition formatted (amount : value) : string :=
  toFixed 2 (parseFloat amount) ++ " " ++ CURRENCY.

(** [a] read as a number is strictly above [b] read as a number: both
    texts begin with a number, and the value of the first is the larger. *)
Definition numerically_greater (a b : value) : Prop :=
  above (parseFloat a) (parseFloat b).

(** The order of texts, character by character. *)
Definition lexically_greater (a b : string) : Prop :=
  String.compare a b = Gt.

(** The row builder takes the sale branch. *)
Definition sale_applies (variant : Variant.t) : Prop :=
  truthy (hasSalePrice variant) = true.

(** ** Options *)

(** Every option of the product has a text for a name. *)
Definition namedOptions (product : Product.t) : Prop :=
  match Product.options product with
  | Some os => Forall (fun o => exists s, ProductOption.name o = Str s) os
  | None => True
  end.

(** The option's name is [optionName], letter case apart. *)
Definition named (toLowerCase : string -> string) (optionName : string)
  (o : ProductOption.t) : Prop :=
  exists s, ProductOption.name o = Str s /\ toLowerCase s = toLowerCase optionName.

(** [o] is the first option of the product named [optionName]. *)
Definition first_named (toLowerCase : string -> string) (optionName : string)
  (product : Product.t) (o : ProductOption.t) : Prop :=
  exists before after,
    Product.options product = Some (before ++ o :: after)%list
    /\ Forall (fun o' => ~ named toLowerCase optionName o') before
    /\ named toLowerCase optionName o.

(** The product has no option named [optionName]. *)
Definition none_named (toLowerCase : string -> string) (optionName : string)
  (product : Product.t) : Prop :=
  match Product.options product with
  | Some os => Forall (fun o => ~ named toLowerCase optionName o) os
  | None => True
  end.

(** The positional slots of a variant, counted from 1. *)
Definition slot (variant : Variant.t) (k : nat) : value :=
  match k with
  | 1 => Variant.option1 variant
  | 2 => Variant.option2 variant
  | 3 => Variant.option3 variant
  | _ => Undefined
  end.

(** The position [k] as the catalog writes it, a number. *)
Definition position_number (k : nat) : value := Num (number_of_Z (Z.of_nat k)).

(** The first of the candidates that is not empty, the empty text when
    all are. *)
Definition first_non_empty (candidates : list value) : value :=
  match List.find truthy candidates with
  | Some v => v
  | None => Str ""
  end.

(** ** Missing fields *)

(** A scalar field is missing when the object lacks it or holds [null]. *)
Definition missing (v : value) : Prop := v = Undefined \/ v = Null.

(** The description is a text, or counts as false. *)
Definition textualDescription (product : Product.t) : Prop :=
  truthy (Product.body_html product) = false
  \/ exists s, Product.body_html product = Str s.

(** Every image after the first is an image object: no [null] and no
    [undefined] stands in the list of the additional images. *)
Definition imageObjects (product : Product.t) : Prop :=
  match Product.images product with
  | Some imgs => Forall (fun e => exists img, e = Image.Object img) (tl imgs)
  | None => True
  end.

(** ** Documents *)

(** The rows of a document, each after one line feed. *)
Fixpoint linesAfter (rows : list string) : string :=
  match rows with
  | [] => ""
  | r :: rest => str1 newline ++ r ++ linesAfter rest
  end.

(** The fields of a line, each but the first after one comma. *)
Fixpoint fieldsAfter (fields : list string) : string :=
  match fields with
  | [] => ""
  | f :: rest => "," ++ f ++ fieldsAfter rest
  end.

(** ** Feeds *)

Definition active (product : Product.t) : Prop :=
  Product.status product = Str "active".

Definition isActive (product : Product.t) : bool :=
  match Product.status product with
  | Str s => String.eqb s "active"
  | _ => false
  end.

(** The number of variants of a product, none when the list is missing. *)
Definition variantCount (product : Product.t) : nat :=
  match Product.variants product with
  | Some vs => List.length vs
  | None => 0
  end.

(** The number of variants of the active products of a list. *)
Definition activeVariantCount (products : list Product.t) : nat :=
  list_sum (map (fun p => if isActive p then variantCount p else 0) products).

(** [rows] is made of one row for each variant of each active product of
    [products], in the order of the products and, within a product, of its
    variants; the other products give no row. *)
Inductive rowsOf (toLowerCase : string -> string)
  : list Product.t -> list string -> Prop :=
  | rowsOf_nil : rowsOf toLowerCase [] []
  | rowsOf_inactive (p : Product.t) (ps : list Product.t) (rows : list string) :
      ~ active p ->
      rowsOf toLowerCase ps rows ->
      rowsOf toLowerCase (p :: ps) rows
  | rowsOf_active (p : Product.t) (ps : list Product.t) (vs : list Variant.t)
      (lines rows : list string) :
      active p ->
      Product.variants p = Some vs ->
      Forall2 (fun v line => buildItemRow toLowerCase p v = Ok line) vs lines ->
      rowsOf toLowerCase ps rows ->
      rowsOf toLowerCase (p :: ps) (lines ++ rows)%list.

(** What row construction and the feed need of an active product: named
    options, a textual description, image objects after the first image,
    and a list of variants. *)
Definition wellFormed (product : Product.t) : Prop :=
  namedOptions product
  /\ textualDescription product
  /\ imageObjects product
  /\ Product.variants product <> None.

(** ** Paged sources *)

(** The request for the page a response announces. *)
Definition nextParams (next : Params) : Params :=
  {| path := "products.json"; query := query next |}.

Section Paging.

Variable St : Type.
Variable get : Params -> St -> result RestResponse * St.

(** After [response], received with the source in state [st], the source
    serves the pages [pages] to the requests [sent], each request the one
    the response before it announces, and the last response announces
    none; [st'] is the state it ends in. *)
Inductive follows : St -> RestResponse -> list (list Product.t) -> St -> list Params -> Prop :=
  | follows_end (st : St) (response : RestResponse) :
      nextPageOf response = None ->
      follows st response [] st []
  | follows_next (st st' st'' : St) (response response' : RestResponse)
      (next : Params) (pages : list (list Product.t)) (sent : list Params) :
      nextPageOf response = Some next ->
      get (nextParams next) st = (Ok response', st') ->
      follows st' response' pages st'' sent ->
      follows st response (body_products response' :: pages) st''
        (nextParams next :: sent).

(** From state [st] the source serves exactly the pages [pages], the first
    to the first request of the fetcher. *)
Definition serves (st : St) (pages : list (list Product.t)) (st' : St)
  (sent : list Params) : Prop :=
  exists response st1 rest sent',
    get firstParams st = (Ok response, st1)
    /\ follows st1 response rest st' sent'
    /\ pages = body_products response :: rest
    /\ sent = firstParams :: sent'.

(** Every response of the source announces a next page. *)
Definition endless : Prop :=
  forall params st,
    exists response st',
      get params st = (Ok response, st') /\ nextPageOf response <> None.

End Paging.

(** ** Reading a line back

    The usual reading of a comma separated record.  A field that starts
    with a double quote runs to the double quote that closes it, two double
    quotes in a row standing for one; any other field runs to the next
    comma.  A line feed outside a quoted field, a quoted field that is not
    closed, and anything but a comma after a closing quote make the line
    unreadable. *)

Inductive csvState : Type :=
  | FieldStart
  | Unquoted (field : string)
  | Quoted (field : string)
  | QuoteSeen (field : string).

Fixpoint parseCsvFrom (state : csvState) (line : string) : option (list string) :=
  match line with
  | EmptyString =>
      match state with
      | FieldStart => Some [""]
      | Unquoted field => Some [field]
      | Quoted _ => None
      | QuoteSeen field => Some [field]
      end
  | String c rest =>
      match state with
      | FieldStart =>
          if Ascii.eqb c dquote then parseCsvFrom (Quoted "") rest
          else if Ascii.eqb c comma then
            option_map (cons "") (parseCsvFrom FieldStart rest)
          else if Ascii.eqb c newline then None
          else parseCsvFrom (Unquoted (str1 c)) rest
      | Unquoted field =>
          if Ascii.eqb c comma then
            option_map (cons field) (parseCsvFrom FieldStart rest)
          else if Ascii.eqb c newline then None
          else parseCsvFrom (Unquoted (field ++ str1 c)) rest
      | Quoted field =>
          if Ascii.eqb c dquote then parseCsvFrom (QuoteSeen field) rest
          else parseCsvFrom (Quoted (field ++ str1 c)) rest
      | QuoteSeen field =>
          if Ascii.eqb c dquote then parseCsvFrom (Quoted (field ++ str1 dquote)) rest
          else if Ascii.eqb c comma then
            option_map (cons field) (parseCsvFrom FieldStart rest)
          else None
      end
  end.

Definition parseCsvLine (line : string) : option (list string) :=
  parseCsvFrom FieldStart line.

(** The text a field value stands for in the feed: its text, or nothing
    when the value counts as false. *)
Definition fieldText (v : value) : string :=
  if truthy v then to_string v else "".

(** What follows a field on a line: nothing, or a comma and more fields. *)
Definition afterField (tail : string) (more : option string) : Prop :=
  match more with
  | None => tail = ""
  | Some rest => tail = String comma rest
  end.

Definition fieldThen (field : string) (more : option string) : option (list string) :=
  match more with
  | None => Some [field]
  | Some rest => option_map (cons field) (parseCsvFrom FieldStart rest)
  end.

(** ** Reading a document back

    The usual reading of a comma separated document: as a line is read,
    and a line feed outside a quoted field ends the record. *)

Definition addField (field : string) (records : option (list (list string)))
  : option (list (list string)) :=
  match records with
  | Some (record :: rest) => Some ((field :: record) :: rest)
  | _ => None
  end.

Definition endRecord (field : string) (records : option (list (list string)))
  : option (list (list string)) :=
  option_map (cons [field]) records.

Fixpoint parseCsvDocFrom (state : csvState) (text : string)
  : option (list (list string)) :=
  match text with
  | EmptyString =>
      match state with
      | FieldStart => Some [[""]]
      | Unquoted field => Some [[field]]
      | Quoted _ => None
      | QuoteSeen field => Some [[field]]
      end
  | String c rest =>
      match state with
      | FieldStart =>
          if Ascii.eqb c dquote then parseCsvDocFrom (Quoted "") rest
          else if Ascii.eqb c comma then addField "" (parseCsvDocFrom FieldStart rest)
          else if Ascii.eqb c newline then endRecord "" (parseCsvDocFrom FieldStart rest)
          else parseCsvDocFrom (Unquoted (str1 c)) rest
      | Unquoted field =>
          if Ascii.eqb c comma then addField field (parseCsvDocFrom FieldStart rest)
          else if Ascii.eqb c newline then endRecord field (parseCsvDocFrom FieldStart rest)
          else parseCsvDocFrom (Unquoted (field ++ str1 c)) rest
      | Quoted field =>
          if Ascii.eqb c dquote then parseCsvDocFrom (QuoteSeen field) rest
          else parseCsvDocFrom (Quoted (field ++ str1 c)) rest
      | QuoteSeen field =>
          if Ascii.eqb c dquote then parseCsvDocFrom (Quoted (field ++ str1 dquote)) rest
          else if Ascii.eqb c comma then addField field (parseCsvDocFrom FieldStart rest)
          else if Ascii.eqb c newline then endRecord field (parseCsvDocFrom FieldStart rest)
          else None
      end
  end.

Definition parseCsvDocument (text : string) : option (list (list string)) :=
  parseCsvDocFrom FieldStart text.

(** The line of a row: [row.map(escapeCsv).join(",")]. *)
Definition lineOf (row : list value) : string :=
  String.concat "," (map escapeCsv row).

(** What follows a field in a document: nothing, a comma and more fields of
    the record, or a line feed and more records. *)
Inductive docTail : Type :=
  | DocEnd
  | DocComma (rest : string)
  | DocLine (rest : string).

Definition tailText (more : docTail) : string :=
  match more with
  | DocEnd => ""
  | DocComma rest => String comma rest
  | DocLine rest => String newline rest
  end.

Definition fieldThenDoc (field : string) (more : docTail)
  : option (list (list string)) :=
  match more with
  | DocEnd => Some [[field]]
  | DocComma rest => addField field (parseCsvDocFrom FieldStart rest)
  | DocLine rest => endRecord field (parseCsvDocFrom FieldStart rest)
  end.

(** ** Sources that fail *)

Section Failing.

Variable St : Type.
Variable get : Params -> St -> result RestResponse * St.

(** After [response] the source serves some further pages and then throws
    [e]; [sent] are the requests made after [response], the last of them
    the one that is answered by the exception. *)
Inductive breaks : St -> RestResponse -> exn -> St -> list Params -> Prop :=
  | breaks_now (st st' : St) (response : RestResponse) (next : Params) (e : exn) :
      nextPageOf response = Some next ->
      get (nextParams next) st = (Throw e, st') ->
      breaks st response e st' [nextParams next]
  | breaks_later (st st' st'' : St) (response response' : RestResponse)
      (next : Params) (e : exn) (sent : list Params) :
      nextPageOf response = Some next ->
      get (nextParams next) st = (Ok response', st') ->
      breaks st' response' e st'' sent ->
      breaks st response e st'' (nextParams next :: sent).

(** From state [st] the source throws [e], at the first request or at a
    later one. *)
Definition failsWith (st : St) (e : exn) (st' : St) (sent : list Params) : Prop :=
  (get firstParams st = (Throw e, st') /\ sent = [firstParams])
  \/ exists response st1 sent',
       get firstParams st = (Ok response, st1)
       /\ breaks st1 response e st' sent'
       /\ sent = firstParams :: sent'.

End Failing.

(** The exception of a page of the catalog that cannot be read. *)
Definition mapOfUndefined : exn :=
  TypeError "Cannot read properties of undefined (reading 'map')".

(** ** Plain text *)

(** A text in which no [<] has a [>] anywhere after it: it holds no match
    of the pattern of tags. *)
Fixpoint tagFree (s : string) : Prop :=
  match s with
  | EmptyString => True
  | String c r => (c = "<"%char -> ~ In ">"%char (chars r)) /\ tagFree r
  end.

(** [out] is [text] with some characters dropped and some spaces put in. *)
Inductive thinned : string -> string -> Prop :=
  | thinned_nil : thinned "" ""
  | thinned_drop (c : ascii) (out text : string) :
      thinned out text -> thinned out (String c text)
  | thinned_keep (c : ascii) (out text : string) :
      thinned out text -> thinned (String c out) (String c text)
  | thinned_space (out text : string) :
      thinned out text -> thinned (String " " out) text.

(** The tab, the line feed, the vertical tab, the form feed and the
    carriage return. *)
Definition controlSpace (c : ascii) : bool :=
  ((9 <=? N_of_ascii c) && (N_of_ascii c <=? 13))%N.

(** A text in which no space follows a space. *)
Fixpoint singleSpaced (s : string) : Prop :=
  match s with
  | EmptyString => True
  | String c r => (c = " "%char -> prefix " " r = false) /\ singleSpaced r
  end.

(** ** Amounts *)

(** A number [toFixed] writes in fixed notation: a zero, or a finite number
    below [10^21] in absolute value. *)
Definition fixedRange (x : number) : Prop :=
  match x with
  | S754_zero _ => True
  | S754_finite _ m e =>
      (fst (exact_ratio m e) < pow10 21 * snd (exact_ratio m e))%Z
  | _ => False
  end.

(** The sign [toFixed] writes. *)
Definition signText (x : number) : string :=
  match x with
  | S754_finite true _ _ => "-"
  | _ => ""
  end.

(** [s] is made of decimal digits. *)
Definition digitsOnly (s : string) : Prop :=
  Forall (fun c => is_digit c = true) (chars s).

(** [n] hundredths are what is nearest to the absolute value of [x], the
    larger number of hundredths when two are equally near. *)
Definition nearestHundredths (x : number) (n : Z) : Prop :=
  match x with
  | S754_zero _ => n = 0%Z
  | S754_finite _ m e =>
      let '(num, den) := exact_ratio m e in
      ((2 * n - 1) * den <= 200 * num < (2 * n + 1) * den)%Z
  | _ => False
  end.

(** [text] writes [x] with two decimals: the sign, the digits of the whole
    part, a point and two digits; whole part and decimals, read as a number
    of hundredths, are the hundredths nearest to [x]. *)
Definition twoDecimals (x : number) (text : string) : Prop :=
  exists whole cents,
    text = signText x ++ whole ++ "." ++ cents
    /\ 1 <= String.length whole
    /\ String.length cents = 2
    /\ digitsOnly whole
    /\ digitsOnly cents
    /\ nearestHundredths x (Z.of_N (digits_value (whole ++ cents))).

(** [field] gives the amount [x] and the currency: [x] with two decimals
    when [x] is in the range of fixed notation, the text of the number
    otherwise, then a space and the currency code. *)
Definition amountField (x : number) (field : string) : Prop :=
  exists text,
    field = text ++ " EUR"
    /\ (fixedRange x -> twoDecimals x text)
    /\ (~ fixedRange x -> text = number_to_string x).

(** * Sample data *)

(** The object [{}]: a variant with no property. *)
Definition noVariant : Variant.t :=
  {| Variant.id := Undefined; Variant.sku := Undefined; Variant.title := Undefined;
     Variant.price := Undefined; Variant.compare_at_price := Undefined;
     Variant.inventory_management := Undefined;
     Variant.inventory_quantity := Undefined; Variant.barcode := Undefined;
     Variant.weight := Undefined; Variant.weight_unit := Undefined;
     Variant.option1 := Undefined; Variant.option2 := Undefined;
     Variant.option3 := Undefined |}.

(** [{ inventory_quantity: q }] *)
Definition variantWithQuantity (q : value) : Variant.t :=
  {| Variant.id := Undefined; Variant.sku := Undefined; Variant.title := Undefined;
     Variant.price := Undefined; Variant.compare_at_price := Undefined;
     Variant.inventory_management := Undefined;
     Variant.inventory_quantity := q; Variant.barcode := Undefined;
     Variant.weight := Undefined; Variant.weight_unit := Undefined;
     Variant.option1 := Undefined; Variant.option2 := Undefined;
     Variant.option3 := Undefined |}.

(** [{ price: p, compare_at_price: c }] *)
Definition variantWithPrices (p c : value) : Variant.t :=
  {| Variant.id := Undefined; Variant.sku := Undefined; Variant.title := Undefined;
     Variant.price := p; Variant.compare_at_price := c;
     Variant.inventory_management := Undefined;
     Variant.inventory_quantity := Undefined; Variant.barcode := Undefined;
     Variant.weight := Undefined; Variant.weight_unit := Undefined;
     Variant.option1 := Undefined; Variant.option2 := Undefined;
     Variant.option3 := Undefined |}.

(** [{ inventory_management: "shopify", inventory_quantity: q }] *)
Definition trackedVariant (q : value) : Variant.t :=
  {| Variant.id := Undefined; Variant.sku := Undefined; Variant.title := Undefined;
     Variant.price := Undefined; Variant.compare_at_price := Undefined;
     Variant.inventory_management := Str "shopify";
     Variant.inventory_quantity := q; Variant.barcode := Undefined;
     Variant.weight := Undefined; Variant.weight_unit := Undefined;
     Variant.option1 := Undefined; Variant.option2 := Undefined;
     Variant.option3 := Undefined |}.

(** Lower-casing of the letters A to Z, which is what [toLowerCase] does to
    a text of ASCII characters. *)
Fixpoint asciiLower (s : string) : string :=
  match s with
  | EmptyString => EmptyString
  | String c r =>
      let n := N_of_ascii c in
      String (if ((65 <=? n) && (n <=? 90))%N then ascii_of_N (n + 32) else c)
             (asciiLower r)
  end.

(** A red variant, size M, of a product whose options are named in German
    and in capitals. *)
Definition redVariant : Variant.t :=
  {| Variant.id := Num (number_of_Z 42); Variant.sku := Str "";
     Variant.title := Str "Rot / M";
     Variant.price := Str "19.99"; Variant.compare_at_price := Str "24.99";
     Variant.inventory_management := Str "shopify";
     Variant.inventory_quantity := Num (number_of_Z 3); Variant.barcode := Null;
     Variant.weight := Num (parseFloat_string "0.25"); Variant.weight_unit := Undefined;
     Variant.option1 := Str "Rot"; Variant.option2 := Str "M";
     Variant.option3 := Null |}.

Definition lotion : Product.t :=
  {| Product.id := Num (number_of_Z 7001234567890); Product.title := Str "Lotion";
     Product.handle := Str "lotion";
     Product.body_html := Str "<p>Soft  and <b>light</b></p> ";
     Product.vendor := Str "Acme"; Product.product_type := Undefined;
     Product.status := Str "active"; Product.tags := Str "";
     Product.images :=
       Some [ Image.Object {| Image.src := Str "https://cdn.example/1.png" |};
              Image.Object {| Image.src := Str "https://cdn.example/2.png" |};
              Image.Object {| Image.src := Str "https://cdn.example/3.png" |} ];
     Product.options :=
       Some [ {| ProductOption.name := Str "FARBE"; ProductOption.position := position_number 1 |};
              {| ProductOption.name := Str "size"; ProductOption.position := position_number 2 |} ];
     Product.variants := Some [redVariant] |}.

(** The object [{}]: a product with no property. *)
Definition noProduct : Product.t :=
  {| Product.id := Undefined; Product.title := Undefined; Product.handle := Undefined;
     Product.body_html := Undefined; Product.vendor := Undefined;
     Product.product_type := Undefined; Product.status := Undefined;
     Product.tags := Undefined; Product.images := None; Product.options := None;
     Product.variants := None |}.

(** A draft of three variants. *)
Definition draft : Product.t :=
  {| Product.id := Num (number_of_Z 7001234567891); Product.title := Str "Serum";
     Product.handle := Str "serum"; Product.body_html := Null;
     Product.vendor := Str "Acme"; Product.product_type := Str "Care";
     Product.status := Str "draft"; Product.tags := Str "";
     Product.images := None; Product.options := None;
     Product.variants := Some [noVariant; redVariant; noVariant] |}.

(** A source of two pages: the lotion, then the draft. *)
Definition twoPages (params : Params) (st : nat) : result RestResponse * nat :=
  match query params with
  | [("page_info", "second")] =>
      (Ok {| body_products := [draft];
             pageInfo := Some {| nextPage := None |} |}, S st)
  | _ =>
      (Ok {| body_products := [lotion; lotion];
             pageInfo :=
               Some {| nextPage :=
                         Some {| path := "products.json";
                                 query := [("page_info", "second")] |} |} |},
       S st)
  end.

(** A source that announces a next page with every response. *)
Definition alwaysMore (params : Params) (st : unit) : result RestResponse * unit :=
  (Ok {| body_products := [lotion];
         pageInfo :=
           Some {| nextPage :=
                     Some {| path := "products.json";
                             query := [("page_info", "more")] |} |} |},
   st).

(** A source whose second page cannot be fetched. *)
Definition brokenSecondPage (params : Params) (st : nat) : result RestResponse * nat :=
  match query params with
  | [("page_info", "second")] => (Throw (Error "429 Too Many Requests"), S st)
  | _ =>
      (Ok {| body_products := [lotion];
             pageInfo :=
               Some {| nextPage :=
                         Some {| path := "products.json";
                                 query := [("page_info", "second")] |} |} |},
       S st)
  end.

(** An active product whose list of variants is missing. *)
Definition noVariants : Product.t :=
  {| Product.id := Num (number_of_Z 7001234567892); Product.title := Str "Balm";
     Product.handle := Str "balm"; Product.body_html := Null;
     Product.vendor := Str "Acme"; Product.product_type := Str "Care";
     Product.status := Str "active"; Product.tags := Str "";
     Product.images := None; Product.options := None;
     Product.variants := None |}.

(** The lotion with a third option that has no name. *)
Definition lotionWithUnnamedOption : Product.t :=
  {| Product.id := Product.id lotion; Product.title := Product.title lotion;
     Product.handle := Product.handle lotion;
     Product.body_html := Product.body_html lotion;
     Product.vendor := Product.vendor lotion;
     Product.product_type := Product.product_type lotion;
     Product.status := Product.status lotion; Product.tags := Product.tags lotion;
     Product.images := Product.images lotion;
     Product.options :=
       Some [ {| ProductOption.name := Str "FARBE"; ProductOption.position := position_number 1 |};
              {| ProductOption.name := Str "size"; ProductOption.position := position_number 2 |};
              {| ProductOption.name := Undefined; ProductOption.position := position_number 3 |} ];
     Product.variants := Product.variants lotion |}.

(** [{ weight: 0, weight_unit: "g" }] *)
Definition weightless : Variant.t :=
  {| Variant.id := Undefined; Variant.sku := Undefined; Variant.title := Undefined;
     Variant.price := Undefined; Variant.compare_at_price := Undefined;
     Variant.inventory_management := Undefined;
     Variant.inventory_quantity := Undefined; Variant.barcode := Undefined;
     Variant.weight := Num (number_of_Z 0); Variant.weight_unit := Str "g";
     Variant.option1 := Undefined; Variant.option2 := Undefined;
     Variant.option3 := Undefined |}.

(** The lotion with [null] in the place of its second image. *)
Definition lotionWithNullImage : Product.t :=
  {| Product.id := Product.id lotion; Product.title := Product.title lotion;
     Product.handle := Product.handle lotion;
     Product.body_html := Product.body_html lotion;
     Product.vendor := Product.vendor lotion;
     Product.product_type := Product.product_type lotion;
     Product.status := Product.status lotion; Product.tags := Product.tags lotion;
     Product.images :=
       Some [ Image.Object {| Image.src := Str "https://cdn.example/1.png" |};
              Image.NullEntry;
              Image.Object {| Image.src := Str "https://cdn.example/3.png" |} ];
     Product.options := Product.options lotion;
     Product.variants := Product.variants lotion |}.

(** The lotion with [null] in the place of its first image. *)
Definition lotionWithoutFirstImage : Product.t :=
  {| Product.id := Product.id lotion; Product.title := Product.title lotion;
     Product.handle := Product.handle lotion;
     Product.body_html := Product.body_html lotion;
     Product.vendor := Product.vendor lotion;
     Product.product_type := Product.product_type lotion;
     Product.status := Product.status lotion; Product.tags := Product.tags lotion;
     Product.images :=
       Some [ Image.NullEntry;
              Image.Object {| Image.src := Str "https://cdn.example/2.png" |} ];
     Product.options := Product.options lotion;
     Product.variants := Product.variants lotion |}.

(** * Properties *)

(** ** Values *)

Lemma strict_eq_Str (v : value) (s : string) :
  strict_eq v (Str s) = true <-> v = Str s.
Proof.
  destruct v; simpl; split; try discriminate.
  - intros H. apply String.eqb_eq in H. now subst.
  - intros H. injection H as ->. apply String.eqb_refl.
Qed.

Lemma strict_eq_Null (v : value) : strict_eq v Null = true <-> v = Null.
Proof. destruct v; simpl; split; congruence. Qed.

Lemma number_ltb_zero (n : number) :
  number_ltb zero n = true <-> positive_number n.
Proof.
  destruct n as [s | s | | s m e]; try destruct s; cbn; split;
    solve [ trivial | discriminate | contradiction ].
Qed.

(** ** Integers as numbers

    The number an integer is read as has the sign of the integer: rounding
    to 53 bits keeps a mantissa that is not zero. *)

Local Open Scope Z_scope.

Lemma iter_pos_nat {A : Type} (f : A -> A) (p : positive) (x : A) :
  iter_pos f p x = Nat.iter (Pos.to_nat p) f x.
Proof.
  revert x. induction p as [p IH | p IH |]; intros x; cbn [iter_pos].
  - rewrite !IH, Pos2Nat.inj_xI.
    replace (S (2 * Pos.to_nat p))%nat with (Pos.to_nat p + S (Pos.to_nat p))%nat by lia.
    rewrite Nat.iter_add. now rewrite Nat.iter_succ_r.
  - rewrite !IH, Pos2Nat.inj_xO.
    replace (2 * Pos.to_nat p)%nat with (Pos.to_nat p + Pos.to_nat p)%nat by lia.
    now rewrite Nat.iter_add.
  - reflexivity.
Qed.

Lemma shr_1_bound (mrs : shr_record) (k : Z) :
  0 <= k -> 2 ^ (k + 1) <= shr_m mrs -> 2 ^ k <= shr_m (shr_1 mrs).
Proof.
  intros K H. rewrite Z.pow_add_r in H by lia. change (2 ^ 1) with 2 in H.
  assert (0 < 2 ^ k) by (apply Z.pow_pos_nonneg; lia).
  destruct mrs as [m r s]. simpl in *.
  destruct m as [|[p|p|]|[p|p|]]; simpl; lia.
Qed.

Lemma iter_shr_1_bound (n : nat) (mrs : shr_record) (k : Z) :
  0 <= k -> 2 ^ (k + Z.of_nat n) <= shr_m mrs -> 2 ^ k <= shr_m (Nat.iter n shr_1 mrs).
Proof.
  revert k. induction n as [|n IH]; intros k K H.
  - simpl. now rewrite Z.add_0_r in H.
  - simpl. apply shr_1_bound; [exact K|]. apply IH; [lia|].
    replace (k + 1 + Z.of_nat n) with (k + Z.of_nat (S n)) by lia. exact H.
Qed.

Lemma digits2_bounds (p : positive) :
  2 ^ (Zpos (digits2_pos p) - 1) <= Zpos p < 2 ^ Zpos (digits2_pos p).
Proof.
  induction p as [p IH | p IH |]; simpl digits2_pos.
  - rewrite Pos2Z.inj_succ. replace (Z.succ (Zpos (digits2_pos p)) - 1) with (Zpos (digits2_pos p) - 1 + 1) by lia.
    rewrite Z.pow_succ_r, Z.pow_add_r by lia. change (2 ^ 1) with 2. lia.
  - rewrite Pos2Z.inj_succ. replace (Z.succ (Zpos (digits2_pos p)) - 1) with (Zpos (digits2_pos p) - 1 + 1) by lia.
    rewrite Z.pow_succ_r, Z.pow_add_r by lia. change (2 ^ 1) with 2. lia.
  - simpl. lia.
Qed.

Lemma digits2_mono (p q : positive) :
  Zpos p <= Zpos q -> Zpos (digits2_pos p) <= Zpos (digits2_pos q).
Proof.
  intros L. pose proof (digits2_bounds p) as [Lp _]. pose proof (digits2_bounds q) as [_ Uq].
  assert (2 ^ (Zpos (digits2_pos p) - 1) < 2 ^ Zpos (digits2_pos q)) as H by lia.
  apply Z.pow_lt_mono_r_iff in H; lia.
Qed.

Lemma shr_fexp_positive (m : positive) (e : Z) (l : location) :
  emin < Zpos (digits2_pos m) + e ->
  exists m',
    shr_m (fst (shr_fexp prec emax (Zpos m) e l)) = Zpos m'
    /\ emin < Zpos (digits2_pos m') + snd (shr_fexp prec emax (Zpos m) e l).
Proof.
  intros I. unfold shr_fexp, shr. cbn [Zdigits2].
  set (d := Zpos (digits2_pos m)) in *.
  assert (shr_m (shr_record_of_loc (Zpos m) l) = Zpos m) as M0
    by (destruct l as [|[| |]]; reflexivity).
  destruct (fexp prec emax (d + e) - e) as [|q|q] eqn:N.
  - exists m. now split.
  - cbn [fst snd].
    assert (Zpos q <= d - 1) as Q.
    { unfold fexp in N. fold emin in N. unfold prec in N. lia. }
    rewrite iter_pos_nat.
    pose proof (digits2_bounds m) as [Lm _]. fold d in Lm.
    assert (2 ^ (d - 1 - Zpos q)
            <= shr_m (Nat.iter (Pos.to_nat q) shr_1 (shr_record_of_loc (Zpos m) l))) as B.
    { apply iter_shr_1_bound; [lia|]. rewrite positive_nat_Z, M0.
      now replace (d - 1 - Zpos q + Zpos q) with (d - 1) by lia. }
    assert (0 < 2 ^ (d - 1 - Zpos q)) by (apply Z.pow_pos_nonneg; lia).
    destruct (shr_m (Nat.iter (Pos.to_nat q) shr_1 (shr_record_of_loc (Zpos m) l)))
      as [|m'|m'] eqn:R; try lia.
    exists m'. split; [reflexivity|].
    pose proof (digits2_bounds m') as [_ Um'].
    assert (2 ^ (d - 1 - Zpos q) < 2 ^ Zpos (digits2_pos m')) as P by lia.
    apply Z.pow_lt_mono_r_iff in P; lia.
  - exists m. now split.
Qed.

Lemma binary_round_aux_sign (s : bool) (m : positive) (e : Z) (l : location) :
  emin < Zpos (digits2_pos m) + e ->
  (exists m' e', binary_round_aux prec emax s (Zpos m) e l = S754_finite s m' e')
  \/ binary_round_aux prec emax s (Zpos m) e l = S754_infinity s.
Proof.
  intros I. unfold binary_round_aux.
  destruct (shr_fexp_positive m e l I) as (m1 & E1 & I1).
  destruct (shr_fexp prec emax (Zpos m) e l) as [mrs1 e1]. cbn [fst snd] in E1, I1.
  rewrite E1.
  assert (exists m2, round_nearest_even (Zpos m1) (loc_of_shr_record mrs1) = Zpos m2
                     /\ Zpos m1 <= Zpos m2) as (m2 & -> & L).
  { unfold round_nearest_even.
    destruct (loc_of_shr_record mrs1) as [|[| |]].
    - exists m1. split; [reflexivity | lia].
    - destruct (Z.even (Zpos m1)); [exists m1 | exists (m1 + 1)%positive]; split; try reflexivity; lia.
    - exists m1. split; [reflexivity | lia].
    - exists (m1 + 1)%positive. split; [reflexivity | lia]. }
  assert (emin < Zpos (digits2_pos m2) + e1) as I2
    by (pose proof (digits2_mono m1 m2 L); lia).
  destruct (shr_fexp_positive m2 e1 loc_Exact I2) as (m3 & E3 & _).
  destruct (shr_fexp prec emax (Zpos m2) e1 loc_Exact) as [mrs3 e3]. cbn [fst] in E3.
  rewrite E3. destruct (e3 <=? emax - prec); eauto.
Qed.

Lemma number_of_Z_positive (z : Z) : positive_number (number_of_Z z) <-> 0 < z.
Proof.
  unfold number_of_Z, binary_normalize. destruct z as [|p|p].
  - simpl. lia.
  - split; [lia | intros _]. unfold binary_round.
    destruct (shl_align p 0 (fexp prec emax (Zpos (digits2_pos p) + 0))) as [mz ez] eqn:A.
    assert (emin < Zpos (digits2_pos mz) + ez) as Hinv.
    { unfold shl_align in A.
      destruct (fexp prec emax (Zpos (digits2_pos p) + 0) - 0) eqn:F;
        injection A as <- <-; try (pose proof (Pos2Z.is_pos (digits2_pos p)); unfold emin, SpecFloat.emin, prec, emax; lia).
      pose proof (Pos2Z.is_pos (digits2_pos (Pos.iter xO p p0))).
      unfold fexp. fold emin. lia. }
    destruct (binary_round_aux_sign false mz ez loc_Exact Hinv) as [(m' & e' & ->) | ->]; exact I.
  - split; [|lia]. unfold binary_round.
    destruct (shl_align p 0 (fexp prec emax (Zpos (digits2_pos p) + 0))) as [mz ez] eqn:A.
    assert (emin < Zpos (digits2_pos mz) + ez) as Hinv.
    { unfold shl_align in A.
      destruct (fexp prec emax (Zpos (digits2_pos p) + 0) - 0) eqn:F;
        injection A as <- <-; try (pose proof (Pos2Z.is_pos (digits2_pos p)); unfold emin, SpecFloat.emin, prec, emax; lia).
      pose proof (Pos2Z.is_pos (digits2_pos (Pos.iter xO p p0))).
      unfold fexp. fold emin. lia. }
    destruct (binary_round_aux_sign true mz ez loc_Exact Hinv) as [(m' & e' & ->) | ->]; intros [].
Qed.

(** ** Valid numbers

    Division rounds to a valid binary64 number: a mantissa of at most 53
    bits at an exponent not below the least one, with all 53 bits above
    it.  The numbers [parseFloat] gives are such numbers. *)

Lemma fexp_eq (x : Z) : fexp prec emax x = Z.max (x - 53) (-1074).
Proof. reflexivity. Qed.

Lemma shr_1_upper (mrs : shr_record) (k : Z) :
  0 <= k -> 0 <= shr_m mrs < 2 ^ (k + 1) -> 0 <= shr_m (shr_1 mrs) < 2 ^ k.
Proof.
  intros K H. rewrite Z.pow_add_r in H by lia. change (2 ^ 1) with 2 in H.
  assert (0 < 2 ^ k) by (apply Z.pow_pos_nonneg; lia).
  destruct mrs as [m r s]. simpl in *.
  destruct m as [|[p|p|]|[p|p|]]; simpl; lia.
Qed.

Lemma iter_shr_1_upper (n : nat) (mrs : shr_record) (k : Z) :
  0 <= k -> 0 <= shr_m mrs < 2 ^ (k + Z.of_nat n) ->
  0 <= shr_m (Nat.iter n shr_1 mrs) < 2 ^ k.
Proof.
  revert k. induction n as [|n IH]; intros k K H.
  - simpl. now rewrite Z.add_0_r in H.
  - simpl. apply shr_1_upper; [exact K|]. apply IH; [lia|].
    replace (k + 1 + Z.of_nat n) with (k + Z.of_nat (S n)) by lia. exact H.
Qed.

Lemma Zdigits2_bounds (m : Z) :
  0 <= m -> 0 <= Zdigits2 m /\ m < 2 ^ Zdigits2 m /\ (0 < m -> 2 ^ (Zdigits2 m - 1) <= m).
Proof.
  destruct m as [|p|p]; intros P; try lia.
  - simpl. lia.
  - cbn [Zdigits2]. pose proof (digits2_bounds p). lia.
Qed.

Lemma shr_m_of_loc (m : Z) (l : location) : shr_m (shr_record_of_loc m l) = m.
Proof. destruct l as [|[| |]]; reflexivity. Qed.

(** The first shift of the rounding: the mantissa fits 53 bits at an
    exponent not below [emin], with all 53 bits above [emin]. *)
Lemma shr_fexp_aligned (m e : Z) (l : location) :
  0 <= m -> e <= fexp prec emax (Zdigits2 m + e) ->
  let r := shr_fexp prec emax m e l in
  -1074 <= snd r
  /\ 0 <= shr_m (fst r) < 2 ^ 53
  /\ (-1074 < snd r -> 2 ^ 52 <= shr_m (fst r)).
Proof.
  intros M E. pose proof (Zdigits2_bounds m M) as (D0 & U & L).
  unfold shr_fexp, shr. rewrite fexp_eq in *.
  set (d := Zdigits2 m) in *.
  destruct (Z.max (d + e - 53) (-1074) - e) as [|n|n] eqn:N; cbn [fst snd].
  - rewrite shr_m_of_loc. split; [lia|]. split.
    + split; [lia|]. apply Z.lt_le_trans with (1 := U).
      apply Z.pow_le_mono_r; lia.
    + intros G. assert (53 <= d) by lia.
      assert (0 < m) by (destruct m; simpl in *; lia).
      specialize (L H0). apply Z.le_trans with (2 := L).
      apply Z.pow_le_mono_r; lia.
  - rewrite iter_pos_nat. split; [lia|]. split.
    + assert (0 <= shr_m (Nat.iter (Pos.to_nat n) shr_1 (shr_record_of_loc m l))
              < 2 ^ Z.max 0 (d - Zpos n)) as B.
      { apply iter_shr_1_upper; [lia|]. rewrite positive_nat_Z, shr_m_of_loc.
        split; [lia|]. apply Z.lt_le_trans with (1 := U).
        apply Z.pow_le_mono_r; lia. }
      split; [lia|]. apply Z.lt_le_trans with (1 := proj2 B).
      apply Z.pow_le_mono_r; lia.
    + intros G. assert (Zpos n = d - 53) as Q by lia.
      assert (0 < m) by (destruct m; simpl in *; lia).
      specialize (L H).
      apply iter_shr_1_bound; [lia|]. rewrite positive_nat_Z, shr_m_of_loc.
      apply Z.le_trans with (2 := L). apply Z.pow_le_mono_r; lia.
  - lia.
Qed.

Lemma digits2_small (p : positive) :
  Zpos p < 2 ^ 53 -> Zpos (digits2_pos p) <= 53.
Proof.
  intros U. pose proof (digits2_bounds p) as [L _].
  assert (2 ^ (Zpos (digits2_pos p) - 1) < 2 ^ 53) as H by lia.
  apply Z.pow_lt_mono_r_iff in H; lia.
Qed.

Lemma digits2_full (p : positive) :
  2 ^ 52 <= Zpos p -> 53 <= Zpos (digits2_pos p).
Proof.
  intros L. pose proof (digits2_bounds p) as [_ U].
  assert (2 ^ 52 < 2 ^ Zpos (digits2_pos p)) as H by lia.
  apply Z.pow_lt_mono_r_iff in H; lia.
Qed.

Lemma binary_round_aux_valid (sx : bool) (mx ex : Z) (lx : location) :
  0 <= mx -> ex <= fexp prec emax (Zdigits2 mx + ex) ->
  valid_binary prec emax (binary_round_aux prec emax sx mx ex lx) = true.
Proof.
  intros M E. unfold binary_round_aux.
  pose proof (shr_fexp_aligned mx ex lx M E) as A. cbv zeta in A.
  destruct (shr_fexp prec emax mx ex lx) as [mrs1 e1]. cbn [fst snd] in A.
  destruct A as (E1 & (M0 & M1) & F1).
  set (m2 := round_nearest_even (shr_m mrs1) (loc_of_shr_record mrs1)).
  assert (shr_m mrs1 <= m2 <= shr_m mrs1 + 1) as R.
  { unfold m2, round_nearest_even.
    destruct (loc_of_shr_record mrs1) as [|[| |]]; try lia.
    destruct (Z.even (shr_m mrs1)); lia. }
  assert (m2 = 0 \/ m2 = 2 ^ 53 \/ 0 < m2 < 2 ^ 53) as [Z0 | [Z1 | Z2]] by lia.
  - rewrite Z0. unfold shr_fexp, shr. rewrite fexp_eq. cbn [Zdigits2].
    destruct (Z.max (0 + e1 - 53) (-1074) - e1) eqn:N; try lia; reflexivity.
  - rewrite Z1. unfold shr_fexp, shr. rewrite fexp_eq.
    change (Zdigits2 (2 ^ 53)) with 54.
    replace (Z.max (54 + e1 - 53) (-1074) - e1) with 1 by lia.
    cbn [iter_pos shr_record_of_loc]. change (2 ^ 53) with (Zpos (xO 4503599627370496)).
    cbn [shr_1 shr_m].
    destruct (e1 + 1 <=? emax - prec) eqn:O; [|reflexivity].
    cbn [valid_binary]. unfold bounded, canonical_mantissa. rewrite O, fexp_eq.
    change (Zpos (digits2_pos 4503599627370496)) with 53.
    rewrite andb_true_r. apply Z.eqb_eq. lia.
  - destruct m2 as [|p|p] eqn:P; try lia.
    pose proof (digits2_small p (proj2 Z2)) as S.
    assert (-1074 < e1 -> 53 <= Zpos (digits2_pos p)) as Fp.
    { intros G. apply digits2_full. specialize (F1 G). lia. }
    assert (Z.max (Zpos (digits2_pos p) + e1 - 53) (-1074) = e1) as C by lia.
    unfold shr_fexp, shr. rewrite fexp_eq. cbn [Zdigits2]. rewrite C, Z.sub_diag.
    cbn [shr_record_of_loc shr_m].
    destruct (e1 <=? emax - prec) eqn:O; [|reflexivity].
    cbn [valid_binary]. unfold bounded, canonical_mantissa. rewrite O, fexp_eq, C.
    rewrite andb_true_r. apply Z.eqb_refl.
Qed.

Lemma round_ratio_valid (neg : bool) (p q : positive) :
  valid_binary prec emax (round_ratio neg p q) = true.
Proof.
  unfold round_ratio, SFdiv, SFdiv_core_binary.
  rewrite !Z.add_0_r, !Z.sub_diag, fexp_eq. rewrite !Z.sub_0_l.
  set (d1 := Zdigits2 (Zpos p)). set (d2 := Zdigits2 (Zpos q)).
  set (e' := Z.min (Z.max (d1 - d2 - 53) (-1074)) 0).
  set (m' := match - e' with 0 => Zpos p | Zpos _ => Z.shiftl (Zpos p) (- e') | Zneg _ => 0 end).
  assert (m' = Zpos p * 2 ^ (- e')) as Hm'.
  { unfold m'. assert (0 <= - e') as S by (unfold e'; lia).
    destruct (- e') eqn:N;
      [simpl; lia | now rewrite Z.shiftl_mul_pow2 by lia | lia]. }
  pose proof (Z.div_eucl_eq m' (Zpos q) ltac:(lia)) as Q.
  pose proof (Z.mod_pos_bound m' (Zpos q) ltac:(lia)) as RB.
  unfold Z.modulo in RB.
  destruct (Z.div_eucl m' (Zpos q)) as [qu r].
  assert (0 < 2 ^ (- e')) as P2 by (apply Z.pow_pos_nonneg; unfold e'; lia).
  assert (0 <= qu) as Q0 by nia.
  apply binary_round_aux_valid; [exact Q0|].
  rewrite fexp_eq.
  destruct (Z_le_gt_dec e' (-1074)) as [Le | Gt]; [lia|].
  assert (e' <= d1 - d2 - 53) as Le by (unfold e' in *; lia).
  pose proof (digits2_bounds p) as [Lp _]. pose proof (digits2_bounds q) as [_ Uq].
  fold (Zdigits2 (Zpos p)) in Lp. fold (Zdigits2 (Zpos q)) in Uq. fold d1 in Lp. fold d2 in Uq.
  assert (0 < d1 /\ 0 < d2) as [D1 D2] by (unfold d1, d2; simpl; lia).
  assert (2 ^ (d1 - 1 - e' - d2) <= qu) as K.
  { assert (2 ^ (d1 - 1 - e' - d2) * 2 ^ d2 = 2 ^ (d1 - 1) * 2 ^ (- e')) as X.
    { rewrite <- !Z.pow_add_r by lia. f_equal. lia. }
    assert (0 < 2 ^ (d1 - 1 - e' - d2)) by (apply Z.pow_pos_nonneg; lia).
    nia. }
  pose proof (Zdigits2_bounds qu Q0) as (Dqu & Uqu & _).
  assert (2 ^ (d1 - 1 - e' - d2) < 2 ^ Zdigits2 qu) as H by lia.
  apply Z.pow_lt_mono_r_iff in H; lia.
Qed.

(** ** The order of numbers

    On valid numbers [<] is the order of the exact values. *)

Lemma exact_ratio_scaled (m : positive) (e : Z) :
  -1074 <= e ->
  0 < fst (exact_ratio m e) /\ 0 < snd (exact_ratio m e)
  /\ fst (exact_ratio m e) * 2 ^ 1074
     = Zpos m * 2 ^ (e + 1074) * snd (exact_ratio m e).
Proof.
  intros E. unfold exact_ratio. destruct (Z.leb_spec 0 e) as [P|N]; cbn [fst snd].
  - assert (0 < 2 ^ e) by (apply Z.pow_pos_nonneg; lia).
    split; [lia|]. split; [lia|]. rewrite Z.pow_add_r by lia. lia.
  - assert (0 < 2 ^ (- e)) by (apply Z.pow_pos_nonneg; lia).
    split; [lia|]. split; [lia|].
    rewrite <- Z.mul_assoc, <- Z.pow_add_r by lia. do 2 f_equal. lia.
Qed.

(** A valid finite number: at most 53 bits, all 53 above the least
    exponent. *)
Lemma bounded_inv (m : positive) (e : Z) :
  bounded prec emax m e = true ->
  -1074 <= e /\ Zpos m < 2 ^ 53 /\ (-1074 < e -> 2 ^ 52 <= Zpos m).
Proof.
  unfold bounded, canonical_mantissa. rewrite fexp_eq. intros H.
  apply andb_prop in H as [C _]. apply Z.eqb_eq in C.
  pose proof (digits2_bounds m) as [L U].
  split; [lia|]. split.
  - apply Z.lt_le_trans with (1 := U). apply Z.pow_le_mono_r; lia.
  - intros G. apply Z.le_trans with (2 := L). apply Z.pow_le_mono_r; lia.
Qed.

(** The order of two valid mantissas with their exponents is the order of
    the exponents, then of the mantissas. *)
Lemma scaled_compare (m1 m2 : positive) (e1 e2 : Z) :
  bounded prec emax m1 e1 = true -> bounded prec emax m2 e2 = true ->
  match (e1 ?= e2) with
  | Eq => Pos.compare_cont Eq m1 m2
  | c => c
  end
  = (Zpos m1 * 2 ^ (e1 + 1074) ?= Zpos m2 * 2 ^ (e2 + 1074)).
Proof.
  intros B1 B2.
  apply bounded_inv in B1 as (E1 & U1 & L1). apply bounded_inv in B2 as (E2 & U2 & L2).
  destruct (Z.compare_spec e1 e2) as [-> | Hlt | Hgt].
  - change (Pos.compare_cont Eq m1 m2) with (Zpos m1 ?= Zpos m2).
    assert (0 < 2 ^ (e2 + 1074)) by (apply Z.pow_pos_nonneg; lia).
    destruct (Z.compare_spec (Zpos m1) (Zpos m2)); symmetry;
      [apply Z.compare_eq_iff | apply Z.compare_lt_iff | apply Z.compare_gt_iff]; nia.
  - symmetry. apply Z.compare_lt_iff.
    specialize (L2 ltac:(lia)).
    assert (exists k, 0 <= k /\ e2 + 1074 = e1 + 1074 + 1 + k) as (k & K & ->)
      by (exists (e2 - e1 - 1); lia).
    assert (0 <= e1 + 1074) as A by lia. revert A. generalize (e1 + 1074). intros a A.
    rewrite !Z.pow_add_r by lia. change (2 ^ 1) with 2.
    assert (0 < 2 ^ a) by (apply Z.pow_pos_nonneg; lia).
    assert (0 < 2 ^ k) by (apply Z.pow_pos_nonneg; lia).
    assert (Zpos m1 < Zpos m2 * 2) by lia.
    assert (Zpos m1 * 2 ^ a < Zpos m2 * 2 * 2 ^ a) by nia.
    assert (Zpos m2 * 2 * 2 ^ a * 1 <= Zpos m2 * 2 * 2 ^ a * 2 ^ k)
      by (apply Z.mul_le_mono_nonneg_l; lia).
    lia.
  - symmetry. apply Z.compare_gt_iff.
    specialize (L1 ltac:(lia)).
    assert (exists k, 0 <= k /\ e1 + 1074 = e2 + 1074 + 1 + k) as (k & K & ->)
      by (exists (e1 - e2 - 1); lia).
    assert (0 <= e2 + 1074) as A by lia. revert A. generalize (e2 + 1074). intros a A.
    rewrite !Z.pow_add_r by lia. change (2 ^ 1) with 2.
    assert (0 < 2 ^ a) by (apply Z.pow_pos_nonneg; lia).
    assert (0 < 2 ^ k) by (apply Z.pow_pos_nonneg; lia).
    assert (Zpos m2 < Zpos m1 * 2) by lia.
    assert (Zpos m2 * 2 ^ a < Zpos m1 * 2 * 2 ^ a) by nia.
    assert (Zpos m1 * 2 * 2 ^ a * 1 <= Zpos m1 * 2 * 2 ^ a * 2 ^ k)
      by (apply Z.mul_le_mono_nonneg_l; lia).
    lia.
Qed.

Lemma fraction_lt_scaled (n1 d1 n2 d2 v1 v2 : Z) :
  0 < d1 -> 0 < d2 ->
  n1 * 2 ^ 1074 = v1 * d1 -> n2 * 2 ^ 1074 = v2 * d2 ->
  (n1 * d2 < n2 * d1 <-> v1 < v2).
Proof.
  intros D1 D2 H1 H2.
  assert (0 < 2 ^ 1074) as P by (apply Z.pow_pos_nonneg; lia).
  set (t := 2 ^ 1074) in *.
  assert (n1 * d2 * t = v1 * (d1 * d2)) as A
    by (replace (n1 * d2 * t) with (n1 * t * d2) by ring; rewrite H1; ring).
  assert (n2 * d1 * t = v2 * (d1 * d2)) as B
    by (replace (n2 * d1 * t) with (n2 * t * d1) by ring; rewrite H2; ring).
  rewrite (Z.mul_lt_mono_pos_r t (n1 * d2) (n2 * d1) P), A, B.
  symmetry. apply Z.mul_lt_mono_pos_r. now apply Z.mul_pos_pos.
Qed.

Lemma exact_finite (m : positive) (e : Z) :
  bounded prec emax m e = true ->
  exists n d,
    exact_ratio m e = (n, d) /\ 0 < n /\ 0 < d
    /\ n * 2 ^ 1074 = Zpos m * 2 ^ (e + 1074) * d.
Proof.
  intros B. apply bounded_inv in B as (E & _).
  pose proof (exact_ratio_scaled m e E) as H.
  destruct (exact_ratio m e) as [n d]. now exists n, d.
Qed.

(** [<] on valid numbers is the order of their exact values. *)
Lemma number_ltb_above (a b : number) :
  valid_binary prec emax a = true -> valid_binary prec emax b = true ->
  (number_ltb b a = true <-> above a b).
Proof.
  unfold number_ltb, SFltb, above.
  destruct a as [sa | sa | | sa ma ea], b as [sb | sb | | sb mb eb];
    cbn [valid_binary SFcompare exactValue]; intros Va Vb.
  16: {
    pose proof (scaled_compare mb ma eb ea Vb Va) as C.
    destruct (exact_finite ma ea Va) as (na & da & -> & Na & Da & Sa).
    destruct (exact_finite mb eb Vb) as (nb & db & -> & Nb & Db & Sb).
    cbn [exact_lt].
    set (va := Zpos ma * 2 ^ (ea + 1074)) in *.
    set (vb := Zpos mb * 2 ^ (eb + 1074)) in *.
    clearbody va vb.
    destruct sb, sa.
    - rewrite (fraction_lt_scaled (- nb) db (- na) da (- vb) (- va)) by lia.
      destruct (eb ?= ea) eqn:Ce;
        [ rewrite C; destruct (Z.compare_spec vb va) | |];
        cbn [CompOpp]; symmetry in C;
        rewrite ?Z.compare_lt_iff, ?Z.compare_gt_iff in C;
        split; first [discriminate | reflexivity | lia | intros; exfalso; lia].
    - split; [intros _; nia | reflexivity].
    - split; [discriminate | intros; nia].
    - rewrite (fraction_lt_scaled nb db na da vb va) by lia.
      destruct (eb ?= ea) eqn:Ce;
        [ rewrite C; destruct (Z.compare_spec vb va) | |];
        cbn [CompOpp]; symmetry in C;
        rewrite ?Z.compare_lt_iff, ?Z.compare_gt_iff in C;
        split; first [discriminate | reflexivity | lia | intros; exfalso; lia]. }
  all: repeat match goal with
       | V : bounded prec emax ?m ?e = true |- _ =>
           let n := fresh "n" in
           let d := fresh "d" in
           let E := fresh "E" in
           let N := fresh "N" in
           let D := fresh "D" in
           destruct (exact_finite m e V) as (n & d & E & N & D & _);
           rewrite E; clear V E
       end.
  all: repeat match goal with s : bool |- _ => destruct s end.
  all: cbn; split; first [discriminate | tauto | reflexivity | lia | intros; exfalso; lia].
Qed.

Lemma decimal_value_valid (neg : bool) (m : N) (e : Z) :
  valid_binary prec emax (decimal_value neg m e) = true.
Proof.
  unfold decimal_value. destruct m as [|p]; [reflexivity|]. cbv zeta.
  destruct (_ <? _); [reflexivity|].
  destruct (_ <? _); [reflexivity|].
  destruct (_ <=? _); apply round_ratio_valid.
Qed.

Lemma scan_decimal_valid (s : string) (n : number) (r : string) :
  scan_decimal s = Some (n, r) -> valid_binary prec emax n = true.
Proof.
  unfold scan_decimal. destruct (scan_sign s) as [neg u].
  destruct (prefix "Infinity" u).
  - intros H. injection H as <- _. reflexivity.
  - destruct (span_digits u) as [ip r1].
    destruct (match r1 with
              | String "." r0 => span_digits r0
              | _ => (EmptyString, r1)
              end) as [fp r2].
    destruct (is_empty ip && is_empty fp); [discriminate|].
    destruct (scan_exponent r2) as [ex r3].
    intros H. injection H as <- _. apply decimal_value_valid.
Qed.

Lemma parseFloat_valid (v : value) : valid_binary prec emax (parseFloat v) = true.
Proof.
  unfold parseFloat, parseFloat_string.
  destruct (scan_decimal (trimStart (to_string v))) as [[n r]|] eqn:S; [|reflexivity].
  exact (scan_decimal_valid _ n r S).
Qed.

Local Close Scope Z_scope.

(** ** Decimal digits

    [toFixed] writes the hundredths nearest to an amount in the range of
    fixed notation, in decimal digits, with a point before the last two. *)

Lemma length_append (a b : string) :
  String.length (a ++ b) = String.length a + String.length b.
Proof. induction a as [|c a IH]; simpl; [reflexivity | now rewrite IH]. Qed.

Lemma length_repeat_char (c : ascii) (n : nat) : String.length (repeat_char c n) = n.
Proof. induction n as [|n IH]; simpl; [reflexivity | now rewrite IH]. Qed.

Lemma length_drop (n : nat) (s : string) :
  String.length (drop n s) = String.length s - n.
Proof.
  revert s. induction n as [|n IH]; intros s; simpl; [lia|].
  destruct s as [|c s]; simpl; [reflexivity | apply IH].
Qed.

Lemma length_take (n : nat) (s : string) :
  n <= String.length s -> String.length (take n s) = n.
Proof.
  revert s. induction n as [|n IH]; intros s L; simpl; [reflexivity|].
  destruct s as [|c s]; simpl in *; [lia|]. rewrite IH; lia.
Qed.

Lemma digitsOnly_app (a b : string) : digitsOnly a -> digitsOnly b -> digitsOnly (a ++ b).
Proof.
  unfold digitsOnly. intros A B. induction a as [|c a IH]; simpl; [exact B|].
  inversion A; subst. constructor; auto.
Qed.

Lemma digitsOnly_zeros (n : nat) : digitsOnly (repeat_char "0" n).
Proof. induction n as [|n IH]; simpl; constructor; [reflexivity | exact IH]. Qed.

Lemma digitsOnly_take (n : nat) (s : string) : digitsOnly s -> digitsOnly (take n s).
Proof.
  unfold digitsOnly. revert s. induction n as [|n IH]; intros s D; simpl; [constructor|].
  destruct s as [|c s]; simpl in *; [constructor|].
  inversion D; subst. constructor; auto.
Qed.

Lemma digitsOnly_drop (n : nat) (s : string) : digitsOnly s -> digitsOnly (drop n s).
Proof.
  unfold digitsOnly. revert s. induction n as [|n IH]; intros s D; simpl; [exact D|].
  destruct s as [|c s]; simpl in *; [constructor|].
  inversion D; subst. auto.
Qed.

Lemma take_drop (n : nat) (s : string) : take n s ++ drop n s = s.
Proof.
  revert s. induction n as [|n IH]; intros s; simpl; [reflexivity|].
  destruct s as [|c s]; simpl; [reflexivity | now rewrite IH].
Qed.

Lemma digits_value_zeros (n : nat) (acc : N) (s : string) :
  digits_value_from 0 (repeat_char "0" n ++ s) = digits_value_from 0 s.
Proof. induction n as [|n IH]; simpl; [reflexivity | exact IH]. Qed.

Lemma digits_of_uint (d : Decimal.uint) :
  digitsOnly (NilEmpty.string_of_uint d)
  /\ forall acc : positive,
       digits_value_from (Npos acc) (NilEmpty.string_of_uint d)
       = Npos (Pos.of_uint_acc d acc).
Proof.
  induction d as [|d [D IH]|d [D IH]|d [D IH]|d [D IH]|d [D IH]|d [D IH]|d [D IH]
                  |d [D IH]|d [D IH]|d [D IH]];
    (split; [try (constructor; [reflexivity | exact D]) | intros acc]).
  1: constructor.
  1: reflexivity.
  all: cbn [NilEmpty.string_of_uint digits_value_from Pos.of_uint_acc];
    rewrite <- IH; f_equal;
    match goal with
    | |- context [digit_value ?c] =>
        let v := eval vm_compute in (digit_value c) in
        change (digit_value c) with v
    end; lia.
Qed.

Lemma digits_value_of_uint (d : Decimal.uint) :
  digits_value (NilEmpty.string_of_uint d) = Pos.of_uint d.
Proof.
  unfold digits_value.
  induction d; cbn [NilEmpty.string_of_uint digits_value_from Pos.of_uint];
    try reflexivity; try exact IHd;
    apply (proj2 (digits_of_uint d)).
Qed.

Lemma string_of_Z_digits (z : Z) :
  (0 <= z)%Z ->
  digitsOnly (string_of_Z z) /\ Z.of_N (digits_value (string_of_Z z)) = z.
Proof.
  intros P. pose proof (DecimalZ.of_to z) as R.
  unfold string_of_Z. destruct (Z.to_int z) as [d|d] eqn:E.
  - cbn [NilZero.string_of_int Z.of_int] in *. unfold Z.of_uint in R.
    unfold NilZero.string_of_uint. destruct d.
    1: { split; [repeat constructor | exact R]. }
    all: split; [apply digits_of_uint | now rewrite digits_value_of_uint].
  - destruct z; simpl in E; try discriminate. lia.
Qed.

Local Open Scope Z_scope.

Lemma exact_ratio_positive (m : positive) (e : Z) :
  0 < fst (exact_ratio m e) /\ 0 < snd (exact_ratio m e).
Proof.
  unfold exact_ratio. destruct (0 <=? e) eqn:E; cbn [fst snd].
  - apply Z.leb_le in E. assert (0 < 2 ^ e) by (apply Z.pow_pos_nonneg; lia). lia.
  - apply Z.leb_gt in E. assert (0 < 2 ^ (- e)) by (apply Z.pow_pos_nonneg; lia). lia.
Qed.

(** Rounding to hundredths gives the nearest number of hundredths, the
    larger one on a tie. *)
Lemma round_half_up_nearest (num den : Z) :
  0 < num -> 0 < den ->
  0 <= round_half_up (scale10 (num, den) 2)
  /\ (2 * round_half_up (scale10 (num, den) 2) - 1) * den <= 200 * num
     < (2 * round_half_up (scale10 (num, den) 2) + 1) * den.
Proof.
  intros N D. unfold scale10, round_half_up. cbn [Z.leb Z.compare].
  change (pow10 2) with 100.
  pose proof (Z.div_mod (2 * (num * 100) + den) (2 * den) ltac:(lia)) as Q.
  pose proof (Z.mod_pos_bound (2 * (num * 100) + den) (2 * den) ltac:(lia)) as R.
  assert (0 <= (2 * (num * 100) + den) / (2 * den)) by (apply Z.div_pos; lia).
  split; [assumption|]. nia.
Qed.

Local Close Scope Z_scope.

Lemma toFixed_hundredths (x : number) :
  fixedRange x -> twoDecimals x (toFixed 2 x).
Proof.
  destruct x as [s | s | | s m e]; cbn [fixedRange toFixed signText]; try contradiction.
  - intros _. exists "0", "00".
    split; [reflexivity|]. split; [simpl; lia|]. split; [reflexivity|].
    split; [repeat constructor|]. split; [repeat constructor | reflexivity].
  - intros F. apply Z.leb_gt in F. rewrite F. cbn [Nat.eqb].
    pose proof (exact_ratio_positive m e) as [Pn Pd].
    unfold twoDecimals, nearestHundredths.
    destruct (exact_ratio m e) as [num den] eqn:E. cbn [fst snd] in *.
    pose proof (round_half_up_nearest num den Pn Pd) as (N0 & Near).
    set (n := round_half_up (scale10 (num, den) (Z.of_nat 2))) in *.
    change (round_half_up (scale10 (num, den) 2)) with n in *.
    pose proof (string_of_Z_digits n N0) as (Dn & Vn).
    set (ds := repeat_char "0" (3 - String.length (string_of_Z n)) ++ string_of_Z n).
    assert (3 <= String.length ds) as L.
    { unfold ds. rewrite length_append, length_repeat_char. lia. }
    assert (digitsOnly ds) as Dd
      by (apply digitsOnly_app; [apply digitsOnly_zeros | exact Dn]).
    exists (take (String.length ds - 2) ds), (drop (String.length ds - 2) ds).
    split; [now destruct s|].
    split; [rewrite length_take; lia|].
    split; [rewrite length_drop; lia|].
    split; [now apply digitsOnly_take|].
    split; [now apply digitsOnly_drop|].
    rewrite take_drop. unfold ds, digits_value.
    rewrite (digits_value_zeros _ 0%N). fold (digits_value (string_of_Z n)).
    rewrite Vn. exact Near.
Qed.

Lemma toFixed_outside (x : number) :
  ~ fixedRange x -> toFixed 2 x = number_to_string x.
Proof.
  destruct x as [s | s | | s m e]; cbn [fixedRange toFixed]; try reflexivity.
  - intros N. now contradiction N.
  - intros N. apply Z.nlt_ge in N. apply Z.leb_le in N. now rewrite N.
Qed.

Lemma amountField_toFixed (x : number) :
  amountField x (toFixed 2 x ++ " " ++ CURRENCY).
Proof.
  exists (toFixed 2 x). split; [reflexivity|]. split.
  - apply toFixed_hundredths.
  - apply toFixed_outside.
Qed.

(** ** Availability *)

(** C1, as the route decides it: a product that is not active is out of
    stock; for an active product a variant whose inventory management is
    [null] is in stock whatever the quantity; any other variant, also one
    that lacks the property, is in stock exactly when its quantity is a
    number above zero, and out of stock otherwise; for a quantity that is
    an integer, in stock exactly when the integer is above zero. *)
Theorem getAvailability_rule (variant : Variant.t) (productStatus : value) :
  (productStatus <> Str "active" ->
     getAvailability variant productStatus = "out_of_stock")
  /\ (productStatus = Str "active" ->
      Variant.inventory_management variant = Null ->
      getAvailability variant productStatus = "in_stock")
  /\ (productStatus = Str "active" ->
      Variant.inventory_management variant <> Null ->
      (getAvailability variant productStatus = "in_stock"
         <-> positive_number (to_number (Variant.inventory_quantity variant)))
      /\ (~ positive_number (to_number (Variant.inventory_quantity variant)) ->
          getAvailability variant productStatus = "out_of_stock"))
  /\ (forall quantity : Z,
        productStatus = Str "active" ->
        Variant.inventory_management variant <> Null ->
        Variant.inventory_quantity variant = Num (number_of_Z quantity) ->
        (getAvailability variant productStatus = "in_stock" <-> (0 < quantity)%Z)
        /\ (getAvailability variant productStatus = "out_of_stock"
            <-> (quantity <= 0)%Z)).
Proof.
  unfold getAvailability, gt_number. split; [|split; [|split]].
  - intros Hs. destruct (strict_eq productStatus (Str "active")) eqn:E; [|reflexivity].
    apply strict_eq_Str in E. contradiction.
  - intros -> Hm. rewrite Hm. reflexivity.
  - intros -> Hm. cbn [strict_eq negb string_eqb]. rewrite String.eqb_refl. cbn [negb].
    destruct (strict_eq (Variant.inventory_management variant) Null) eqn:E.
    { apply strict_eq_Null in E. contradiction. }
    destruct (number_ltb zero _) eqn:G.
    + apply number_ltb_zero in G. split; [tauto|contradiction].
    + assert (~ positive_number (to_number (Variant.inventory_quantity variant))) as N.
      { intros Hp. apply number_ltb_zero in Hp. congruence. }
      split; [split; [discriminate|contradiction]|reflexivity].
  - intros quantity -> Hm Hq. cbn [strict_eq negb string_eqb]. rewrite String.eqb_refl.
    cbn [negb].
    destruct (strict_eq (Variant.inventory_management variant) Null) eqn:E.
    { apply strict_eq_Null in E. contradiction. }
    rewrite Hq. cbn [to_number].
    destruct (number_ltb zero (number_of_Z quantity)) eqn:G.
    + apply number_ltb_zero, number_of_Z_positive in G.
      split; split; try tauto; try discriminate; lia.
    + assert (~ (0 < quantity)%Z) as N.
      { intros Hp. apply number_of_Z_positive, number_ltb_zero in Hp. congruence. }
      split; split; try tauto; try discriminate; lia.
Qed.

(** A variant that lacks the [inventory_management] property and has no
    stock is out of stock: C1 as stated, which puts an unset mode with the
    [null] one, fails there. *)
Lemma getAvailability_unset_mode :
  Variant.inventory_management (variantWithQuantity (Num zero)) = Undefined
  /\ getAvailability (variantWithQuantity (Num zero)) (Str "active") = "out_of_stock"
  /\ getAvailability (variantWithQuantity (Num zero)) (Str "active") <> "in_stock".
Proof. repeat split. discriminate. Qed.

Example getAvailability_null_mode_negative_quantity :
  getAvailability
    {| Variant.id := Undefined; Variant.sku := Undefined; Variant.title := Undefined;
       Variant.price := Undefined; Variant.compare_at_price := Undefined;
       Variant.inventory_management := Null;
       Variant.inventory_quantity := Num (number_of_Z (-4)); Variant.barcode := Undefined;
       Variant.weight := Undefined; Variant.weight_unit := Undefined;
       Variant.option1 := Undefined; Variant.option2 := Undefined;
       Variant.option3 := Undefined |} (Str "active") = "in_stock".
Proof. reflexivity. Qed.

Example getAvailability_draft_product :
  getAvailability (variantWithQuantity (Num (number_of_Z 12))) (Str "draft")
  = "out_of_stock".
Proof. reflexivity. Qed.

(** ** Escaping *)

Lemma includes_char (s : string) (c : ascii) :
  includes s (str1 c) = true <-> In c (chars s).
Proof.
  unfold str1, chars. induction s as [|a r IH]; simpl.
  - split; [discriminate | contradiction].
  - destruct (ascii_dec c a) as [->|N].
    + split; [now left | intros _].
      destruct r; reflexivity.
    + rewrite orb_false_l, IH. split; [now right | intros [E|H]; [congruence | exact H]].
Qed.

Lemma includes_char_false (s : string) (c : ascii) :
  includes s (str1 c) = false <-> ~ In c (chars s).
Proof.
  rewrite <- includes_char. destruct (includes s (str1 c)); split; congruence.
Qed.

Lemma replaceAll_doubled (t : string) :
  replaceAll dquote (String dquote (str1 dquote)) t = doubled t.
Proof.
  unfold doubled, chars. induction t as [|a r IH]; simpl; [reflexivity|].
  destruct (Ascii.eqb a dquote); simpl; now rewrite IH.
Qed.

Lemma reserved_includes (t : string) :
  includes t (str1 dquote) || includes t "," || includes t (str1 newline) = true
  <-> reserved t.
Proof.
  unfold reserved. rewrite !orb_true_iff.
  change "," with (str1 comma). rewrite !includes_char. tauto.
Qed.

(** C3: [escapeCsv] gives the empty text for a value that counts as false;
    for any other value it takes the value's text, and when that text holds
    a double quote, a comma or a line feed it returns the text between
    double quotes with every double quote of it written twice, and returns
    the text as it is otherwise. *)
Theorem escapeCsv_rule (v : value) :
  (truthy v = false -> escapeCsv v = "")
  /\ (truthy v = true -> reserved (to_string v) ->
      escapeCsv v = str1 dquote ++ doubled (to_string v) ++ str1 dquote)
  /\ (truthy v = true -> ~ reserved (to_string v) ->
      escapeCsv v = to_string v).
Proof.
  unfold escapeCsv. split; [|split].
  - now intros ->.
  - intros -> R. apply reserved_includes in R. cbn [negb].
    rewrite R. now rewrite replaceAll_doubled.
  - intros -> R. cbn [negb].
    destruct (includes _ _ || includes _ _ || includes _ _) eqn:E; [|reflexivity].
    apply reserved_includes in E. contradiction.
Qed.

Example escapeCsv_plain : escapeCsv (Str "Lotion 50 ml") = "Lotion 50 ml".
Proof. reflexivity. Qed.

Example escapeCsv_comma_and_quote :
  escapeCsv (Str ("6" ++ str1 dquote ++ " jar, blue"))
  = str1 dquote ++ "6" ++ str1 dquote ++ str1 dquote ++ " jar, blue" ++ str1 dquote.
Proof. reflexivity. Qed.

Example escapeCsv_number : escapeCsv (Num (number_of_Z 7001234567890)) = "7001234567890".
Proof. vm_compute. reflexivity. Qed.

Example escapeCsv_falsy :
  map escapeCsv [Undefined; Null; Bool false; Num zero; Num NaN; Str ""]
  = [""; ""; ""; ""; ""; ""].
Proof. reflexivity. Qed.

(** ** The row builder *)

Lemma bind_Ok {A B : Type} (r : result A) (k : A -> result B) (b : B) :
  bind r k = Ok b -> exists a, r = Ok a /\ k a = Ok b.
Proof. destruct r as [a|e]; simpl; [eauto | discriminate]. Qed.

(** When [buildItemFields] returns, the row holds the nineteen constants of
    the source in the order of its array literal. *)
Lemma buildItemFields_Ok (toLowerCase : string -> string)
  (product : Product.t) (variant : Variant.t) (row : list value) :
  buildItemFields toLowerCase product variant = Ok row ->
  exists d a c s m,
    description product = Ok d
    /\ additionalImages product = Ok a
    /\ color toLowerCase product variant = Ok c
    /\ size toLowerCase product variant = Ok s
    /\ material toLowerCase product variant = Ok m
    /\ row = [ variantId product variant; title product variant; Str d;
               Str (link product); imageLink product;
               Str a;
               Str (availability product variant);
               Str (regularPrice variant); Str (salePrice variant);
               brand product; Str "new"; barcode variant;
               Str (identifierExists variant); productType product;
               Product.id product; c; s; m; Str (weight variant) ].
Proof.
  unfold buildItemFields. intros H.
  apply bind_Ok in H as (d & Hd & H).
  apply bind_Ok in H as (a & Ha & H).
  apply bind_Ok in H as (c & Hc & H).
  apply bind_Ok in H as (s & Hs & H).
  apply bind_Ok in H as (m & Hm & H).
  injection H as <-. now exists d, a, c, s, m.
Qed.

(** ** Prices *)

Lemma parseFloat_empty : parseFloat (Str "") = NaN.
Proof. reflexivity. Qed.

Lemma sale_applies_iff (variant : Variant.t) :
  sale_applies variant
  <-> truthy (Variant.compare_at_price variant) = true
      /\ numerically_greater (Variant.compare_at_price variant) (Variant.price variant).
Proof.
  unfold sale_applies, hasSalePrice, numerically_greater.
  rewrite <- (number_ltb_above _ _ (parseFloat_valid _) (parseFloat_valid _)).
  destruct (truthy (Variant.compare_at_price variant)) eqn:T.
  - cbn [truthy]. tauto.
  - rewrite T. split; [discriminate | intros [? _]; discriminate].
Qed.

(** A text with two decimals has a point. *)
Lemma twoDecimals_point (x : number) (text : string) :
  twoDecimals x text -> In "."%char (chars text).
Proof.
  intros (whole & cents & -> & _). unfold chars.
  induction (signText x) as [|c sign IH]; simpl.
  - induction whole as [|c whole IH]; simpl; [now left | now right].
  - now right.
Qed.

(** C2, as the route behaves: the row builder takes the sale branch exactly
    when the compare-at price is present (it counts as true: it is none of
    [undefined], [null], the empty text, [false], 0 and NaN) and, both read
    as numbers by [parseFloat], its value is strictly above the value of
    the price; for a compare-at price that is a text this is exactly when
    it is numerically above the price, and never for a missing or null
    one.  On a sale the sale price gives the price and the regular price
    the compare-at price; without a sale the regular price gives the price
    and the sale price is empty.  An amount is given with its sign, its
    whole part, a point and two digits, the hundredths nearest to it, and
    the currency code after a space, when it is zero or below [10^21] in
    absolute value; an amount that is no number, an infinite one and one
    from [10^21] on are given as the text of the number, without decimals.
    The two texts are the [price] and [sale_price] fields of the row. *)
Theorem price_tier_rule (variant : Variant.t) :
  (sale_applies variant
     <-> truthy (Variant.compare_at_price variant) = true
         /\ numerically_greater (Variant.compare_at_price variant) (Variant.price variant))
  /\ (forall text, Variant.compare_at_price variant = Str text ->
        (sale_applies variant
           <-> numerically_greater (Str text) (Variant.price variant)))
  /\ (Variant.compare_at_price variant = Undefined
        \/ Variant.compare_at_price variant = Null -> ~ sale_applies variant)
  /\ (sale_applies variant ->
        amountField (parseFloat (Variant.price variant)) (salePrice variant)
        /\ amountField (parseFloat (Variant.compare_at_price variant))
             (regularPrice variant))
  /\ (~ sale_applies variant ->
        amountField (parseFloat (Variant.price variant)) (regularPrice variant)
        /\ salePrice variant = "")
  /\ (forall toLowerCase product row,
        buildItemFields toLowerCase product variant = Ok row ->
        column "price" row = Str (regularPrice variant)
        /\ column "sale_price" row = Str (salePrice variant)).
Proof.
  split; [apply sale_applies_iff|].
  split.
  { intros text E. rewrite sale_applies_iff, E.
    split; [tauto | intros G; split; [|exact G]].
    destruct text; [|reflexivity].
    unfold numerically_greater in G. rewrite parseFloat_empty in G.
    contradiction G. }
  split.
  { rewrite sale_applies_iff. intros [E|E]; rewrite E; cbn; intros [? _]; discriminate. }
  unfold salePrice, regularPrice, sale_applies.
  split; [intros ->; split; apply amountField_toFixed |].
  split.
  { intros N. destruct (truthy (hasSalePrice variant)); [now contradiction N|].
    split; [apply amountField_toFixed | reflexivity]. }
  intros toLowerCase product row H.
  apply buildItemFields_Ok in H as (d & a & c & s & m & _ & _ & _ & _ & _ & ->).
  now split.
Qed.

(** Amounts the route does not give with two decimals: on a sale from
    2e21 to 1e21 the two fields read "1e+21 EUR" and "2e+21 EUR", and a
    price that is no number reads "NaN EUR"; none of the three amounts has
    a point.  C2 as stated, which has every price formatted to two
    decimals, fails there. *)
Lemma price_without_decimals :
  sale_applies (variantWithPrices (Str "1e21") (Str "2e21"))
  /\ salePrice (variantWithPrices (Str "1e21") (Str "2e21")) = "1e+21" ++ " EUR"
  /\ regularPrice (variantWithPrices (Str "1e21") (Str "2e21")) = "2e+21" ++ " EUR"
  /\ ~ sale_applies (variantWithPrices (Str "n/a") Null)
  /\ regularPrice (variantWithPrices (Str "n/a") Null) = "NaN" ++ " EUR"
  /\ ~ (exists x, twoDecimals x "1e+21")
  /\ ~ (exists x, twoDecimals x "2e+21")
  /\ ~ (exists x, twoDecimals x "NaN").
Proof.
  split; [vm_compute; reflexivity|].
  split; [vm_compute; reflexivity|].
  split; [vm_compute; reflexivity|].
  split; [vm_compute; discriminate|].
  split; [vm_compute; reflexivity|].
  split; [|split]; intros (x & T); apply twoDecimals_point in T; simpl in T;
    repeat (destruct T as [T|T]; [discriminate T|]); exact T.
Qed.

Example sale_price_of_marked_down_variant :
  regularPrice (variantWithPrices (Str "19.99") (Str "24.99")) = "24.99 EUR"
  /\ salePrice (variantWithPrices (Str "19.99") (Str "24.99")) = "19.99 EUR".
Proof. vm_compute. now split. Qed.

Example no_sale_without_compare_at_price :
  regularPrice (variantWithPrices (Str "19.99") Null) = "19.99 EUR"
  /\ salePrice (variantWithPrices (Str "19.99") Null) = "".
Proof. vm_compute. now split. Qed.

(** The comparison is one of numbers: "9.00" is above "10.00" as a text and
    below it as a number, and gives no sale. *)
Example sale_compares_numbers :
  lexically_greater "9.00" "10.00"
  /\ ~ numerically_greater (Str "9.00") (Str "10.00")
  /\ ~ sale_applies (variantWithPrices (Str "10.00") (Str "9.00"))
  /\ regularPrice (variantWithPrices (Str "10.00") (Str "9.00")) = "10.00 EUR"
  /\ salePrice (variantWithPrices (Str "10.00") (Str "9.00")) = "".
Proof.
  unfold lexically_greater, numerically_greater, above, sale_applies.
  vm_compute. repeat split; discriminate.
Qed.

(** Amounts written without two decimals get them: a price of "5" marked
    down from "24.5" gives "5.00 EUR" and "24.50 EUR", and a price is
    rounded to the nearest hundredth. *)
Example amounts_get_two_decimals :
  regularPrice (variantWithPrices (Str "5") (Str "24.5")) = "24.50 EUR"
  /\ salePrice (variantWithPrices (Str "5") (Str "24.5")) = "5.00 EUR"
  /\ regularPrice (variantWithPrices (Str "19.999") Null) = "20.00 EUR"
  /\ regularPrice (variantWithPrices (Str "0.125") Null) = "0.13 EUR"
  /\ regularPrice (variantWithPrices (Str "-3") Null) = "-3.00 EUR".
Proof. vm_compute. repeat split. Qed.

(** And "100.00" is below "99.50" as a text and above it as a number. *)
Example sale_on_longer_number :
  ~ lexically_greater "100.00" "99.50"
  /\ sale_applies (variantWithPrices (Str "99.50") (Str "100.00"))
  /\ regularPrice (variantWithPrices (Str "99.50") (Str "100.00")) = "100.00 EUR"
  /\ salePrice (variantWithPrices (Str "99.50") (Str "100.00")) = "99.50 EUR".
Proof.
  unfold lexically_greater, sale_applies.
  vm_compute. repeat split; discriminate.
Qed.

(** ** Variant options *)

Section OptionLookup.

Variable toLowerCase : string -> string.

Lemma optionNamed_true (optionName : string) (o : ProductOption.t) :
  named toLowerCase optionName o -> optionNamed toLowerCase optionName o = Ok true.
Proof.
  intros (s & E & L). unfold optionNamed. rewrite E, L.
  unfold string_eqb. now rewrite String.eqb_refl.
Qed.

Lemma optionNamed_false (optionName : string) (o : ProductOption.t) :
  (exists s, ProductOption.name o = Str s) ->
  ~ named toLowerCase optionName o ->
  optionNamed toLowerCase optionName o = Ok false.
Proof.
  intros (s & E) N. unfold optionNamed. rewrite E.
  destruct (string_eqb (toLowerCase s) (toLowerCase optionName)) eqn:B; [|reflexivity].
  apply String.eqb_eq in B. contradiction N. now exists s.
Qed.

Lemma optionNamed_total (optionName : string) (o : ProductOption.t) :
  (exists s, ProductOption.name o = Str s) ->
  exists b, optionNamed toLowerCase optionName o = Ok b.
Proof. intros (s & E). unfold optionNamed. rewrite E. eauto. Qed.

Lemma findM_total (optionName : string) (os : list ProductOption.t) :
  Forall (fun o => exists s, ProductOption.name o = Str s) os ->
  exists r, findM (optionNamed toLowerCase optionName) os = Ok r.
Proof.
  induction 1 as [|o os Ho _ IH]; simpl; [eauto|].
  destruct (optionNamed_total optionName o Ho) as (b & ->). simpl.
  destruct b; eauto.
Qed.

Lemma findM_none (optionName : string) (os : list ProductOption.t) :
  Forall (fun o => exists s, ProductOption.name o = Str s) os ->
  Forall (fun o => ~ named toLowerCase optionName o) os ->
  findM (optionNamed toLowerCase optionName) os = Ok None.
Proof.
  induction 1 as [|o os Ho _ IH]; intros N; [reflexivity|].
  inversion N as [|? ? No Nos]; subst. simpl.
  rewrite (optionNamed_false _ _ Ho No). simpl. now apply IH.
Qed.

Lemma findM_first (optionName : string) (before after : list ProductOption.t)
  (o : ProductOption.t) :
  Forall (fun o => exists s, ProductOption.name o = Str s) before ->
  Forall (fun o' => ~ named toLowerCase optionName o') before ->
  named toLowerCase optionName o ->
  findM (optionNamed toLowerCase optionName) (before ++ o :: after) = Ok (Some o).
Proof.
  induction 1 as [|b before Hb _ IH]; intros N Ho; simpl.
  - now rewrite (optionNamed_true _ _ Ho).
  - inversion N as [|? ? Nb Nbefore]; subst.
    rewrite (optionNamed_false _ _ Hb Nb). simpl. now apply IH.
Qed.

Lemma lookup_total (product : Product.t) (variant : Variant.t) (optionName : string) :
  namedOptions product ->
  exists r, getVariantOptionByName toLowerCase product variant optionName = Ok r.
Proof.
  unfold namedOptions, getVariantOptionByName. destruct (Product.options product) as [os|].
  - intros W. destruct (findM_total optionName os W) as (r & ->). simpl.
    destruct r; eauto.
  - simpl. eauto.
Qed.

Lemma slot_of_position (variant : Variant.t) (k : nat) :
  1 <= k <= 3 ->
  Variant.get variant ("option" ++ to_string (position_number k)) = slot variant k.
Proof.
  intros H.
  assert (k = 1 \/ k = 2 \/ k = 3) as [-> | [-> | ->]] by lia; vm_compute; reflexivity.
Qed.

Lemma chain_two (a : value) (b : result value) (f : value) :
  b = Ok f ->
  or_elseM a (x <- b ;; Ok (or_else x (Str ""))) = Ok (first_non_empty [a; f]).
Proof.
  intros ->. unfold or_elseM, first_non_empty, or_else. simpl.
  destruct (truthy a); [reflexivity|]. now destruct (truthy f).
Qed.

Lemma lookup_no_options (product : Product.t) (variant : Variant.t) (optionName : string) :
  Product.options product = None ->
  getVariantOptionByName toLowerCase product variant optionName = Ok Null.
Proof. intros E. unfold getVariantOptionByName. now rewrite E. Qed.

Lemma color_chain (product : Product.t) (variant : Variant.t) :
  namedOptions product ->
  exists c f,
    getVariantOptionByName toLowerCase product variant "Color" = Ok c
    /\ getVariantOptionByName toLowerCase product variant "Farbe" = Ok f
    /\ color toLowerCase product variant = Ok (first_non_empty [c; f]).
Proof.
  intros W.
  destruct (lookup_total product variant "Color" W) as (c & Hc).
  destruct (lookup_total product variant "Farbe" W) as (f & Hf).
  exists c, f. repeat split; trivial.
  unfold color. rewrite Hc. cbn [bind]. now apply chain_two.
Qed.

Lemma size_chain (product : Product.t) (variant : Variant.t) :
  namedOptions product ->
  exists s g,
    getVariantOptionByName toLowerCase product variant "Size" = Ok s
    /\ getVariantOptionByName toLowerCase product variant "Größe" = Ok g
    /\ size toLowerCase product variant = Ok (first_non_empty [s; g]).
Proof.
  intros W.
  destruct (lookup_total product variant "Size" W) as (s & Hs).
  destruct (lookup_total product variant "Größe" W) as (g & Hg).
  exists s, g. repeat split; trivial.
  unfold size. rewrite Hs. cbn [bind]. now apply chain_two.
Qed.

Lemma material_chain (product : Product.t) (variant : Variant.t) :
  namedOptions product ->
  exists m,
    getVariantOptionByName toLowerCase product variant "Material" = Ok m
    /\ material toLowerCase product variant = Ok (first_non_empty [m]).
Proof.
  intros W.
  destruct (lookup_total product variant "Material" W) as (m & Hm).
  exists m. split; trivial.
  unfold material. rewrite Hm. cbn [bind]. unfold first_non_empty, or_else. simpl.
  now destruct (truthy m).
Qed.

(** C6, as the route behaves: with options that all have a text for a
    name, the lookup of [optionName]
    yields [null] when no option of the product has that name, letter case
    apart; when [o] is the first option that has, and its position is 1, 2
    or 3, it yields the variant's [option1], [option2] or [option3], or
    [null] when that slot is empty.  The colour of the row is the first
    non-empty of the lookups of "Color" and "Farbe", its size the first
    non-empty of those of "Size" and "Größe", its material the lookup of
    "Material", each empty when the lookups are. *)
Theorem option_lookup_rule (product : Product.t) (variant : Variant.t) :
  namedOptions product ->
  (forall optionName,
     (none_named toLowerCase optionName product ->
        getVariantOptionByName toLowerCase product variant optionName = Ok Null)
     /\ (forall o k,
           first_named toLowerCase optionName product o ->
           ProductOption.position o = position_number k ->
           1 <= k <= 3 ->
           getVariantOptionByName toLowerCase product variant optionName
           = Ok (if truthy (slot variant k) then slot variant k else Null)))
  /\ (exists c f,
        getVariantOptionByName toLowerCase product variant "Color" = Ok c
        /\ getVariantOptionByName toLowerCase product variant "Farbe" = Ok f
        /\ color toLowerCase product variant = Ok (first_non_empty [c; f]))
  /\ (exists s g,
        getVariantOptionByName toLowerCase product variant "Size" = Ok s
        /\ getVariantOptionByName toLowerCase product variant "Größe" = Ok g
        /\ size toLowerCase product variant = Ok (first_non_empty [s; g]))
  /\ (exists m,
        getVariantOptionByName toLowerCase product variant "Material" = Ok m
        /\ material toLowerCase product variant = Ok (first_non_empty [m]))
  /\ (forall row,
        buildItemFields toLowerCase product variant = Ok row ->
        color toLowerCase product variant = Ok (column "color" row)
        /\ size toLowerCase product variant = Ok (column "size" row)
        /\ material toLowerCase product variant = Ok (column "material" row)).
Proof.
  intros W. split; [|split; [|split; [|split]]].
  - intros optionName. split.
    + unfold none_named, getVariantOptionByName. unfold namedOptions in W.
      destruct (Product.options product) as [os|]; [|reflexivity].
      intros N. now rewrite (findM_none optionName os W N).
    + intros o k (before & after & E & N & Ho) P K.
      unfold getVariantOptionByName. unfold namedOptions in W. rewrite E in *.
      apply Forall_app in W as [Wb _].
      rewrite (findM_first optionName before after o Wb N Ho). cbn [bind].
      rewrite P, (slot_of_position variant k K). reflexivity.
  - now apply color_chain.
  - now apply size_chain.
  - now apply material_chain.
  - intros row H.
    apply buildItemFields_Ok in H as (d & a & c & s & m & _ & _ & Hc & Hs & Hm & ->).
    now rewrite Hc, Hs, Hm.
Qed.

End OptionLookup.

Lemma lotion_namedOptions : namedOptions lotion.
Proof.
  unfold namedOptions, lotion; cbn [Product.options].
  repeat (constructor; [eexists; reflexivity|]). constructor.
Qed.

(** The rule at the lotion, whose colour is found under the German name. *)
Lemma option_lookup_rule_lotion :
  namedOptions lotion
  /\ color asciiLower lotion redVariant = Ok (Str "Rot")
  /\ size asciiLower lotion redVariant = Ok (Str "M")
  /\ material asciiLower lotion redVariant = Ok (Str "").
Proof.
  split; [exact lotion_namedOptions|].
  destruct (option_lookup_rule asciiLower lotion redVariant lotion_namedOptions)
    as (_ & (c & f & Hc & Hf & Ec) & (s & g & Hs & Hg & Es) & (m & Hm & Em) & _).
  vm_compute in Hc, Hf, Hs, Hg, Hm.
  injection Hc as <-. injection Hf as <-. injection Hs as <-. injection Hg as <-.
  injection Hm as <-.
  repeat split; assumption.
Defined.

(** A product with an option that has no name, and none named
    "Material": the lookup of the material throws, and with it the row
    builder, where C6 as stated yields an empty value when no option
    matches. *)
Lemma lookup_throws_without_match :
  none_named asciiLower "Material" lotionWithUnnamedOption
  /\ getVariantOptionByName asciiLower lotionWithUnnamedOption redVariant "Material"
     = Throw (TypeError "Cannot read properties of undefined (reading 'toLowerCase')")
  /\ getVariantOptionByName asciiLower lotionWithUnnamedOption redVariant "Material"
     <> Ok Null
  /\ buildItemRow asciiLower lotionWithUnnamedOption redVariant
     = Throw (TypeError "Cannot read properties of undefined (reading 'toLowerCase')").
Proof.
  split.
  { unfold none_named. cbn [lotionWithUnnamedOption Product.options].
    repeat (apply Forall_cons;
            [ intros (s & E & L);
              first [ discriminate E
                    | injection E as <-; vm_compute in L; discriminate L ] |]).
    apply Forall_nil. }
  split; [vm_compute; reflexivity|].
  split; [vm_compute; discriminate | vm_compute; reflexivity].
Qed.

(** ** Missing fields *)

Lemma number_ltb_NaN_l (a : number) : number_ltb NaN a = false.
Proof. reflexivity. Qed.

Lemma missing_falsy (v : value) : missing v -> truthy v = false.
Proof. now intros [-> | ->]. Qed.

Lemma stripHtml_total (product : Product.t) :
  textualDescription product -> exists d, description product = Ok d.
Proof.
  unfold description, stripHtml. intros [F | (s & E)].
  - rewrite F. simpl. eauto.
  - rewrite E. destruct (negb (truthy (Str s))); eauto.
Qed.

Lemma mapM_imageSrc_total (imgs : list Image.entry) :
  Forall (fun e => exists img, e = Image.Object img) imgs ->
  mapM imageSrc imgs = Ok (map (fun e => match e with
                                         | Image.Object img => Image.src img
                                         | _ => Undefined
                                         end) imgs).
Proof.
  induction 1 as [|e rest (img & ->) _ IH]; [reflexivity|].
  cbn [mapM imageSrc bind map]. rewrite IH. reflexivity.
Qed.

Lemma additionalImages_total (product : Product.t) :
  imageObjects product -> exists a, additionalImages product = Ok a.
Proof.
  unfold imageObjects, additionalImages. intros O.
  destruct (Product.images product) as [imgs|].
  - rewrite (mapM_imageSrc_total _ O). cbn [bind]. eauto.
  - cbn. eauto.
Qed.

(** A [null] or an [undefined] among the additional images makes the row
    builder throw. *)
Lemma additionalImages_throws (product : Product.t) (imgs : list Image.entry) :
  Product.images product = Some imgs ->
  ~ Forall (fun e => exists img, e = Image.Object img) (tl imgs) ->
  exists m, additionalImages product = Throw (TypeError m).
Proof.
  unfold additionalImages. intros -> N.
  induction (tl imgs) as [|e rest IH].
  - contradiction N. constructor.
  - destruct e as [img| |]; cbn [mapM imageSrc bind]; eauto.
    destruct IH as (m & E).
    + intros F. apply N. constructor; [now exists img | exact F].
    + destruct (mapM imageSrc rest); [discriminate|].
      cbn [bind] in E |- *. eauto.
Qed.

Lemma buildItemFields_total (toLowerCase : string -> string)
  (product : Product.t) (variant : Variant.t) :
  namedOptions product -> textualDescription product -> imageObjects product ->
  exists row, buildItemFields toLowerCase product variant = Ok row.
Proof.
  intros W T O. unfold buildItemFields.
  destruct (stripHtml_total product T) as (d & ->).
  destruct (additionalImages_total product O) as (a & ->).
  destruct (color_chain toLowerCase product variant W) as (c & f & _ & _ & ->).
  destruct (size_chain toLowerCase product variant W) as (s & g & _ & _ & ->).
  destruct (material_chain toLowerCase product variant W) as (m & _ & ->).
  simpl. eauto.
Qed.

Lemma missing_price_regular (variant : Variant.t) :
  missing (Variant.price variant) ->
  regularPrice variant = "NaN EUR" /\ salePrice variant = "".
Proof.
  intros M. unfold regularPrice, salePrice, hasSalePrice.
  assert (parseFloat (Variant.price variant) = NaN) as ->
    by (destruct M as [-> | ->]; reflexivity).
  rewrite number_ltb_NaN_l.
  destruct (truthy (Variant.compare_at_price variant)) eqn:T; [|rewrite T]; now split.
Qed.

(** A variant without a price gets a row whose price field reads
    "NaN EUR": C7 as stated, which gives every field of a row with a
    missing source field its empty or default value, fails for the price. *)
Lemma missing_price_not_defaulted :
  missing (Variant.price noVariant)
  /\ exists row,
       buildItemFields asciiLower noProduct noVariant = Ok row
       /\ column "price" row = Str "NaN EUR"
       /\ column "price" row <> Str "".
Proof.
  split; [now left|].
  eexists. split; [reflexivity|]. split; [reflexivity | discriminate].
Qed.

(** C7, as the route behaves: for a product whose options all have a name,
    whose description is a text or counts as false, and whose images after
    the first are image objects, row construction
    returns a row, whichever of the other fields are missing.  In that row
    missing images give an empty image link and no additional images,
    missing options an empty colour, size and material, a missing barcode
    an empty gtin and "false" as identifier_exists, a missing weight an
    empty shipping weight, a missing vendor, product type or description
    an empty field, a missing SKU the identifier made of the product's and
    the variant's ids, and a missing compare-at price an empty sale price
    beside the price itself.  A missing price is not replaced: the price
    field then reads "NaN EUR". *)
Theorem missing_fields_rule (toLowerCase : string -> string)
  (product : Product.t) (variant : Variant.t) :
  namedOptions product ->
  textualDescription product ->
  imageObjects product ->
  exists row,
    buildItemFields toLowerCase product variant = Ok row
    /\ (exists line, buildItemRow toLowerCase product variant = Ok line)
    /\ (Product.images product = None ->
          column "image_link" row = Str ""
          /\ column "additional_image_link" row = Str "")
    /\ (Product.options product = None ->
          column "color" row = Str ""
          /\ column "size" row = Str ""
          /\ column "material" row = Str "")
    /\ (missing (Variant.barcode variant) ->
          column "gtin" row = Str ""
          /\ column "identifier_exists" row = Str "false")
    /\ (missing (Variant.weight variant) -> column "shipping_weight" row = Str "")
    /\ (missing (Product.vendor product) -> column "brand" row = Str "")
    /\ (missing (Product.product_type product) -> column "product_type" row = Str "")
    /\ (missing (Product.body_html product) -> column "description" row = Str "")
    /\ (missing (Variant.sku variant) ->
          column "id" row
          = Str ("shopify_" ++ to_string (Product.id product) ++ "_"
                 ++ to_string (Variant.id variant)))
    /\ (missing (Variant.compare_at_price variant) ->
          column "sale_price" row = Str ""
          /\ column "price" row = Str (formatted (Variant.price variant)))
    /\ (missing (Variant.price variant) ->
          column "price" row = Str "NaN EUR"
          /\ column "sale_price" row = Str "").
Proof.
  intros W T O.
  destruct (buildItemFields_total toLowerCase product variant W T O) as (row & H).
  exists row. split; [exact H|].
  split; [unfold buildItemRow; rewrite H; simpl; eauto|].
  apply buildItemFields_Ok in H as (d & a & c & s & m & Hd & Ha & Hc & Hs & Hm & ->).
  repeat match goal with |- _ /\ _ => split end.
  - intros E. unfold additionalImages in Ha. rewrite E in Ha.
    cbn in Ha. injection Ha as <-.
    unfold column, imageLink. simpl. now rewrite E.
  - intros E. unfold column. simpl.
    unfold color in Hc. unfold size in Hs. unfold material in Hm.
    rewrite !(lookup_no_options toLowerCase product variant _ E) in Hc.
    rewrite !(lookup_no_options toLowerCase product variant _ E) in Hs.
    rewrite !(lookup_no_options toLowerCase product variant _ E) in Hm.
    cbn in Hc, Hs, Hm. injection Hc as <-. injection Hs as <-. injection Hm as <-.
    now repeat split.
  - intros M. unfold column, identifierExists, barcode, or_else. simpl.
    now rewrite (missing_falsy _ M).
  - intros M. unfold column, weight. simpl. now rewrite (missing_falsy _ M).
  - intros M. unfold column, brand, or_else. simpl. now rewrite (missing_falsy _ M).
  - intros M. unfold column, productType, or_else. simpl. now rewrite (missing_falsy _ M).
  - intros M. unfold column. simpl. f_equal.
    unfold description, stripHtml in Hd. rewrite (missing_falsy _ M) in Hd.
    simpl in Hd. now injection Hd as <-.
  - intros M. unfold column, variantId, or_else. simpl. now rewrite (missing_falsy _ M).
  - intros M. unfold column, salePrice, regularPrice, hasSalePrice, formatted. simpl.
    rewrite (missing_falsy _ M). destruct M as [-> | ->]; now split.
  - intros M. unfold column. simpl.
    destruct (missing_price_regular variant M) as [-> ->]. now split.
Qed.

(** The rule at the product and the variant that have no property. *)
Lemma missing_fields_rule_nothing :
  namedOptions noProduct /\ textualDescription noProduct /\ imageObjects noProduct
  /\ exists row, buildItemFields asciiLower noProduct noVariant = Ok row.
Proof.
  assert (namedOptions noProduct) as W by exact I.
  assert (textualDescription noProduct) as T by (left; reflexivity).
  assert (imageObjects noProduct) as O by exact I.
  split; [exact W|]. split; [exact T|]. split; [exact O|].
  destruct (missing_fields_rule asciiLower noProduct noVariant W T O) as (row & H & _).
  now exists row.
Defined.

(** A [null] in the place of the second image makes the row builder
    throw; in the place of the first it gives an empty image link. *)
Example null_among_additional_images :
  namedOptions lotionWithNullImage
  /\ textualDescription lotionWithNullImage
  /\ ~ imageObjects lotionWithNullImage
  /\ buildItemRow asciiLower lotionWithNullImage redVariant
     = Throw (TypeError "Cannot read properties of null (reading 'src')").
Proof.
  split; [exact lotion_namedOptions|]. split; [right; now eexists|].
  split; [|vm_compute; reflexivity].
  intros O. inversion O as [|? ? (img & E) _]. discriminate E.
Qed.

Example null_first_image :
  imageObjects lotionWithoutFirstImage
  /\ imageLink lotionWithoutFirstImage = Str ""
  /\ additionalImages lotionWithoutFirstImage = Ok "https://cdn.example/2.png".
Proof.
  split; [|split; reflexivity].
  repeat (constructor; [now eexists|]). constructor.
Qed.

Example row_of_nothing :
  buildItemRow asciiLower noProduct noVariant
  = Ok "shopify_undefined_undefined,undefined - undefined,,https://lunaglow.de/products/undefined,,,out_of_stock,NaN EUR,,,new,,false,,,,,,".
Proof. reflexivity. Qed.

(** ** The document *)

Lemma append_assoc (a b c : string) : (a ++ b) ++ c = a ++ b ++ c.
Proof. induction a as [|x a IH]; simpl; [reflexivity | now rewrite IH]. Qed.

Lemma append_empty_r (a : string) : a ++ "" = a.
Proof. induction a as [|x a IH]; simpl; [reflexivity | now rewrite IH]. Qed.

Lemma concat_newline (first : string) (rows : list string) :
  String.concat (str1 newline) (first :: rows) = first ++ linesAfter rows.
Proof.
  revert first. induction rows as [|r rows IH]; intros first.
  - simpl. now rewrite append_empty_r.
  - change (String.concat (str1 newline) (first :: r :: rows))
      with (first ++ str1 newline ++ String.concat (str1 newline) (r :: rows)).
    rewrite IH. reflexivity.
Qed.

Lemma concat_comma (first : string) (fields : list string) :
  String.concat "," (first :: fields) = first ++ fieldsAfter fields.
Proof.
  revert first. induction fields as [|f fields IH]; intros first.
  - simpl. now rewrite append_empty_r.
  - change (String.concat "," (first :: f :: fields))
      with (first ++ "," ++ String.concat "," (f :: fields)).
    rewrite IH. reflexivity.
Qed.

(** C8: the document is the header line followed by the rows, each after
    one line feed and none after the last; the header line is the nineteen
    column names [id] to [shipping_weight] with a comma between two of
    them; a row is its nineteen escaped fields with a comma between two of
    them, and the field under each column name is the constant of that
    name. *)
Theorem document_layout :
  CSV_HEADERS
  = [ "id"; "title"; "description"; "link"; "image_link";
      "additional_image_link"; "availability"; "price"; "sale_price"; "brand";
      "condition"; "gtin"; "identifier_exists"; "product_type";
      "item_group_id"; "color"; "size"; "material"; "shipping_weight" ]
  /\ List.length CSV_HEADERS = 19
  /\ (forall rows,
        feedCsv rows
        = "id,title,description,link,image_link,additional_image_link,availability,price,sale_price,brand,condition,gtin,identifier_exists,product_type,item_group_id,color,size,material,shipping_weight"
          ++ linesAfter rows)
  /\ (forall toLowerCase product variant row,
        buildItemFields toLowerCase product variant = Ok row ->
        List.length row = 19
        /\ (exists first rest,
              map escapeCsv row = first :: rest
              /\ buildItemRow toLowerCase product variant
                 = Ok (first ++ fieldsAfter rest))
        /\ map (fun name => column name row) CSV_HEADERS = row
        /\ column "id" row = variantId product variant
        /\ column "title" row = title product variant
        /\ description product
           = Ok (to_string (column "description" row))
        /\ column "link" row = Str (link product)
        /\ column "image_link" row = imageLink product
        /\ (exists images,
              additionalImages product = Ok images
              /\ column "additional_image_link" row = Str images)
        /\ column "availability" row
           = Str (getAvailability variant (Product.status product))
        /\ column "price" row = Str (regularPrice variant)
        /\ column "sale_price" row = Str (salePrice variant)
        /\ column "brand" row = brand product
        /\ column "condition" row = Str "new"
        /\ column "gtin" row = barcode variant
        /\ column "identifier_exists" row = Str (identifierExists variant)
        /\ column "product_type" row = productType product
        /\ column "item_group_id" row = Product.id product
        /\ color toLowerCase product variant = Ok (column "color" row)
        /\ size toLowerCase product variant = Ok (column "size" row)
        /\ material toLowerCase product variant = Ok (column "material" row)
        /\ column "shipping_weight" row = Str (weight variant)).
Proof.
  split; [reflexivity|]. split; [reflexivity|]. split.
  - intros rows. unfold feedCsv. now rewrite concat_newline.
  - intros toLowerCase product variant row H.
    assert (buildItemRow toLowerCase product variant
            = Ok (String.concat "," (map escapeCsv row))) as R
      by (unfold buildItemRow; now rewrite H).
    apply buildItemFields_Ok in H as (d & a & c & s & m & Hd & Ha & Hc & Hs & Hm & ->).
    split; [reflexivity|]. split.
    { eexists _, _. split; [reflexivity|]. rewrite R. f_equal. apply concat_comma. }
    rewrite Hd, Hc, Hs, Hm. unfold column, availability.
    repeat split; try reflexivity. now exists a.
Qed.

Example document_of_two_rows :
  feedCsv ["a,b"; "c,d"]
  = "id,title,description,link,image_link,additional_image_link,availability,price,sale_price,brand,condition,gtin,identifier_exists,product_type,item_group_id,color,size,material,shipping_weight"
    ++ str1 newline ++ "a,b" ++ str1 newline ++ "c,d".
Proof. reflexivity. Qed.

Example document_without_rows :
  feedCsv []
  = "id,title,description,link,image_link,additional_image_link,availability,price,sale_price,brand,condition,gtin,identifier_exists,product_type,item_group_id,color,size,material,shipping_weight".
Proof. reflexivity. Qed.

Example row_of_lotion :
  buildItemRow asciiLower lotion redVariant
  = Ok ("shopify_7001234567890_42,Lotion - Rot / M,Soft and light,https://lunaglow.de/products/lotion,https://cdn.example/1.png,"
        ++ str1 dquote ++ "https://cdn.example/2.png,https://cdn.example/3.png"
        ++ str1 dquote
        ++ ",in_stock,24.99 EUR,19.99 EUR,Acme,new,,false,,7001234567890,Rot,M,,0.25 kg").
Proof. vm_compute. reflexivity. Qed.

(** ** The rows of the feed *)

Lemma isActive_active (p : Product.t) : isActive p = true <-> active p.
Proof.
  unfold isActive, active. destruct (Product.status p); split; try discriminate.
  - intros H. apply String.eqb_eq in H. now subst.
  - intros H. injection H as ->. reflexivity.
Qed.

Lemma strict_eq_active (p : Product.t) :
  strict_eq (Product.status p) (Str "active") = isActive p.
Proof. unfold isActive. now destruct (Product.status p). Qed.

Lemma mapM_Forall2 {A B : Type} (f : A -> result B) (l : list A) (r : list B) :
  mapM f l = Ok r <-> Forall2 (fun a b => f a = Ok b) l r.
Proof.
  revert r. induction l as [|a l IH]; intros r; simpl.
  - split.
    + intros H. injection H as <-. constructor.
    + intros H. now inversion H.
  - split.
    + intros H. apply bind_Ok in H as (b & Hb & H).
      apply bind_Ok in H as (bs & Hbs & H). injection H as <-.
      constructor; [exact Hb | now apply IH].
    + intros H. inversion H as [|? b ? bs Hb Hbs]; subst.
      rewrite Hb. simpl. apply IH in Hbs. now rewrite Hbs.
Qed.

Section FeedRows.

Variable toLowerCase : string -> string.

Lemma feedRows_inactive (p : Product.t) (ps : list Product.t) :
  ~ active p -> feedRows toLowerCase (p :: ps) = feedRows toLowerCase ps.
Proof.
  intros N. unfold feedRows. simpl. rewrite strict_eq_active.
  destruct (isActive p) eqn:E; [|reflexivity].
  apply isActive_active in E. contradiction.
Qed.

Lemma feedRows_active (p : Product.t) (ps : list Product.t) :
  active p ->
  feedRows toLowerCase (p :: ps)
  = (lines <- match Product.variants p with
              | Some variants => mapM (buildItemRow toLowerCase p) variants
              | None => Throw (TypeError "Cannot read properties of undefined (reading 'map')")
              end ;;
     rows <- feedRows toLowerCase ps ;;
     Ok (lines ++ rows)%list).
Proof.
  intros Ha. unfold feedRows. simpl. rewrite strict_eq_active.
  apply isActive_active in Ha. now rewrite Ha.
Qed.

Lemma feedRows_skips (before after : list Product.t) (p : Product.t) :
  ~ active p ->
  feedRows toLowerCase (before ++ p :: after) = feedRows toLowerCase (before ++ after).
Proof.
  intros N. unfold feedRows. rewrite !filter_app. simpl. rewrite strict_eq_active.
  destruct (isActive p) eqn:E; [|reflexivity].
  apply isActive_active in E. contradiction.
Qed.

Lemma feedRows_rowsOf (products : list Product.t) (rows : list string) :
  feedRows toLowerCase products = Ok rows <-> rowsOf toLowerCase products rows.
Proof.
  revert rows. induction products as [|p ps IH]; intros rows.
  - split.
    + intros H. cbv in H. injection H as <-. constructor.
    + intros H. now inversion H.
  - destruct (isActive p) eqn:E.
    + apply isActive_active in E. rewrite (feedRows_active p ps E). split.
      * intros H. apply bind_Ok in H as (lines & Hl & H).
        apply bind_Ok in H as (rest & Hr & H). injection H as <-.
        destruct (Product.variants p) as [vs|] eqn:V; [|discriminate].
        apply (rowsOf_active _ p ps vs); trivial.
        -- now apply mapM_Forall2.
        -- now apply IH.
      * intros H. inversion H as [| ? ? ? N | ? ? vs lines rest _ V F R]; subst.
        -- contradiction.
        -- rewrite V. apply mapM_Forall2 in F. rewrite F. cbn [bind].
           apply IH in R. now rewrite R.
    + assert (~ active p) as N by (rewrite <- isActive_active; congruence).
      rewrite (feedRows_inactive p ps N). rewrite IH. split.
      * intros H. now constructor.
      * intros H. inversion H; subst; [assumption | contradiction].
Qed.

Lemma rowsOf_length (products : list Product.t) (rows : list string) :
  rowsOf toLowerCase products rows -> List.length rows = activeVariantCount products.
Proof.
  unfold activeVariantCount.
  induction 1 as [| p ps rows N _ IH | p ps vs lines rows Ha V F _ IH]; simpl.
  - reflexivity.
  - destruct (isActive p) eqn:E; [apply isActive_active in E; contradiction | exact IH].
  - apply isActive_active in Ha. rewrite Ha. unfold variantCount. rewrite V.
    rewrite length_app, IH. f_equal. symmetry. exact (Forall2_length F).
Qed.

Lemma buildItemRow_total (p : Product.t) (v : Variant.t) :
  namedOptions p -> textualDescription p -> imageObjects p ->
  exists line, buildItemRow toLowerCase p v = Ok line.
Proof.
  intros W T O. destruct (buildItemFields_total toLowerCase p v W T O) as (row & H).
  unfold buildItemRow. rewrite H. simpl. eauto.
Qed.

Lemma mapM_buildItemRow_total (p : Product.t) (vs : list Variant.t) :
  namedOptions p -> textualDescription p -> imageObjects p ->
  exists lines, mapM (buildItemRow toLowerCase p) vs = Ok lines.
Proof.
  intros W T O. induction vs as [|v vs (lines & IH)]; simpl; [eauto|].
  destruct (buildItemRow_total p v W T O) as (line & ->). rewrite IH. simpl. eauto.
Qed.

Lemma feedRows_total (products : list Product.t) :
  Forall (fun p => active p -> wellFormed p) products ->
  exists rows, feedRows toLowerCase products = Ok rows.
Proof.
  induction 1 as [|p ps Hp _ (rows & IH)]; [cbv; eauto|].
  destruct (isActive p) eqn:E.
  - apply isActive_active in E. rewrite (feedRows_active p ps E).
    destruct (Hp E) as (W & T & O & V).
    destruct (Product.variants p) as [vs|]; [|congruence].
    destruct (mapM_buildItemRow_total p vs W T O) as (lines & ->).
    rewrite IH. simpl. eauto.
  - assert (~ active p) as N by (rewrite <- isActive_active; congruence).
    rewrite (feedRows_inactive p ps N). eauto.
Qed.

(** C4: for products whose active ones are well formed the feed has rows,
    and they are one row for each variant of each active product, in the
    order of the products and then of the variants; their number is the
    number of variants of the active products, and a product that is not
    active can be taken out of the list without changing the rows. *)
Theorem feed_rows_rule (products : list Product.t) :
  Forall (fun p => active p -> wellFormed p) products ->
  (exists rows,
     feedRows toLowerCase products = Ok rows
     /\ rowsOf toLowerCase products rows
     /\ List.length rows = activeVariantCount products)
  /\ (forall rows,
        feedRows toLowerCase products = Ok rows <-> rowsOf toLowerCase products rows)
  /\ (forall before p after,
        products = (before ++ p :: after)%list ->
        ~ active p ->
        feedRows toLowerCase products = feedRows toLowerCase (before ++ after)).
Proof.
  intros W. split; [|split].
  - destruct (feedRows_total products W) as (rows & H).
    exists rows. split; [exact H|].
    apply feedRows_rowsOf in H. split; [exact H | now apply rowsOf_length].
  - intros rows. apply feedRows_rowsOf.
  - intros before p after -> N. now apply feedRows_skips.
Qed.

End FeedRows.

Lemma lotion_wellFormed : wellFormed lotion.
Proof.
  split; [exact lotion_namedOptions|]. split; [right; now eexists|].
  split; [|discriminate].
  repeat (constructor; [now eexists|]). constructor.
Qed.

(** The rule at the draft of three variants followed by the lotion: the
    feed has the one row of the lotion. *)
Lemma feed_rows_rule_draft_and_lotion :
  Forall (fun p => active p -> wellFormed p) [draft; lotion]
  /\ exists rows,
       feedRows asciiLower [draft; lotion] = Ok rows
       /\ List.length rows = 1
       /\ feedRows asciiLower [draft; lotion] = feedRows asciiLower [lotion].
Proof.
  assert (Forall (fun p => active p -> wellFormed p) [draft; lotion]) as W.
  { constructor; [intros H; discriminate H|].
    constructor; [intros _; exact lotion_wellFormed | constructor]. }
  split; [exact W|].
  destruct (feed_rows_rule asciiLower [draft; lotion] W) as ((rows & H & _ & L) & _ & S).
  exists rows. split; [exact H|]. split; [exact L|].
  apply (S [] draft [lotion]); [reflexivity | discriminate].
Defined.

(** ** The page fetcher *)

Section FetcherFacts.

Variable St : Type.
Variable get : Params -> St -> result RestResponse * St.

Lemma fetchLoop_stops (fuel : nat) (response : RestResponse)
  (products : list Product.t) (st : St) (sent : list Params) :
  nextPageOf response = None ->
  fetchLoop St get fuel response products st sent
  = Some {| returned := Ok products; source := st; requests := sent |}.
Proof. intros E. destruct fuel; simpl; now rewrite E. Qed.

Lemma fetchLoop_follows (st st' : St) (response : RestResponse)
  (pages : list (list Product.t)) (sent : list Params) :
  follows St get st response pages st' sent ->
  forall fuel products sent0,
    List.length pages <= fuel ->
    fetchLoop St get fuel response products st sent0
    = Some {| returned := Ok (products ++ List.concat pages)%list;
              source := st';
              requests := (sent0 ++ sent)%list |}.
Proof.
  induction 1 as [st response E | st st' st'' response response' next pages sent E G _ IH];
    intros fuel products sent0 L.
  - rewrite (fetchLoop_stops _ _ _ _ _ E). simpl. now rewrite !app_nil_r.
  - destruct fuel as [|fuel]; [simpl in L; lia|].
    simpl. rewrite E. fold (nextParams next). rewrite G.
    rewrite IH by (simpl in L; lia).
    now rewrite <- !app_assoc.
Qed.




Lemma fetchLoop_endless (fuel : nat) :
  endless St get ->
  forall response products st sent,
    nextPageOf response <> None ->
    fetchLoop St get fuel response products st sent = None.
Proof.
  intros E. induction fuel as [|fuel IH]; intros response products st sent N; simpl.
  - destruct (nextPageOf response); [reflexivity | contradiction].
  - destruct (nextPageOf response) as [next|]; [|contradiction].
    destruct (E {| path := "products.json"; query := query next |} st)
      as (response' & st' & -> & N').
    now apply IH.
Qed.

Lemma fetchLoop_returns (fuel : nat) :
  forall response products st sent0 out found,
    fetchLoop St get fuel response products st sent0 = Some out ->
    returned out = Ok found ->
    exists pages sent,
      follows St get st response pages (source out) sent
      /\ found = (products ++ List.concat pages)%list
      /\ requests out = (sent0 ++ sent)%list.
Proof.
  induction fuel as [|fuel IH]; intros response products st sent0 out found H R;
    simpl in H; destruct (nextPageOf response) as [next|] eqn:E; try discriminate.
  - injection H as <-. simpl in R. injection R as <-.
    exists [], []. simpl. rewrite !app_nil_r. repeat split. now constructor.
  - fold (nextParams next) in H.
    destruct (get (nextParams next) st) as [[response'|e] st'] eqn:G.
    + destruct (IH _ _ _ _ _ _ H R) as (pages & sent & F & -> & ->).
      exists (body_products response' :: pages), (nextParams next :: sent).
      split; [now apply (follows_next St get st st' (source out) response response')|].
      simpl. now rewrite <- !app_assoc.
    + injection H as <-. discriminate R.
  - injection H as <-. simpl in R. injection R as <-.
    exists [], []. simpl. rewrite !app_nil_r. repeat split. now constructor.
Qed.

(** C9, as the route is written: the loop ends at a response that
    announces no next page, without a further request; when the fetcher
    returns products, the source has served its pages up to one that
    announces none.  The loop counts no iterations: against a source whose
    every response announces a next page the fetcher has not returned, and
    has thrown nothing, after any number of iterations. *)
Theorem fetchAllProducts_unbounded :
  (forall fuel response products st sent,
     nextPageOf response = None ->
     fetchLoop St get fuel response products st sent
     = Some {| returned := Ok products; source := st; requests := sent |})
  /\ (forall fuel st out found,
        fetchAllProducts St get fuel st = Some out ->
        returned out = Ok found ->
        exists pages,
          serves St get st pages (source out) (requests out)
          /\ found = List.concat pages)
  /\ (endless St get -> forall fuel st, fetchAllProducts St get fuel st = None).
Proof.
  split; [|split].
  - intros. now apply fetchLoop_stops.
  - intros fuel st out found H R. unfold fetchAllProducts in H.
    destruct (get firstParams st) as [[response|e] st1] eqn:G.
    + destruct (fetchLoop_returns _ _ _ _ _ _ _ H R) as (pages & sent & F & -> & S).
      exists (body_products response :: pages). split; [|reflexivity].
      exists response, st1, pages, sent. now repeat split.
    + injection H as <-. discriminate R.
  - intros E fuel st. unfold fetchAllProducts.
    destruct (E firstParams st) as (response & st' & -> & N).
    now apply fetchLoop_endless.
Qed.

End FetcherFacts.

Lemma twoPages_serves :
  serves nat twoPages 0 [[lotion; lotion]; [draft]] 2
    [firstParams; {| path := "products.json"; query := [("page_info", "second")] |}].
Proof.
  eexists _, _, _, _. split; [reflexivity|]. split; [|split; reflexivity].
  apply (follows_next nat twoPages 1 2 2 _
           {| body_products := [draft]; pageInfo := Some {| nextPage := None |} |}
           {| path := "products.json"; query := [("page_info", "second")] |} [] []);
    [reflexivity | reflexivity |].
  now constructor.
Qed.


Lemma alwaysMore_endless : endless unit alwaysMore.
Proof. intros params st. eexists _, _. split; [reflexivity | discriminate]. Qed.

(** Against the source that always announces a next page the fetcher
    returns for no number of iterations: C9 as stated, which has it stop at
    a cap and report a source error, fails there. *)
Lemma fetchAllProducts_never_returns :
  ~ exists fuel out, fetchAllProducts unit alwaysMore fuel tt = Some out.
Proof.
  intros (fuel & out & H).
  unfold fetchAllProducts in H. simpl in H.
  rewrite (fetchLoop_endless unit alwaysMore fuel alwaysMore_endless) in H;
    [discriminate | discriminate].
Qed.

(** The rule at that source. *)
Lemma fetchAllProducts_unbounded_alwaysMore :
  endless unit alwaysMore /\ fetchAllProducts unit alwaysMore 1000 tt = None.
Proof.
  split; [exact alwaysMore_endless|].
  exact (proj2 (proj2 (fetchAllProducts_unbounded unit alwaysMore))
           alwaysMore_endless 1000 tt).
Defined.

(** ** Reading a row back *)

Lemma append_str1 (a : string) (c : ascii) (t : string) :
  (a ++ str1 c) ++ t = a ++ String c t.
Proof. now rewrite append_assoc. Qed.

Lemma parse_unquoted_run (t : string) :
  ~ In comma (chars t) -> ~ In newline (chars t) ->
  forall field tail,
    parseCsvFrom (Unquoted field) (t ++ tail)
    = parseCsvFrom (Unquoted (field ++ t)) tail.
Proof.
  unfold chars. induction t as [|c t IH]; intros Nc Nn field tail.
  - now rewrite append_empty_r.
  - simpl in Nc, Nn. cbn [append parseCsvFrom].
    destruct (Ascii.eqb_spec c comma) as [->|_]; [tauto|].
    destruct (Ascii.eqb_spec c newline) as [->|_]; [tauto|].
    rewrite IH by tauto. now rewrite append_str1.
Qed.

Lemma parse_quoted_run (t : string) :
  forall field tail,
    parseCsvFrom (Quoted field)
      (replaceAll dquote (String dquote (str1 dquote)) t ++ tail)
    = parseCsvFrom (Quoted (field ++ t)) tail.
Proof.
  induction t as [|c t IH]; intros field tail.
  - now rewrite append_empty_r.
  - cbn [replaceAll]. destruct (Ascii.eqb_spec c dquote) as [->|N].
    + cbn [append str1 parseCsvFrom]. rewrite Ascii.eqb_refl.
      rewrite IH. now rewrite append_str1.
    + cbn [append parseCsvFrom].
      apply Ascii.eqb_neq in N. rewrite N.
      rewrite IH. now rewrite append_str1.
Qed.

Lemma parse_field (v : value) (tail : string) (more : option string) :
  afterField tail more ->
  parseCsvFrom FieldStart (escapeCsv v ++ tail) = fieldThen (fieldText v) more.
Proof.
  intros A. unfold escapeCsv, fieldText.
  destruct (truthy v); cbn [negb].
  - set (t := to_string v).
    destruct (includes t (str1 dquote) || includes t "," || includes t (str1 newline)) eqn:R.
    + rewrite !append_assoc. cbn [str1 append parseCsvFrom]. rewrite Ascii.eqb_refl.
      rewrite parse_quoted_run. cbn [append].
      destruct more as [rest|]; simpl in A; subst tail; reflexivity.
    + apply orb_false_iff in R as [R Rn]. apply orb_false_iff in R as [Rq Rc].
      change "," with (str1 comma) in Rc.
      apply includes_char_false in Rq, Rc, Rn.
      destruct t as [|c t].
      * destruct more as [rest|]; simpl in A; subst tail; reflexivity.
      * unfold chars in Rq, Rc, Rn. simpl in Rq, Rc, Rn.
        cbn [append parseCsvFrom].
        destruct (Ascii.eqb_spec c dquote) as [->|_]; [tauto|].
        destruct (Ascii.eqb_spec c comma) as [->|_]; [tauto|].
        destruct (Ascii.eqb_spec c newline) as [->|_]; [tauto|].
        rewrite parse_unquoted_run by (unfold chars; tauto).
        destruct more as [rest|]; simpl in A; subst tail; reflexivity.
  - destruct more as [rest|]; simpl in A; subst tail; reflexivity.
Qed.

Lemma parse_fields (v : value) (vs : list value) :
  parseCsvLine (String.concat "," (map escapeCsv (v :: vs)))
  = Some (map fieldText (v :: vs)).
Proof.
  unfold parseCsvLine. revert v. induction vs as [|w vs IH]; intros v.
  - simpl. rewrite <- (append_empty_r (escapeCsv v)).
    now rewrite (parse_field v "" None).
  - change (String.concat "," (map escapeCsv (v :: w :: vs)))
      with (escapeCsv v ++ String comma (String.concat "," (map escapeCsv (w :: vs)))).
    rewrite (parse_field v _ (Some (String.concat "," (map escapeCsv (w :: vs)))))
      by reflexivity.
    cbn [fieldThen]. rewrite IH. reflexivity.
Qed.

Lemma fieldText_Str (text : string) : fieldText (Str text) = text.
Proof. now destruct text. Qed.

Lemma fieldText_texts (texts : list string) : map fieldText (map Str texts) = texts.
Proof.
  induction texts as [|t texts IH]; simpl; [reflexivity|].
  now rewrite fieldText_Str, IH.
Qed.

(** C10: a line made of nineteen escaped fields with commas between them
    reads back, under the usual quoting rules, as the nineteen texts the
    fields stand for: a text as itself, a field that counts as false as the
    empty text.  So two rows with the same line stand for the same texts:
    escaping and joining lose no field and no field boundary. *)
Theorem csv_round_trip (fields : list value) :
  List.length fields = 19 ->
  parseCsvLine (String.concat "," (map escapeCsv fields)) = Some (map fieldText fields)
  /\ (forall texts,
        fields = map Str texts ->
        parseCsvLine (String.concat "," (map escapeCsv fields)) = Some texts)
  /\ (forall others,
        List.length others = 19 ->
        String.concat "," (map escapeCsv others)
        = String.concat "," (map escapeCsv fields) ->
        map fieldText others = map fieldText fields).
Proof.
  intros L. destruct fields as [|v vs]; [discriminate|].
  split; [apply parse_fields|]. split.
  - intros texts E. rewrite parse_fields, E. now rewrite fieldText_texts.
  - intros others L' E. destruct others as [|w ws]; [discriminate|].
    pose proof (parse_fields w ws) as P. rewrite E, parse_fields in P.
    congruence.
Qed.

(** The rule at the row of the lotion, whose list of additional images
    holds a comma. *)
Lemma csv_round_trip_lotion :
  exists row line,
    buildItemFields asciiLower lotion redVariant = Ok row
    /\ buildItemRow asciiLower lotion redVariant = Ok line
    /\ List.length row = 19
    /\ parseCsvLine line = Some (map fieldText row)
    /\ nth 5 (map fieldText row) ""
       = "https://cdn.example/2.png,https://cdn.example/3.png".
Proof.
  destruct (buildItemFields asciiLower lotion redVariant) as [row|e] eqn:H;
    [|vm_compute in H; discriminate].
  exists row, (String.concat "," (map escapeCsv row)).
  assert (List.length row = 19) as L.
  { vm_compute in H. injection H as <-. reflexivity. }
  split; [reflexivity|].
  split; [unfold buildItemRow; now rewrite H|].
  split; [exact L|].
  split; [exact (proj1 (csv_round_trip row L))|].
  vm_compute in H. injection H as <-. reflexivity.
Defined.

(** ** The rules at sample data *)

(** Availability of a tracked variant with five pieces, with none, and of
    the same variant in an archived product. *)
Lemma getAvailability_rule_tracked :
  getAvailability (trackedVariant (Num (number_of_Z 5))) (Str "active") = "in_stock"
  /\ getAvailability (trackedVariant (Num zero)) (Str "active") = "out_of_stock"
  /\ getAvailability (trackedVariant (Num (number_of_Z 5))) (Str "archived")
     = "out_of_stock".
Proof.
  split; [|split].
  - destruct (getAvailability_rule (trackedVariant (Num (number_of_Z 5))) (Str "active"))
      as (_ & _ & R & _).
    destruct R as [R _]; [reflexivity | discriminate |].
    apply R. exact I.
  - destruct (getAvailability_rule (trackedVariant (Num zero)) (Str "active"))
      as (_ & _ & R & _).
    destruct R as [_ R]; [reflexivity | discriminate |].
    apply R. intros [].
  - destruct (getAvailability_rule (trackedVariant (Num (number_of_Z 5))) (Str "archived"))
      as (R & _).
    apply R. discriminate.
Defined.

(** The price rule at a variant marked down from 24.5 to 5, amounts
    written without two decimals. *)
Lemma price_tier_rule_marked_down :
  sale_applies (variantWithPrices (Str "5") (Str "24.5"))
  /\ amountField (parseFloat (Str "5")) "5.00 EUR"
  /\ amountField (parseFloat (Str "24.5")) "24.50 EUR".
Proof.
  destruct (price_tier_rule (variantWithPrices (Str "5") (Str "24.5")))
    as (_ & T & _ & S & _).
  assert (sale_applies (variantWithPrices (Str "5") (Str "24.5"))) as A.
  { apply (T "24.5"); [reflexivity|]. vm_compute. reflexivity. }
  split; [exact A|]. exact (S A).
Defined.

(** The escaping rule at a text with a comma and at one without. *)
Lemma escapeCsv_rule_texts :
  escapeCsv (Str "50 ml, blue") = str1 dquote ++ "50 ml, blue" ++ str1 dquote
  /\ escapeCsv (Str "50 ml") = "50 ml"
  /\ escapeCsv (Num zero) = "".
Proof.
  split; [|split].
  - destruct (escapeCsv_rule (Str "50 ml, blue")) as (_ & R & _).
    rewrite R; [reflexivity | reflexivity |].
    right; left. vm_compute. tauto.
  - destruct (escapeCsv_rule (Str "50 ml")) as (_ & _ & R).
    apply R; [reflexivity|].
    unfold reserved. vm_compute. intuition discriminate.
  - destruct (escapeCsv_rule (Num zero)) as (R & _). now apply R.
Defined.

(** The layout at the row of the lotion. *)
Lemma document_layout_lotion :
  exists row,
    buildItemFields asciiLower lotion redVariant = Ok row
    /\ List.length row = 19
    /\ column "availability" row = Str "in_stock"
    /\ column "price" row = Str "24.99 EUR"
    /\ column "sale_price" row = Str "19.99 EUR"
    /\ column "color" row = Str "Rot".
Proof.
  destruct (buildItemFields asciiLower lotion redVariant) as [row|e] eqn:H;
    [|vm_compute in H; discriminate].
  exists row. split; [reflexivity|].
  destruct document_layout as (_ & _ & _ & R).
  destruct (R asciiLower lotion redVariant row H) as (L & _).
  split; [exact L|].
  vm_compute in H. injection H as <-. vm_compute. now repeat split.
Defined.

(** ** The handler *)

Section HandlerFacts.

Variable toLowerCase : string -> string.
Variable St : Type.
Variable get : Params -> St -> result RestResponse * St.

(** Without credentials the handler answers with the error and sends no
    request. *)
Lemma GET_missing_credentials (fuel : nat) (host token : value) (st : St) :
  truthy host = false \/ truthy token = false ->
  GET toLowerCase St get fuel host token st
  = Some (JsonResponse "Missing Shopify credentials" 500, st).
Proof. unfold GET. intros [-> | ->]; [|rewrite orb_true_r]; reflexivity. Qed.

(** With credentials and a source that serves its pages the answer is the
    document of the rows of the fetched products. *)
Lemma GET_feed (fuel : nat) (host token : value) (st st' : St)
  (pages : list (list Product.t)) (sent : list Params) (rows : list string) :
  truthy host = true -> truthy token = true ->
  serves St get st pages st' sent ->
  List.length pages <= S fuel ->
  feedRows toLowerCase (List.concat pages) = Ok rows ->
  GET toLowerCase St get fuel host token st
  = Some (TextResponse (feedCsv rows) 200 "text/csv; charset=utf-8", st').
Proof.
  intros Hh Ht (response & st1 & rest & sent' & G & F & -> & ->) L R.
  unfold GET, fetchAllProducts. rewrite Hh, Ht, G. cbn [negb orb].
  rewrite (fetchLoop_follows St get _ _ _ _ _ F) by (simpl in L; lia).
  cbn [returned source bind app]. simpl in R. rewrite R. reflexivity.
Qed.

(** An exception of the source on the first request becomes the body of
    the answer. *)
Lemma GET_source_error (fuel : nat) (host token : value) (st st' : St) (e : exn) :
  truthy host = true -> truthy token = true ->
  get firstParams st = (Throw e, st') ->
  GET toLowerCase St get fuel host token st
  = Some (TextResponse (message e) 500 "text/plain", st').
Proof.
  intros Hh Ht G. unfold GET, fetchAllProducts. now rewrite Hh, Ht, G.
Qed.

End HandlerFacts.

(** ** Numbers, as the route meets them *)

Example parseFloat_reads_prefix :
  parseFloat (Str "  24.99 EUR") = parseFloat (Str "24.99")
  /\ parseFloat (Str "EUR 24.99") = NaN
  /\ parseFloat Undefined = NaN
  /\ parseFloat Null = NaN.
Proof. vm_compute. now repeat split. Qed.

Example toFixed_two_decimals :
  map (fun text => toFixed 2 (parseFloat (Str text)))
      ["19.99"; "5"; "0.5"; "1.005"; "8.345"; "-1.5"; "1e21"; "abc"]
  = ["19.99"; "5.00"; "0.50"; "1.00"; "8.35"; "-1.50"; "1e+21"; "NaN"].
Proof. vm_compute. reflexivity. Qed.

Example number_to_string_samples :
  map (fun text => to_string (Num (parseFloat_string text)))
      ["0.25"; "7001234567890"; "0.1"; "1e21"; "0.000001"; "1e-7"; "-2.50"]
  = ["0.25"; "7001234567890"; "0.1"; "1e+21"; "0.000001"; "1e-7"; "-2.5"].
Proof. vm_compute. reflexivity. Qed.

Example weight_with_default_unit : weight redVariant = "0.25 kg".
Proof. vm_compute. reflexivity. Qed.

(** * Further properties *)

(** ** Reading a document back *)

Lemma doc_unquoted_run (t : string) :
  ~ In comma (chars t) -> ~ In newline (chars t) ->
  forall field tail,
    parseCsvDocFrom (Unquoted field) (t ++ tail)
    = parseCsvDocFrom (Unquoted (field ++ t)) tail.
Proof.
  unfold chars. induction t as [|c t IH]; intros Nc Nn field tail.
  - now rewrite append_empty_r.
  - simpl in Nc, Nn. cbn [append parseCsvDocFrom].
    destruct (Ascii.eqb_spec c comma) as [->|_]; [tauto|].
    destruct (Ascii.eqb_spec c newline) as [->|_]; [tauto|].
    rewrite IH by tauto. now rewrite append_str1.
Qed.

Lemma doc_quoted_run (t : string) :
  forall field tail,
    parseCsvDocFrom (Quoted field)
      (replaceAll dquote (String dquote (str1 dquote)) t ++ tail)
    = parseCsvDocFrom (Quoted (field ++ t)) tail.
Proof.
  induction t as [|c t IH]; intros field tail.
  - now rewrite append_empty_r.
  - cbn [replaceAll]. destruct (Ascii.eqb_spec c dquote) as [->|N].
    + cbn [append str1 parseCsvDocFrom]. rewrite Ascii.eqb_refl.
      rewrite IH. now rewrite append_str1.
    + cbn [append parseCsvDocFrom].
      apply Ascii.eqb_neq in N. rewrite N.
      rewrite IH. now rewrite append_str1.
Qed.

Lemma doc_field (v : value) (more : docTail) :
  parseCsvDocFrom FieldStart (escapeCsv v ++ tailText more)
  = fieldThenDoc (fieldText v) more.
Proof.
  unfold escapeCsv, fieldText.
  destruct (truthy v); cbn [negb].
  - set (t := to_string v).
    destruct (includes t (str1 dquote) || includes t "," || includes t (str1 newline)) eqn:R.
    + rewrite !append_assoc. cbn [str1 append parseCsvDocFrom]. rewrite Ascii.eqb_refl.
      rewrite doc_quoted_run. cbn [append].
      destruct more as [|rest|rest]; reflexivity.
    + apply orb_false_iff in R as [R Rn]. apply orb_false_iff in R as [Rq Rc].
      change "," with (str1 comma) in Rc.
      apply includes_char_false in Rq, Rc, Rn.
      destruct t as [|c t].
      * destruct more as [|rest|rest]; reflexivity.
      * unfold chars in Rq, Rc, Rn. simpl in Rq, Rc, Rn.
        cbn [append parseCsvDocFrom].
        destruct (Ascii.eqb_spec c dquote) as [->|_]; [tauto|].
        destruct (Ascii.eqb_spec c comma) as [->|_]; [tauto|].
        destruct (Ascii.eqb_spec c newline) as [->|_]; [tauto|].
        rewrite doc_unquoted_run by (unfold chars; tauto).
        destruct more as [|rest|rest]; reflexivity.
  - destruct more as [|rest|rest]; reflexivity.
Qed.

(** A record, followed by the end of the document or by further lines. *)
Lemma doc_record (v : value) (vs : list value) (later : option string) :
  parseCsvDocFrom FieldStart
    (lineOf (v :: vs)
     ++ match later with Some rest => String newline rest | None => "" end)
  = match later with
    | Some rest =>
        option_map (cons (map fieldText (v :: vs))) (parseCsvDocFrom FieldStart rest)
    | None => Some [map fieldText (v :: vs)]
    end.
Proof.
  revert v. induction vs as [|w vs IH]; intros v.
  - unfold lineOf. cbn [map String.concat].
    destruct later as [rest|].
    + exact (doc_field v (DocLine rest)).
    + exact (doc_field v DocEnd).
  - change (lineOf (v :: w :: vs))
      with (escapeCsv v ++ String comma (lineOf (w :: vs))).
    rewrite append_assoc. cbn [append].
    change (String comma ?x) with (tailText (DocComma x)).
    rewrite doc_field. cbn [fieldThenDoc]. rewrite IH.
    destruct later as [rest|]; [|reflexivity].
    now destruct (parseCsvDocFrom FieldStart rest).
Qed.

Lemma doc_records (first : list value) (rows : list (list value)) :
  first <> [] -> Forall (fun row => row <> []) rows ->
  parseCsvDocument (lineOf first ++ linesAfter (map lineOf rows))
  = Some (map (map fieldText) (first :: rows)).
Proof.
  unfold parseCsvDocument. intros N F. revert first N.
  induction F as [|row rows Nrow _ IH]; intros first N;
    destruct first as [|v vs]; try contradiction.
  - cbn [map linesAfter]. exact (doc_record v vs None).
  - cbn [map linesAfter].
    change (str1 newline ++ lineOf row ++ linesAfter (map lineOf rows))
      with (String newline (lineOf row ++ linesAfter (map lineOf rows))).
    rewrite (doc_record v vs (Some (lineOf row ++ linesAfter (map lineOf rows)))).
    rewrite (IH row Nrow). reflexivity.
Qed.

Lemma header_line : String.concat "," CSV_HEADERS = lineOf (map Str CSV_HEADERS).
Proof. reflexivity. Qed.

Lemma rowsOf_lines (toLowerCase : string -> string) (products : list Product.t)
  (lines : list string) :
  rowsOf toLowerCase products lines ->
  Forall (fun line => exists p v, buildItemRow toLowerCase p v = Ok line) lines.
Proof.
  induction 1 as [| p ps rows _ _ IH | p ps vs lines rows _ _ F _ IH].
  - constructor.
  - exact IH.
  - apply Forall_app. split; [|exact IH].
    clear IH. induction F as [|v line vs lines Hv _ IHF]; constructor; eauto.
Qed.

Lemma lines_have_rows (toLowerCase : string -> string) (lines : list string) :
  Forall (fun line => exists p v, buildItemRow toLowerCase p v = Ok line) lines ->
  exists rows,
    lines = map lineOf rows /\ Forall (fun row => List.length row = 19) rows.
Proof.
  induction 1 as [|line lines (p & v & H) _ (rows & -> & F)].
  - exists []. split; [reflexivity | constructor].
  - unfold buildItemRow in H. apply bind_Ok in H as (row & Hrow & E).
    injection E as <-.
    exists (row :: rows). split; [reflexivity|]. constructor; [|exact F].
    apply buildItemFields_Ok in Hrow as (d & a & c & s & m & _ & _ & _ & _ & _ & ->).
    reflexivity.
Qed.

Lemma document_reads_back (rows : list (list value)) :
  Forall (fun row => row <> []) rows ->
  parseCsvDocument (feedCsv (map lineOf rows))
  = Some (CSV_HEADERS :: map (map fieldText) rows).
Proof.
  intros F. unfold feedCsv. rewrite concat_newline, header_line.
  rewrite doc_records; [|discriminate|exact F].
  cbn [map]. now rewrite fieldText_texts.
Qed.

Lemma feed_reads_back (toLowerCase : string -> string) (products : list Product.t)
  (lines : list string) :
  feedRows toLowerCase products = Ok lines ->
  exists records,
    parseCsvDocument (feedCsv lines) = Some (CSV_HEADERS :: records)
    /\ List.length records = List.length lines
    /\ Forall (fun record => List.length record = 19) records.
Proof.
  intros H.
  apply feedRows_rowsOf, rowsOf_lines, lines_have_rows in H as (rows & -> & F).
  exists (map (map fieldText) rows). split; [|split].
  - apply document_reads_back. eapply Forall_impl; [|exact F].
    intros row L E. subst row. discriminate.
  - now rewrite !length_map.
  - apply Forall_map. eapply Forall_impl; [|exact F].
    intros row L. now rewrite length_map.
Qed.

(** X1: a document made of the header line and of rows of escaped fields
    reads back, under the usual quoting rules, as the header's names
    followed by one record for each row, with the texts the fields stand
    for; so the document of a feed reads back as the nineteen names and one
    record of nineteen fields for each of its rows, whatever commas,
    double quotes and line feeds the fields hold. *)
Theorem csv_document_round_trip :
  (forall rows : list (list value),
     Forall (fun row => row <> []) rows ->
     parseCsvDocument (feedCsv (map lineOf rows))
     = Some (CSV_HEADERS :: map (map fieldText) rows))
  /\ (forall toLowerCase products lines,
        feedRows toLowerCase products = Ok lines ->
        exists records,
          parseCsvDocument (feedCsv lines) = Some (CSV_HEADERS :: records)
          /\ List.length records = List.length lines
          /\ Forall (fun record => List.length record = 19) records).
Proof.
  split; [exact document_reads_back | exact feed_reads_back].
Qed.

(** The document of a row whose description runs over two lines. *)
Lemma csv_document_round_trip_two_lines :
  parseCsvDocument
    (feedCsv [lineOf [Str "sku-1"; Str ("soft," ++ str1 newline ++ "light")];
              lineOf [Null; Str "plain"]])
  = Some [CSV_HEADERS; ["sku-1"; "soft," ++ str1 newline ++ "light"]; [""; "plain"]].
Proof.
  apply (proj1 csv_document_round_trip
           [[Str "sku-1"; Str ("soft," ++ str1 newline ++ "light")]; [Null; Str "plain"]]).
  repeat constructor; discriminate.
Defined.

(** ** Rows of several lists of products *)

Lemma flatMapM_app {A B : Type} (f : A -> result (list B)) (l1 l2 : list A) :
  flatMapM f (l1 ++ l2)
  = (xs <- flatMapM f l1 ;; ys <- flatMapM f l2 ;; Ok (xs ++ ys)%list).
Proof.
  induction l1 as [|a l1 IH]; simpl.
  - destruct (flatMapM f l2); reflexivity.
  - destruct (f a) as [bs|e]; [|reflexivity]. simpl. rewrite IH.
    destruct (flatMapM f l1) as [xs|e]; [|reflexivity]. simpl.
    destruct (flatMapM f l2) as [ys|e]; [|reflexivity]. simpl.
    now rewrite app_assoc.
Qed.

Lemma feedRows_app (toLowerCase : string -> string) (first second : list Product.t) :
  feedRows toLowerCase (first ++ second)
  = (rows <- feedRows toLowerCase first ;;
     more <- feedRows toLowerCase second ;;
     Ok (rows ++ more)%list).
Proof. unfold feedRows. rewrite filter_app. apply flatMapM_app. Qed.

(** X2: the rows of two lists of products put end to end are the rows of
    the first followed by the rows of the second, and an exception of
    either is the exception of the whole, that of the first list when both
    throw.  So the rows of the fetched catalog are the rows of its pages in
    the order of the pages. *)
Theorem feedRows_concatenation (toLowerCase : string -> string)
  (first second : list Product.t) :
  (forall rows more,
     feedRows toLowerCase first = Ok rows ->
     feedRows toLowerCase second = Ok more ->
     feedRows toLowerCase (first ++ second) = Ok (rows ++ more)%list)
  /\ (forall e,
        feedRows toLowerCase first = Throw e ->
        feedRows toLowerCase (first ++ second) = Throw e)
  /\ (forall rows e,
        feedRows toLowerCase first = Ok rows ->
        feedRows toLowerCase second = Throw e ->
        feedRows toLowerCase (first ++ second) = Throw e)
  /\ (forall rows,
        feedRows toLowerCase (first ++ second) = Ok rows ->
        exists front back,
          feedRows toLowerCase first = Ok front
          /\ feedRows toLowerCase second = Ok back
          /\ rows = (front ++ back)%list).
Proof.
  rewrite feedRows_app. repeat split.
  - intros rows more -> ->. reflexivity.
  - intros e ->. reflexivity.
  - intros rows e -> ->. reflexivity.
  - intros rows H. apply bind_Ok in H as (front & Hf & H).
    apply bind_Ok in H as (back & Hb & H). injection H as <-.
    now exists front, back.
Qed.

(** The rows of the lotion's page and of the draft's page. *)
Lemma feedRows_concatenation_pages :
  exists row,
    feedRows asciiLower [lotion] = Ok [row]
    /\ feedRows asciiLower ([lotion] ++ [draft; lotion]) = Ok [row; row].
Proof.
  destruct (feedRows asciiLower [lotion]) as [rows|e] eqn:H;
    [|vm_compute in H; discriminate].
  assert (exists row, rows = [row]) as (row & ->).
  { vm_compute in H. injection H as <-. eauto. }
  exists row. split; [reflexivity|].
  apply (proj1 (feedRows_concatenation asciiLower [lotion] [draft; lotion]) [row] [row] H).
  rewrite <- H. reflexivity.
Defined.

(** ** A product that fails *)

Lemma mapM_first_failure {A B : Type} (f : A -> result B) (before after : list A)
  (a : A) (e : exn) :
  Forall (fun x => exists b, f x = Ok b) before ->
  f a = Throw e ->
  mapM f (before ++ a :: after) = Throw e.
Proof.
  induction 1 as [|x before (b & Hx) _ IH]; intros Ha; simpl.
  - now rewrite Ha.
  - rewrite Hx. simpl. now rewrite (IH Ha).
Qed.

(** X3: one active product that cannot be turned into rows makes the rows
    of the whole list an exception, whatever products come after it: the
    product has no list of variants, or row construction throws for one of
    its variants after succeeding for the variants before.  The same
    product is harmless when it is not active. *)
Theorem feedRows_first_failure (toLowerCase : string -> string)
  (before after : list Product.t) (p : Product.t) (rows : list string) :
  feedRows toLowerCase before = Ok rows ->
  (active p -> Product.variants p = None ->
     feedRows toLowerCase (before ++ p :: after) = Throw mapOfUndefined)
  /\ (forall vs1 v vs2 e,
        active p ->
        Product.variants p = Some (vs1 ++ v :: vs2)%list ->
        Forall (fun v' => exists line, buildItemRow toLowerCase p v' = Ok line) vs1 ->
        buildItemRow toLowerCase p v = Throw e ->
        feedRows toLowerCase (before ++ p :: after) = Throw e)
  /\ (~ active p ->
        feedRows toLowerCase (before ++ p :: after)
        = feedRows toLowerCase (before ++ after)).
Proof.
  intros B. split; [|split].
  - intros A V. rewrite feedRows_app, B. cbn [bind].
    rewrite (feedRows_active toLowerCase p after A), V. reflexivity.
  - intros vs1 v vs2 e A V F E. rewrite feedRows_app, B. cbn [bind].
    rewrite (feedRows_active toLowerCase p after A), V.
    now rewrite (mapM_first_failure _ vs1 vs2 v e F E).
  - intros N. now apply feedRows_skips.
Qed.

(** The rule at the product without variants, after the lotion and before
    the draft. *)
Lemma feedRows_first_failure_noVariants :
  feedRows asciiLower [lotion; noVariants; draft] = Throw mapOfUndefined.
Proof.
  destruct (feedRows asciiLower [lotion]) as [rows|e] eqn:H;
    [|vm_compute in H; discriminate].
  apply (proj1 (feedRows_first_failure asciiLower [lotion] [draft] noVariants rows H));
    reflexivity.
Defined.

(** ** Options without a name *)

Lemma optionNamed_throws (toLowerCase : string -> string) (optionName : string)
  (o : ProductOption.t) :
  (forall s, ProductOption.name o <> Str s) ->
  exists m, optionNamed toLowerCase optionName o = Throw (TypeError m).
Proof.
  intros N. unfold optionNamed.
  destruct (ProductOption.name o) as [| | b | n | s]; eauto.
  now contradiction (N s).
Qed.

Lemma findM_throws (toLowerCase : string -> string) (optionName : string)
  (before after : list ProductOption.t) (o : ProductOption.t) :
  Forall (fun o' => exists s, ProductOption.name o' = Str s) before ->
  Forall (fun o' => ~ named toLowerCase optionName o') before ->
  (forall s, ProductOption.name o <> Str s) ->
  exists m,
    findM (optionNamed toLowerCase optionName) (before ++ o :: after)
    = Throw (TypeError m).
Proof.
  induction 1 as [|b before Hb _ IH]; intros N Ho; simpl.
  - destruct (optionNamed_throws toLowerCase optionName o Ho) as (m & ->).
    exists m. reflexivity.
  - inversion N as [|? ? Nb Nbefore]; subst.
    rewrite (optionNamed_false toLowerCase _ _ Hb Nb). simpl. now apply IH.
Qed.

(** X4: the lookup of an option name reads the options only up to the
    first one that has the name.  When the options before it have other
    names, the lookup yields that option's slot of the variant (or [null]
    for an empty slot) whatever the options after it are, named or not; and
    when an option without a text for a name comes before any option of
    that name, the lookup throws a type error. *)
Theorem option_lookup_stops_at_match (toLowerCase : string -> string)
  (product : Product.t) (variant : Variant.t) (optionName : string)
  (before after : list ProductOption.t) (o : ProductOption.t) :
  Product.options product = Some (before ++ o :: after)%list ->
  Forall (fun o' => exists s, ProductOption.name o' = Str s) before ->
  Forall (fun o' => ~ named toLowerCase optionName o') before ->
  (named toLowerCase optionName o ->
     getVariantOptionByName toLowerCase product variant optionName
     = Ok (or_else
             (Variant.get variant ("option" ++ to_string (ProductOption.position o)))
             Null))
  /\ ((forall s, ProductOption.name o <> Str s) ->
      exists m,
        getVariantOptionByName toLowerCase product variant optionName
        = Throw (TypeError m)).
Proof.
  intros E W N. unfold getVariantOptionByName. rewrite E. split.
  - intros Ho. now rewrite (findM_first toLowerCase optionName before after o W N Ho).
  - intros Ho.
    destruct (findM_throws toLowerCase optionName before after o W N Ho) as (m & ->).
    exists m. reflexivity.
Qed.

(** The rule at the lotion with an unnamed third option: the colour and
    the size are found before the unnamed option is reached, and the
    lookup of the material, which reaches it, throws. *)
Lemma option_lookup_stops_at_match_unnamed :
  getVariantOptionByName asciiLower lotionWithUnnamedOption redVariant "Size"
  = Ok (Str "M")
  /\ exists m,
       getVariantOptionByName asciiLower lotionWithUnnamedOption redVariant "Material"
       = Throw (TypeError m).
Proof.
  split.
  - assert (Forall (fun o' => exists s, ProductOption.name o' = Str s)
              [ {| ProductOption.name := Str "FARBE";
                   ProductOption.position := position_number 1 |} ]) as W
      by (repeat constructor; now exists "FARBE").
    assert (Forall (fun o' => ~ named asciiLower "Size" o')
              [ {| ProductOption.name := Str "FARBE";
                   ProductOption.position := position_number 1 |} ]) as N
      by (repeat constructor; intros (s & E & L); injection E as <-; discriminate L).
    destruct (option_lookup_stops_at_match asciiLower lotionWithUnnamedOption
                redVariant "Size"
                [ {| ProductOption.name := Str "FARBE";
                     ProductOption.position := position_number 1 |} ]
                [ {| ProductOption.name := Undefined;
                     ProductOption.position := position_number 3 |} ]
                {| ProductOption.name := Str "size";
                   ProductOption.position := position_number 2 |}
                eq_refl W N) as [H _].
    rewrite H; [vm_compute; reflexivity|].
    exists "size". now split.
  - assert (Forall (fun o' => exists s, ProductOption.name o' = Str s)
              [ {| ProductOption.name := Str "FARBE";
                   ProductOption.position := position_number 1 |};
                {| ProductOption.name := Str "size";
                   ProductOption.position := position_number 2 |} ]) as W
      by (repeat constructor; [now exists "FARBE" | now exists "size"]).
    assert (Forall (fun o' => ~ named asciiLower "Material" o')
              [ {| ProductOption.name := Str "FARBE";
                   ProductOption.position := position_number 1 |};
                {| ProductOption.name := Str "size";
                   ProductOption.position := position_number 2 |} ]) as N
      by (repeat constructor; intros (s & E & L); injection E as <-; discriminate L).
    destruct (option_lookup_stops_at_match asciiLower lotionWithUnnamedOption
                redVariant "Material"
                [ {| ProductOption.name := Str "FARBE";
                     ProductOption.position := position_number 1 |};
                  {| ProductOption.name := Str "size";
                     ProductOption.position := position_number 2 |} ]
                []
                {| ProductOption.name := Undefined;
                   ProductOption.position := position_number 3 |}
                eq_refl W N) as [_ H].
    apply H. discriminate.
Defined.

(** ** The requests of the fetcher *)

Section RequestFacts.

Variable St : Type.
Variable get : Params -> St -> result RestResponse * St.

Lemma fetchLoop_requests (fuel : nat) :
  forall response products st sent out,
    fetchLoop St get fuel response products st sent = Some out ->
    exists more,
      requests out = (sent ++ more)%list
      /\ Forall (fun params => path params = "products.json") more
      /\ List.length more <= fuel.
Proof.
  induction fuel as [|fuel IH]; intros response products st sent out H;
    simpl in H; destruct (nextPageOf response) as [next|]; try discriminate.
  - injection H as <-. exists []. simpl. rewrite app_nil_r. repeat split; [constructor | lia].
  - destruct (get {| path := "products.json"; query := query next |} st)
      as [[response'|e] st'].
    + destruct (IH _ _ _ _ _ H) as (more & -> & F & L).
      exists ({| path := "products.json"; query := query next |} :: more).
      rewrite <- app_assoc. repeat split; [constructor; [reflexivity | exact F] | simpl; lia].
    + injection H as <-. exists [{| path := "products.json"; query := query next |}].
      repeat split; [repeat constructor | simpl; lia].
  - injection H as <-. exists []. simpl. rewrite app_nil_r. repeat split; [constructor | lia].
Qed.

(** X5: a run of the fetcher that ends, with the products or with the
    source's exception, within [n] iterations of the loop has asked for
    nothing but [products.json]: its first request is the one for that
    path with the eleven fields the feed reads and the limit of 250, every
    request goes to that path, and at most [n + 1] requests were sent. *)
Theorem fetchAllProducts_requests (fuel : nat) (st : St)
  (out : Outcome St (list Product.t)) :
  fetchAllProducts St get fuel st = Some out ->
  (exists more,
     requests out
     = {| path := "products.json";
          query := [ ("fields",
                      "id,title,handle,variants,images,body_html,vendor,product_type,status,options,tags");
                     ("limit", "250") ] |} :: more)
  /\ Forall (fun params => path params = "products.json") (requests out)
  /\ List.length (requests out) <= S fuel.
Proof.
  unfold fetchAllProducts. intros H.
  destruct (get firstParams st) as [[response|e] st'].
  - destruct (fetchLoop_requests _ _ _ _ _ _ H) as (more & -> & F & L).
    split; [now exists more|]. split; [constructor; [reflexivity | exact F] | simpl; lia].
  - injection H as <-. split; [now exists []|].
    split; [repeat constructor | simpl; lia].
Qed.

End RequestFacts.

(** The rule at the source of two pages, and at the source whose second
    page fails. *)
Lemma fetchAllProducts_requests_two :
  (exists out,
     fetchAllProducts nat twoPages 5 0 = Some out
     /\ List.length (requests out) = 2
     /\ Forall (fun params => path params = "products.json") (requests out))
  /\ (exists out,
        fetchAllProducts nat brokenSecondPage 5 0 = Some out
        /\ List.length (requests out) = 2
        /\ Forall (fun params => path params = "products.json") (requests out)).
Proof.
  split.
  - destruct (fetchAllProducts nat twoPages 5 0) as [out|] eqn:H;
      [|vm_compute in H; discriminate].
    exists out. split; [reflexivity|].
    destruct (fetchAllProducts_requests nat twoPages 5 0 out H) as (_ & F & _).
    split; [|exact F].
    vm_compute in H. injection H as <-. reflexivity.
  - destruct (fetchAllProducts nat brokenSecondPage 5 0) as [out|] eqn:H;
      [|vm_compute in H; discriminate].
    exists out. split; [reflexivity|].
    destruct (fetchAllProducts_requests nat brokenSecondPage 5 0 out H) as (_ & F & _).
    split; [|exact F].
    vm_compute in H. injection H as <-. reflexivity.
Defined.

(** ** The answers of the handler *)

Section AnswerFacts.

Variable toLowerCase : string -> string.
Variable St : Type.
Variable get : Params -> St -> result RestResponse * St.

Lemma fetchLoop_returns_within (fuel : nat) :
  forall response products st sent0 out found,
    fetchLoop St get fuel response products st sent0 = Some out ->
    returned out = Ok found ->
    exists pages sent,
      follows St get st response pages (source out) sent
      /\ found = (products ++ List.concat pages)%list
      /\ List.length pages <= fuel.
Proof.
  induction fuel as [|fuel IH]; intros response products st sent0 out found H R;
    simpl in H; destruct (nextPageOf response) as [next|] eqn:E; try discriminate.
  - injection H as <-. simpl in R. injection R as <-.
    exists [], []. simpl. rewrite app_nil_r. repeat split; [now constructor | lia].
  - fold (nextParams next) in H.
    destruct (get (nextParams next) st) as [[response'|e] st'] eqn:G.
    + destruct (IH _ _ _ _ _ _ H R) as (pages & sent & F & -> & L).
      exists (body_products response' :: pages), (nextParams next :: sent).
      split; [now apply (follows_next St get st st' (source out) response response')|].
      simpl. rewrite <- app_assoc. split; [reflexivity | lia].
    + injection H as <-. discriminate R.
  - injection H as <-. simpl in R. injection R as <-.
    exists [], []. simpl. rewrite app_nil_r. repeat split; [now constructor | lia].
Qed.

Lemma fetchLoop_breaks (st st' : St) (response : RestResponse) (e : exn)
  (sent : list Params) :
  breaks St get st response e st' sent ->
  forall fuel products sent0,
    List.length sent <= fuel ->
    fetchLoop St get fuel response products st sent0
    = Some {| returned := Throw e; source := st'; requests := (sent0 ++ sent)%list |}.
Proof.
  induction 1 as [st st' response next e E G
                 | st st' st'' response response' next e sent E G _ IH];
    intros fuel products sent0 L.
  - destruct fuel as [|fuel]; [simpl in L; lia|].
    simpl. rewrite E. fold (nextParams next). now rewrite G.
  - destruct fuel as [|fuel]; [simpl in L; lia|].
    simpl. rewrite E. fold (nextParams next). rewrite G.
    rewrite IH by (simpl in L; lia). now rewrite <- app_assoc.
Qed.

Lemma fetchAllProducts_fails (st st' : St) (e : exn) (sent : list Params) (fuel : nat) :
  failsWith St get st e st' sent ->
  List.length sent <= S fuel ->
  fetchAllProducts St get fuel st
  = Some {| returned := Throw e; source := st'; requests := sent |}.
Proof.
  unfold fetchAllProducts.
  intros [[G ->] | (response & st1 & sent' & G & B & ->)] L; rewrite G; [reflexivity|].
  rewrite (fetchLoop_breaks _ _ _ _ _ B) by (simpl in L; lia). reflexivity.
Qed.

Lemma GET_ok_inv (fuel : nat) (host token : value) (st st' : St)
  (body contentType : string) :
  GET toLowerCase St get fuel host token st
  = Some (TextResponse body 200 contentType, st') ->
  truthy host = true
  /\ truthy token = true
  /\ contentType = "text/csv; charset=utf-8"
  /\ exists pages sent rows,
       serves St get st pages st' sent
       /\ List.length pages <= S fuel
       /\ feedRows toLowerCase (List.concat pages) = Ok rows
       /\ body = feedCsv rows.
Proof.
  unfold GET. destruct (truthy host); [|discriminate].
  destruct (truthy token); [|discriminate]. cbn [negb orb].
  destruct (fetchAllProducts St get fuel st) as [out|] eqn:F; [|discriminate].
  destruct (returned out) as [products|e] eqn:R; cbn [bind]; [|discriminate].
  destruct (feedRows toLowerCase products) as [rows|e] eqn:W; cbn [bind];
    [|discriminate].
  intros H. injection H as <- <- <-.
  repeat split.
  unfold fetchAllProducts in F.
  destruct (get firstParams st) as [[response|e] st1] eqn:G.
  - destruct (fetchLoop_returns_within _ _ _ _ _ _ _ F R) as (pages & sent & Fo & E & L).
    exists (body_products response :: pages), (firstParams :: sent), rows.
    split; [exists response, st1, pages, sent; now repeat split|].
    split; [simpl; lia|]. split; [|reflexivity].
    now rewrite <- W, E.
  - injection F as <-. discriminate R.
Qed.

(** X6: the handler answers with status 200 exactly when both settings are
    present, the source has served its pages up to one that announces no
    next page, and every row of the fetched products could be built; the
    body is then the whole document of those rows, with the content type of
    a comma separated text.  There is no answer of status 200 with a part
    of the feed. *)
Theorem GET_ok_exactly (fuel : nat) (host token : value) (st st' : St)
  (body contentType : string) :
  GET toLowerCase St get fuel host token st
  = Some (TextResponse body 200 contentType, st')
  <-> truthy host = true
      /\ truthy token = true
      /\ contentType = "text/csv; charset=utf-8"
      /\ exists pages sent rows,
           serves St get st pages st' sent
           /\ List.length pages <= S fuel
           /\ feedRows toLowerCase (List.concat pages) = Ok rows
           /\ body = feedCsv rows.
Proof.
  split; [apply GET_ok_inv|].
  intros (Hh & Ht & -> & pages & sent & rows & S & L & W & ->).
  exact (GET_feed toLowerCase St get fuel host token st st' pages sent rows
           Hh Ht S L W).
Qed.

(** X12: the body of an answer of status 200 reads back, under the usual
    quoting rules, as the nineteen column names followed by one record of
    nineteen fields for each variant of each active product of the pages
    the source served. *)
Theorem GET_body_reads_back (fuel : nat) (host token : value) (st st' : St)
  (body contentType : string) :
  GET toLowerCase St get fuel host token st
  = Some (TextResponse body 200 contentType, st') ->
  exists pages sent records,
    serves St get st pages st' sent
    /\ parseCsvDocument body = Some (CSV_HEADERS :: records)
    /\ List.length records = activeVariantCount (List.concat pages)
    /\ Forall (fun record => List.length record = 19) records.
Proof.
  intros H.
  apply GET_ok_inv in H as (_ & _ & _ & pages & sent & rows & S & _ & W & ->).
  destruct (feed_reads_back toLowerCase _ _ W) as (records & P & L & F).
  exists pages, sent, records. split; [exact S|]. split; [exact P|].
  split; [|exact F]. rewrite L.
  apply (rowsOf_length toLowerCase). now apply feedRows_rowsOf.
Qed.

(** X7: every failure gives an answer of status 500 and no part of a feed.
    Without one of the two settings the answer is the error in JSON, and
    the source is left as it was; when the source throws, at the first
    request or at the request of a later page, the answer is the message of
    its exception as plain text, and the products of the pages fetched
    before are dropped; when the pages are fetched and a row cannot be
    built, the answer is the message of that exception. *)
Theorem GET_failures (fuel : nat) (host token : value) (st st' : St) :
  (truthy host = false \/ truthy token = false ->
     GET toLowerCase St get fuel host token st
     = Some (JsonResponse "Missing Shopify credentials" 500, st))
  /\ (forall e sent,
        truthy host = true -> truthy token = true ->
        failsWith St get st e st' sent ->
        List.length sent <= S fuel ->
        fetchAllProducts St get fuel st
        = Some {| returned := Throw e; source := st'; requests := sent |}
        /\ GET toLowerCase St get fuel host token st
           = Some (TextResponse (message e) 500 "text/plain", st'))
  /\ (forall pages sent e,
        truthy host = true -> truthy token = true ->
        serves St get st pages st' sent ->
        List.length pages <= S fuel ->
        feedRows toLowerCase (List.concat pages) = Throw e ->
        GET toLowerCase St get fuel host token st
        = Some (TextResponse (message e) 500 "text/plain", st')).
Proof.
  split; [apply GET_missing_credentials|]. split.
  - intros e sent Hh Ht F L.
    pose proof (fetchAllProducts_fails st st' e sent fuel F L) as A.
    split; [exact A|]. unfold GET. now rewrite Hh, Ht, A.
  - intros pages sent e Hh Ht (response & st1 & rest & sent' & G & F & -> & ->) L W.
    unfold GET, fetchAllProducts. rewrite Hh, Ht, G. cbn [negb orb].
    rewrite (fetchLoop_follows St get _ _ _ _ _ F) by (simpl in L; lia).
    cbn [returned source bind app]. simpl in W. now rewrite W.
Qed.

End AnswerFacts.

(** The answer for the source of two pages. *)
Lemma GET_ok_exactly_two_pages :
  exists body,
    GET asciiLower nat twoPages 3 (Str "shop.example") (Str "token") 0
    = Some (TextResponse body 200 "text/csv; charset=utf-8", 2)
    /\ exists rows,
         feedRows asciiLower [lotion; lotion; draft] = Ok rows
         /\ body = feedCsv rows.
Proof.
  destruct (feedRows asciiLower [lotion; lotion; draft]) as [rows|e] eqn:W;
    [|vm_compute in W; discriminate].
  exists (feedCsv rows). split; [|exists rows; split; reflexivity].
  apply (proj2 (GET_ok_exactly asciiLower nat twoPages 3 (Str "shop.example")
                  (Str "token") 0 2 (feedCsv rows) "text/csv; charset=utf-8")).
  split; [reflexivity|]. split; [reflexivity|]. split; [reflexivity|].
  exists [[lotion; lotion]; [draft]],
    [firstParams; {| path := "products.json"; query := [("page_info", "second")] |}],
    rows.
  split; [exact twoPages_serves|]. split; [simpl; lia|]. split; [exact W | reflexivity].
Defined.

(** The body of the answer for the source of two pages: the header and
    the two rows of the lotion. *)
Lemma GET_body_reads_back_two_pages :
  exists body records,
    GET asciiLower nat twoPages 3 (Str "shop.example") (Str "token") 0
    = Some (TextResponse body 200 "text/csv; charset=utf-8", 2)
    /\ parseCsvDocument body = Some (CSV_HEADERS :: records)
    /\ Forall (fun record => List.length record = 19) records.
Proof.
  destruct (GET asciiLower nat twoPages 3 (Str "shop.example") (Str "token") 0)
    as [[answer st']|] eqn:H; [|vm_compute in H; discriminate].
  assert (exists body, answer = TextResponse body 200 "text/csv; charset=utf-8"
                       /\ st' = 2) as (body & -> & ->).
  { vm_compute in H. injection H as <- <-. eexists. split; reflexivity. }
  destruct (GET_body_reads_back asciiLower nat twoPages 3 _ _ 0 2 body _ H)
    as (pages & sent & records & _ & P & _ & F).
  exists body, records. split; [reflexivity|]. split; [exact P | exact F].
Defined.

Lemma brokenSecondPage_fails :
  failsWith nat brokenSecondPage 0 (Error "429 Too Many Requests") 2
    [firstParams; {| path := "products.json"; query := [("page_info", "second")] |}].
Proof.
  right. eexists _, _, _. split; [reflexivity|]. split; [|reflexivity].
  apply (breaks_now nat brokenSecondPage 1 2 _
           {| path := "products.json"; query := [("page_info", "second")] |});
    reflexivity.
Qed.

(** The answers without a token, and for the source whose second page
    cannot be fetched. *)
Lemma GET_failures_samples :
  GET asciiLower nat brokenSecondPage 3 (Str "shop.example") Undefined 0
  = Some (JsonResponse "Missing Shopify credentials" 500, 0)
  /\ GET asciiLower nat brokenSecondPage 3 (Str "shop.example") (Str "token") 0
     = Some (TextResponse "429 Too Many Requests" 500 "text/plain", 2).
Proof.
  destruct (GET_failures asciiLower nat brokenSecondPage 3 (Str "shop.example")
              Undefined 0 0) as (A & _).
  destruct (GET_failures asciiLower nat brokenSecondPage 3 (Str "shop.example")
              (Str "token") 0 2) as (_ & B & _).
  split; [apply A; now right|].
  apply (B _ _ eq_refl eq_refl brokenSecondPage_fails). simpl. lia.
Defined.

(** ** Empty fields *)

Lemma is_empty_append (a b : string) : is_empty (a ++ b) = is_empty a && is_empty b.
Proof. now destruct a. Qed.

Lemma strip_trailing_zeros_nonempty (s : string) :
  is_empty (strip_trailing_zeros s) = false.
Proof.
  unfold strip_trailing_zeros.
  now destruct (string_of_list_ascii _).
Qed.

Lemma format_digits_nonempty (digits : string) (n : Z) :
  is_empty digits = false -> is_empty (format_digits digits n) = false.
Proof.
  intros D. unfold format_digits.
  repeat match goal with
         | |- context [if ?b then _ else _] => destruct b
         end;
    rewrite ?is_empty_append, ?D; try reflexivity;
    now rewrite ?andb_false_r.
Qed.

Lemma number_to_string_nonempty (x : number) : is_empty (number_to_string x) = false.
Proof.
  destruct x as [s | s | | s m e]; try reflexivity.
  - now destruct s.
  - unfold number_to_string.
    destruct (shortest_digits _ _ _ _ _) as [d k].
    rewrite is_empty_append, format_digits_nonempty; [apply andb_false_r|].
    apply strip_trailing_zeros_nonempty.
Qed.

Lemma to_string_nonempty (v : value) :
  truthy v = true -> is_empty (to_string v) = false.
Proof.
  destruct v as [| | [|] | n | s]; try discriminate; try reflexivity.
  - intros _. apply number_to_string_nonempty.
  - simpl. now destruct s.
Qed.

(** X8: a field is empty in its line exactly when its value counts as
    false; the escaped text of any other value has at least one character,
    and is the value's own text or starts with a double quote. *)
Theorem escapeCsv_empty_iff (v : value) :
  (escapeCsv v = "" <-> truthy v = false)
  /\ (truthy v = true ->
      escapeCsv v = to_string v
      \/ exists rest, escapeCsv v = String dquote rest).
Proof.
  unfold escapeCsv. destruct (truthy v) eqn:T; cbn [negb].
  - pose proof (to_string_nonempty v T) as N.
    destruct (includes _ _ || includes _ _ || includes _ _).
    + split; [split; discriminate|]. intros _. right. eexists. reflexivity.
    + split; [|now left]. split; [|discriminate].
      intros E. rewrite E in N. discriminate.
  - split; [now split | discriminate].
Qed.

(** ** What a row always holds *)

Lemma or_else_defined (a : value) :
  or_else a (Str "") = Str "" \/ truthy (or_else a (Str "")) = true.
Proof. unfold or_else. destruct (truthy a) eqn:T; [now right | now left]. Qed.

Lemma chain_defined (toLowerCase : string -> string) (product : Product.t)
  (variant : Variant.t) (first second : string) (c : value) :
  (x <- getVariantOptionByName toLowerCase product variant first ;;
   or_elseM x
     (f <- getVariantOptionByName toLowerCase product variant second ;;
      Ok (or_else f (Str "")))) = Ok c ->
  c = Str "" \/ truthy c = true.
Proof.
  intros H. apply bind_Ok in H as (x & _ & H). unfold or_elseM in H.
  destruct (truthy x) eqn:T.
  - injection H as <-. now right.
  - apply bind_Ok in H as (f & _ & H). injection H as <-. apply or_else_defined.
Qed.

Lemma Str_defined (s : string) : Str s = Str "" \/ truthy (Str s) = true.
Proof. destruct s; [now left | now right]. Qed.

(** X9: in every row that is built, the identifier counts as true (it is
    never empty), the availability is one of the two stock words, the price
    is an amount followed by the currency code and the sale price is empty
    or such an amount, and the row has a gtin or says "false" under
    identifier_exists, never both and never neither.  Every field other than
    the title and the group identifier is the empty text or a value that
    counts as true, so only those two can hold [null] or [undefined]. *)
Theorem row_always_holds (toLowerCase : string -> string)
  (product : Product.t) (variant : Variant.t) (row : list value) :
  buildItemFields toLowerCase product variant = Ok row ->
  truthy (column "id" row) = true
  /\ (column "availability" row = Str "in_stock"
      \/ column "availability" row = Str "out_of_stock")
  /\ (exists amount, column "price" row = Str (amount ++ " EUR"))
  /\ (column "sale_price" row = Str ""
      \/ exists amount, column "sale_price" row = Str (amount ++ " EUR"))
  /\ (column "gtin" row = Str "" /\ column "identifier_exists" row = Str "false"
      \/ truthy (column "gtin" row) = true /\ column "identifier_exists" row = Str "")
  /\ Forall (fun name => column name row = Str "" \/ truthy (column name row) = true)
       [ "id"; "description"; "link"; "image_link"; "additional_image_link";
         "availability"; "price"; "sale_price"; "brand"; "condition"; "gtin";
         "identifier_exists"; "product_type"; "color"; "size"; "material";
         "shipping_weight" ].
Proof.
  intros H.
  apply buildItemFields_Ok in H as (d & a & c & s & m & _ & _ & Hc & Hs & Hm & ->).
  assert (truthy (variantId product variant) = true) as Tid.
  { unfold variantId, or_else. now destruct (truthy (Variant.sku variant)) eqn:T. }
  assert (getAvailability variant (Product.status product) = "in_stock"
          \/ getAvailability variant (Product.status product) = "out_of_stock") as Ta.
  { unfold getAvailability.
    repeat match goal with
           | |- context [if ?b then _ else _] => destruct b
           end; tauto. }
  assert (barcode variant = Str "" /\ identifierExists variant = "false"
          \/ truthy (barcode variant) = true /\ identifierExists variant = "") as Tb.
  { unfold identifierExists. destruct (or_else_defined (Variant.barcode variant)) as [E|E];
      fold (barcode variant) in E; rewrite E; [now left | now right]. }
  assert (c = Str "" \/ truthy c = true) as Dc by exact (chain_defined _ _ _ _ _ _ Hc).
  assert (s = Str "" \/ truthy s = true) as Ds by exact (chain_defined _ _ _ _ _ _ Hs).
  assert (m = Str "" \/ truthy m = true) as Dm.
  { unfold material in Hm. apply bind_Ok in Hm as (x & _ & Hm). injection Hm as <-.
    apply or_else_defined. }
  unfold column. cbn [columnIndex CSV_HEADERS string_eqb String.eqb Ascii.eqb Bool.eqb nth].
  split; [exact Tid|]. split.
  { unfold availability. destruct Ta as [-> | ->]; [now left | now right]. }
  split.
  { unfold regularPrice. destruct (truthy (hasSalePrice variant)); eexists; reflexivity. }
  split.
  { unfold salePrice. destruct (truthy (hasSalePrice variant));
      [right; eexists; reflexivity | now left]. }
  split.
  { destruct Tb as [[-> ->] | [-> ->]]; [now left | now right]. }
  repeat match goal with
         | |- Forall _ (_ :: _) => apply Forall_cons
         | |- Forall _ [] => apply Forall_nil
         end;
    cbv beta;
    cbn [columnIndex CSV_HEADERS string_eqb String.eqb Ascii.eqb Bool.eqb nth];
    first [ apply Str_defined
          | assumption
          | right; exact Tid
          | unfold imageLink, brand, barcode, productType; apply or_else_defined ].
Qed.

(** The rule at the row of the lotion. *)
Lemma row_always_holds_lotion :
  exists row,
    buildItemFields asciiLower lotion redVariant = Ok row
    /\ truthy (column "id" row) = true
    /\ column "gtin" row = Str ""
    /\ column "identifier_exists" row = Str "false".
Proof.
  destruct (buildItemFields asciiLower lotion redVariant) as [row|e] eqn:H;
    [|vm_compute in H; discriminate].
  exists row. split; [reflexivity|].
  destruct (row_always_holds asciiLower lotion redVariant row H) as (T & _).
  split; [exact T|].
  vm_compute in H. injection H as <-. now split.
Defined.

(** ** The description *)

Lemma remove_tags_chars (c : ascii) (s : string) :
  forall in_tag, In c (chars (remove_tags_from in_tag s)) -> In c (chars s).
Proof.
  unfold chars. induction s as [|a r IH]; intros in_tag; simpl; [tauto|].
  destruct in_tag.
  - destruct (Ascii.eqb a ">"); intros H; right; exact (IH _ H).
  - destruct (Ascii.eqb a "<" && includes r ">").
    + intros H; right; exact (IH _ H).
    + simpl. intros [E|H]; [now left | right; exact (IH _ H)].
Qed.

Lemma remove_tags_tagFree (s : string) :
  forall in_tag, tagFree (remove_tags_from in_tag s).
Proof.
  induction s as [|a r IH]; intros in_tag; simpl; [exact I|].
  destruct in_tag.
  - destruct (Ascii.eqb a ">"); apply IH.
  - destruct (Ascii.eqb_spec a "<") as [->|N]; cbn [andb].
    + destruct (includes r ">") eqn:G; [apply IH|].
      simpl. split; [|apply IH]. intros _ H.
      apply remove_tags_chars in H.
      change ">" with (str1 ">"%char) in G. apply includes_char_false in G. contradiction.
    + simpl. split; [|apply IH]. intros E. contradiction.
Qed.

Lemma tagFree_remove_tags (s : string) : tagFree s -> remove_tags s = s.
Proof.
  unfold remove_tags. induction s as [|a r IH]; simpl; [reflexivity|].
  intros [H T]. rewrite (IH T).
  destruct (Ascii.eqb_spec a "<") as [->|N]; [|reflexivity]. cbn [andb].
  destruct (includes r ">") eqn:G; [|reflexivity].
  change ">" with (str1 ">"%char) in G. apply includes_char in G.
  now contradiction (H eq_refl).
Qed.

Lemma thinned_refl (s : string) : thinned s s.
Proof. induction s; constructor; assumption. Qed.

Lemma thinned_empty (s : string) : thinned "" s.
Proof. induction s; constructor; assumption. Qed.

Lemma thinned_chars (c : ascii) (out text : string) :
  thinned out text -> In c (chars out) -> c = " "%char \/ In c (chars text).
Proof.
  unfold chars. induction 1 as [| a out text _ IH | a out text _ IH | out text _ IH];
    simpl; intros H.
  - contradiction.
  - destruct (IH H); tauto.
  - destruct H as [E|H]; [tauto|]. destruct (IH H); tauto.
  - destruct H as [E|H]; [now left | exact (IH H)].
Qed.

Lemma thinned_tagFree (out text : string) :
  thinned out text -> tagFree text -> tagFree out.
Proof.
  induction 1 as [| a out text _ IH | a out text T IH | out text _ IH]; simpl.
  - trivial.
  - intros [_ F]. exact (IH F).
  - intros [N F]. split; [|exact (IH F)].
    intros E H. destruct (thinned_chars _ _ _ T H) as [D|D]; [discriminate D|].
    exact (N E D).
  - intros F. split; [discriminate | exact (IH F)].
Qed.

Lemma collapse_ws_thinned (s : string) :
  forall skip in_run, thinned (collapse_ws_from skip in_run s) s.
Proof.
  induction s as [|c r IH]; intros skip in_run; cbn [collapse_ws_from]; [constructor|].
  destruct skip as [|k].
  - destruct (ws_len (String c r)) as [|k].
    + apply thinned_keep, IH.
    + destruct in_run; [apply thinned_drop, IH | apply thinned_space, thinned_drop, IH].
  - apply thinned_drop, IH.
Qed.

Lemma trimStart_thinned (s : string) : forall skip, thinned (trimStart_from skip s) s.
Proof.
  induction s as [|c r IH]; intros skip; cbn [trimStart_from]; [constructor|].
  destruct skip as [|k]; [|apply thinned_drop, IH].
  destruct (ws_len (String c r)); [apply thinned_refl | apply thinned_drop, IH].
Qed.

Lemma trimEnd_thinned (s : string) : thinned (trimEnd s) s.
Proof.
  induction s as [|c r IH]; cbn [trimEnd]; [constructor|].
  destruct (all_ws (String c r)); [apply thinned_empty | now apply thinned_keep].
Qed.

(** X10: the description of a product holds no tag: in the text that
    [stripHtml] returns no [<] has a [>] anywhere after it, so stripping
    the tags of it again changes nothing. *)
Theorem stripHtml_no_tags (html : value) (text : string) :
  stripHtml html = Ok text ->
  tagFree text /\ remove_tags text = text.
Proof.
  intros H.
  assert (tagFree text) as T.
  { unfold stripHtml in H. destruct (negb (truthy html)).
    - injection H as <-. exact I.
    - destruct html as [| | b | n | s]; try discriminate. injection H as <-.
      unfold trim, trimStart, collapse_ws, remove_tags.
      eapply thinned_tagFree; [apply trimEnd_thinned|].
      eapply thinned_tagFree; [apply trimStart_thinned|].
      eapply thinned_tagFree; [apply collapse_ws_thinned|].
      apply remove_tags_tagFree. }
  split; [exact T | now apply tagFree_remove_tags].
Qed.

(** The rule at the description of the lotion. *)
Lemma stripHtml_no_tags_lotion :
  stripHtml (Product.body_html lotion) = Ok "Soft and light"
  /\ remove_tags "Soft and light" = "Soft and light".
Proof.
  assert (stripHtml (Product.body_html lotion) = Ok "Soft and light") as H
    by reflexivity.
  split; [exact H|].
  exact (proj2 (stripHtml_no_tags (Product.body_html lotion) "Soft and light" H)).
Defined.

Lemma ws_len_control (c : ascii) (r : string) :
  ws_len (String c r) = 0 -> controlSpace c = false /\ c <> " "%char.
Proof.
  unfold ws_len, controlSpace. intros H.
  destruct ((9 <=? N_of_ascii c) && (N_of_ascii c <=? 13))%N eqn:A; [discriminate H|].
  split; [reflexivity|]. intros ->. discriminate H.
Qed.

Lemma ws_len_space (r : string) : ws_len (String " " r) = 1.
Proof. reflexivity. Qed.

Lemma collapse_ws_chars (c : ascii) (s : string) :
  forall skip in_run,
    In c (chars (collapse_ws_from skip in_run s)) -> controlSpace c = false.
Proof.
  unfold chars. induction s as [|a r IH]; intros skip in_run;
    cbn [collapse_ws_from]; [contradiction|].
  destruct skip as [|k]; [|apply IH].
  destruct (ws_len (String a r)) as [|k] eqn:W.
  - simpl. intros [E|H]; [subst; exact (proj1 (ws_len_control _ _ W)) | exact (IH _ _ H)].
  - destruct in_run; [apply IH|].
    simpl. intros [E|H]; [subst; reflexivity | exact (IH _ _ H)].
Qed.

Lemma prefix_space_cons (a : ascii) (r : string) :
  a <> " "%char -> prefix " " (String a r) = false.
Proof.
  intros N. cbn [prefix].
  destruct (ascii_dec " " a) as [E|_]; [now contradiction N | reflexivity].
Qed.

Lemma prefix_space_same (a : ascii) (r r' : string) :
  prefix " " (String a r) = prefix " " (String a r').
Proof.
  cbn [prefix]. destruct (ascii_dec " " a); [|reflexivity].
  now destruct r, r'.
Qed.

Lemma collapse_ws_singleSpaced (s : string) :
  forall skip in_run,
    singleSpaced (collapse_ws_from skip in_run s)
    /\ (in_run = true -> prefix " " (collapse_ws_from skip in_run s) = false).
Proof.
  induction s as [|a r IH]; intros skip in_run; cbn [collapse_ws_from]; [now split|].
  destruct skip as [|k]; [|apply IH].
  destruct (ws_len (String a r)) as [|k] eqn:W.
  - destruct (ws_len_control _ _ W) as [_ N]. cbn [singleSpaced]. split.
    + split; [intros E; contradiction | apply IH].
    + intros _. now apply prefix_space_cons.
  - destruct in_run; [apply IH|]. split; [|discriminate].
    cbn [singleSpaced]. split; [intros _; now apply IH | apply IH].
Qed.

Lemma singleSpaced_trimStart (s : string) :
  forall skip, singleSpaced s -> singleSpaced (trimStart_from skip s).
Proof.
  induction s as [|a r IH]; intros skip; cbn [trimStart_from]; [trivial|].
  intros S. destruct skip as [|k]; [|apply IH, S].
  destruct (ws_len (String a r)); [exact S | apply IH, S].
Qed.

Lemma prefix_space_trimEnd (s : string) :
  prefix " " s = false -> prefix " " (trimEnd s) = false.
Proof.
  destruct s as [|a r]; [trivial|]. cbn [trimEnd].
  destruct (all_ws (String a r)); [reflexivity|].
  intros H. now rewrite (prefix_space_same a (trimEnd r) r).
Qed.

Lemma singleSpaced_trimEnd (s : string) : singleSpaced s -> singleSpaced (trimEnd s).
Proof.
  induction s as [|a r IH]; cbn [trimEnd]; [trivial|].
  intros [P S]. destruct (all_ws (String a r)); [exact I|].
  cbn [singleSpaced]. split; [|exact (IH S)].
  intros E. apply prefix_space_trimEnd. exact (P E).
Qed.

Lemma trimStart_ws_len (s : string) : forall skip, ws_len (trimStart_from skip s) = 0.
Proof.
  induction s as [|a r IH]; intros skip; cbn [trimStart_from]; [reflexivity|].
  destruct skip as [|k]; [|apply IH].
  destruct (ws_len (String a r)) eqn:W; [exact W | apply IH].
Qed.

Lemma ws_len_prefix_space (s : string) : ws_len s = 0 -> prefix " " s = false.
Proof.
  destruct s as [|a r]; [reflexivity|]. intros W.
  destruct (ws_len_control _ _ W) as [_ N]. now apply prefix_space_cons.
Qed.

Lemma trimEnd_empty (s : string) : trimEnd s = "" -> all_ws s = true.
Proof.
  destruct s as [|a r]; [reflexivity|]. cbn [trimEnd].
  destruct (all_ws (String a r)); [reflexivity | discriminate].
Qed.

Lemma trimEnd_no_trailing_space (s : string) : forall a, trimEnd s <> a ++ " ".
Proof.
  induction s as [|c r IH]; intros a; cbn [trimEnd].
  - destruct a; discriminate.
  - destruct (all_ws (String c r)) eqn:W; [destruct a; discriminate|].
    destruct a as [|c' a]; simpl.
    + intros E. injection E as -> E. apply trimEnd_empty in E.
      unfold all_ws in W, E. cbn [all_ws_from] in W. rewrite ws_len_space in W.
      congruence.
    + intros E. injection E as _ E. exact (IH a E).
Qed.

(** X11: the description of a product is one line of words with single
    spaces: the text that [stripHtml] returns holds no tab, line feed,
    vertical tab, form feed or carriage return, no space after a space, and
    neither starts nor ends with a space. *)
Theorem stripHtml_single_spaced (html : value) (text : string) :
  stripHtml html = Ok text ->
  (forall c, In c (chars text) -> controlSpace c = false)
  /\ singleSpaced text
  /\ prefix " " text = false
  /\ (forall before, text <> before ++ " ").
Proof.
  unfold stripHtml. destruct (negb (truthy html)).
  - intros H. injection H as <-.
    repeat split; try contradiction. intros before. destruct before; discriminate.
  - destruct html as [| | b | n | s]; try discriminate. intros H. injection H as <-.
    unfold trim, trimStart, collapse_ws. split; [|split; [|split]].
    + intros c H.
      destruct (thinned_chars _ _ _ (trimEnd_thinned _) H) as [-> | H1]; [reflexivity|].
      destruct (thinned_chars _ _ _ (trimStart_thinned _ _) H1) as [-> | H2]; [reflexivity|].
      exact (collapse_ws_chars _ _ _ _ H2).
    + apply singleSpaced_trimEnd, singleSpaced_trimStart, collapse_ws_singleSpaced.
    + apply prefix_space_trimEnd, ws_len_prefix_space, trimStart_ws_len.
    + apply trimEnd_no_trailing_space.
Qed.

(** The rule at a description on several lines. *)
Lemma stripHtml_single_spaced_lines :
  stripHtml (Str ("<ul>" ++ str1 newline ++ "  <li>Soft</li>" ++ str1 newline
                  ++ "  <li>Light </li>" ++ str1 newline ++ "</ul>" ++ str1 newline))
  = Ok "Soft Light"
  /\ singleSpaced "Soft Light".
Proof.
  assert (stripHtml
            (Str ("<ul>" ++ str1 newline ++ "  <li>Soft</li>" ++ str1 newline
                  ++ "  <li>Light </li>" ++ str1 newline ++ "</ul>" ++ str1 newline))
          = Ok "Soft Light") as H by reflexivity.
  split; [exact H|].
  exact (proj1 (proj2 (stripHtml_single_spaced _ _ H))).
Defined.

(** ** The shipping weight *)

Lemma positive_truthy (n : number) : positive_number n -> truthy (Num n) = true.
Proof. destruct n as [s | [|] | | [|] m e]; simpl; tauto. Qed.

(** X13: the shipping weight of a variant whose weight is a number is
    empty exactly when the number is not above zero (zero, a negative
    number and NaN all give an empty field, as a missing weight does);
    otherwise it is the number's text, a space and the unit, "kg" when the
    variant has no unit.  For a weight that is an integer the field is
    empty exactly when the integer is zero or below. *)
Theorem weight_rule (variant : Variant.t) (n : number) :
  Variant.weight variant = Num n ->
  (positive_number n ->
     weight variant
     = number_to_string n ++ " "
       ++ to_string (or_else (Variant.weight_unit variant) (Str "kg")))
  /\ (positive_number n -> missing (Variant.weight_unit variant) ->
      weight variant = number_to_string n ++ " kg")
  /\ (weight variant = "" <-> ~ positive_number n)
  /\ (forall z : Z, n = number_of_Z z -> (weight variant = "" <-> (z <= 0)%Z)).
Proof.
  intros E. unfold weight, gt_number. rewrite E. cbn [to_number to_string].
  assert (positive_number n ->
          (if truthy (Num n) && number_ltb zero n
           then number_to_string n ++ " "
                ++ to_string (or_else (Variant.weight_unit variant) (Str "kg"))
           else "")
          = number_to_string n ++ " "
            ++ to_string (or_else (Variant.weight_unit variant) (Str "kg"))) as P.
  { intros H. rewrite (positive_truthy n H).
    apply number_ltb_zero in H. now rewrite H. }
  assert ((if truthy (Num n) && number_ltb zero n
           then number_to_string n ++ " "
                ++ to_string (or_else (Variant.weight_unit variant) (Str "kg"))
           else "") = "" <-> ~ positive_number n) as Z.
  { destruct (number_ltb zero n) eqn:G.
    - apply number_ltb_zero in G. rewrite (positive_truthy n G). cbn [andb].
      split; [|tauto]. intros H.
      assert (is_empty (number_to_string n ++ " "
                        ++ to_string (or_else (Variant.weight_unit variant) (Str "kg")))
              = true) as X by now rewrite H.
      rewrite is_empty_append, number_to_string_nonempty in X. discriminate X.
    - rewrite andb_false_r. split; [|reflexivity].
      intros _ H. apply number_ltb_zero in H. congruence. }
  split; [exact P|]. split; [|split; [exact Z|]].
  - intros H M. rewrite (P H). unfold or_else. now rewrite (missing_falsy _ M).
  - intros z ->. rewrite Z, number_of_Z_positive. lia.
Qed.

(** The rule at a variant of a quarter of a kilogram and at one that
    weighs nothing. *)
Lemma weight_rule_samples :
  weight redVariant = "0.25 kg" /\ weight weightless = "".
Proof.
  split.
  - destruct (weight_rule redVariant (parseFloat_string "0.25") eq_refl) as (_ & R & _).
    rewrite R; [vm_compute; reflexivity | exact I | now left].
  - destruct (weight_rule weightless (number_of_Z 0) eq_refl) as (_ & _ & _ & R).
    apply (R 0%Z eq_refl). lia.
Defined.

(** ** Amounts with two decimals *)

(** X14: an amount in the range of fixed notation is written with exactly
    two decimals: [toFixed(2)] gives the sign, at least one character for
    the whole part, a point and two characters.  Outside that range, for
    NaN, the infinities and the numbers from [10^21] on, it gives the text
    of the number. *)
Theorem toFixed_two_decimals_shape (x : number) :
  (fixedRange x ->
     exists whole cents,
       toFixed 2 x = signText x ++ whole ++ "." ++ cents
       /\ String.length cents = 2
       /\ 1 <= String.length whole)
  /\ (~ fixedRange x -> toFixed 2 x = number_to_string x).
Proof.
  destruct x as [s | s | | s m e]; cbn [fixedRange toFixed signText].
  - split; [|tauto]. intros _. exists "0", "00". now repeat split.
  - split; [contradiction | reflexivity].
  - split; [contradiction | reflexivity].
  - destruct (Z.leb_spec (pow10 21 * snd (exact_ratio m e)) (fst (exact_ratio m e)))
      as [L|L].
    + split; [lia | reflexivity].
    + split; [|lia]. intros _. cbn [Nat.eqb].
      set (ds := repeat_char "0" (3 - String.length
                                        (string_of_Z (round_half_up
                                           (scale10 (exact_ratio m e) (Z.of_nat 2)))))
                 ++ string_of_Z (round_half_up (scale10 (exact_ratio m e) (Z.of_nat 2)))).
      assert (3 <= String.length ds) as D.
      { unfold ds. rewrite length_append, length_repeat_char. lia. }
      exists (take (String.length ds - 2) ds), (drop (String.length ds - 2) ds).
      split; [now destruct s|]. split.
      * rewrite length_drop. lia.
      * rewrite length_take; lia.
Qed.

(** The rule at 19.99 and at a price that cannot be read. *)
Lemma toFixed_two_decimals_shape_samples :
  toFixed 2 (parseFloat (Str "19.99")) = "19" ++ "." ++ "99"
  /\ toFixed 2 (parseFloat (Str "n/a")) = "NaN".
Proof.
  split; [vm_compute; reflexivity|].
  rewrite (proj2 (toFixed_two_decimals_shape (parseFloat (Str "n/a")))); [reflexivity|].
  intros [].
Defined.
